(** * ClipGen: key rotation, list manager and request orchestration

    A shallow embedding of
      - [clipgen/api/base.py]        (APIProvider.switch_to_next_key),
      - [clipgen/api/gemini.py], [clipgen/api/openai_compat.py]
                                      (get_active_key, reconfigure),
      - [clipgen/core/list_manager.py] (ConfigListManager),
      - [clipgen/api/processor.py]   (TextProcessor),
      - [clipgen/core/config.py]     (_migrate_config, the rotations),
      - [clipgen/ui/main_window.py]  (the handlers of the key lists),
      - [clipgen/testing/tester.py]  (_update_timestamp),
      - [clipgen/app.py]             (the errors of the welcome message),
      - [clipgen/hotkeys/listener.py], [clipgen/utils/clipboard.py]
                                      (HotkeyListener, the pasting flag).

    Python dictionaries are finite maps with string keys, the calls made
    on collaborators (callbacks, logger, provider, clipboard) are recorded
    in a trace, and the worker thread and the user are scripted by
    the environment. *)

From Stdlib Require Import ZArith QArith Lia String Ascii List.
From stdpp Require Import base option list strings pretty gmap.

Local Open Scope string_scope.

(** ** Values stored in the configuration dictionaries *)

Inductive value :=
| VNone
| VBool (b : bool)
| VStr (s : string)
| VNum (q : Q)
| VTimes (l : list Q).

(** Python truthiness. *)
Definition truthy (v : value) : bool :=
  match v with
  | VNone => false
  | VBool b => b
  | VStr s => negb (String.eqb s "")
  | VNum q => negb (Qeq_bool q 0)
  | VTimes l => negb (bool_decide (l = []))
  end.

(** [type(v).__name__], as it appears in Python's error messages. *)
Definition type_name (v : value) : string :=
  match v with
  | VNone => "NoneType"
  | VBool _ => "bool"
  | VStr _ => "str"
  | VNum _ => "float"
  | VTimes _ => "list"
  end.

Definition bool_num (b : bool) : Q := if b then 1%Q else 0%Q.

Fixpoint Qlist_eqb (l k : list Q) : bool :=
  match l, k with
  | [], [] => true
  | x :: l', y :: k' => Qeq_bool x y && Qlist_eqb l' k'
  | _, _ => false
  end.

(** Python's [==] on these values ([bool] is a subtype of [int]). *)
Definition py_eq (v w : value) : bool :=
  match v, w with
  | VNone, VNone => true
  | VBool a, VBool b => Bool.eqb a b
  | VBool a, VNum q | VNum q, VBool a => Qeq_bool (bool_num a) q
  | VNum p, VNum q => Qeq_bool p q
  | VStr s, VStr t => String.eqb s t
  | VTimes l, VTimes k => Qlist_eqb l k
  | _, _ => false
  end.

(** An entry of a list in the configuration (an API key, a model): a dict. *)
Abbreviation item := (gmap string value).

(** [d.get(f)]: [None] when the field is absent. *)
Definition get (d : item) (f : string) : value := default VNone (d !! f).

(** [d.get("active")] used as a condition. *)
Definition is_active (d : item) : bool := truthy (get d "active").

(** ** Strings: [str.lower] and the [in] operator *)

Definition lower_ascii (c : ascii) : ascii :=
  let n := nat_of_ascii c in
  if (65 <=? n)%nat && (n <=? 90)%nat then ascii_of_nat (n + 32) else c.

Fixpoint lower (s : string) : string :=
  match s with
  | EmptyString => EmptyString
  | String c r => String (lower_ascii c) (lower r)
  end.

(** [needle in s] *)
Fixpoint contains (needle s : string) : bool :=
  String.prefix needle s ||
  match s with
  | EmptyString => false
  | String _ r => contains needle r
  end.

(** ** The configuration dictionary

    The configuration is one Python dict; its list-valued entries
    ("api_keys", "openai_api_keys", "gemini_models", ...), its scalar
    entries ("provider", "auto_switch_api_keys", "active_model", ...) and
    the "hotkeys" list are kept in three fields. *)

Record hotkey := Hotkey {
  hk_name : string;
  combination : string;
  log_color : string;
  use_custom_model : bool;
  custom_provider : option string;
  custom_model : option string;
  learning_mode : bool
}.

Record Config := MkConfig {
  lists : gmap string (list item);
  scalars : gmap string value;
  hotkeys : list hotkey
}.

(** [config.get(key, [])] *)
Definition get_list (c : Config) (key : string) : list item :=
  default [] (lists c !! key).

Definition set_list (c : Config) (key : string) (l : list item) : Config :=
  MkConfig (<[key := l]> (lists c)) (scalars c) (hotkeys c).

Definition set_scalar (c : Config) (key : string) (v : value) : Config :=
  MkConfig (lists c) (<[key := v]> (scalars c)) (hotkeys c).

(** [l[i][f] = v] *)
Definition set_field (i : nat) (f : string) (v : value) (l : list item) : list item :=
  alter (<[f := v]>) i l.

(** ** Calls on collaborators *)

Inductive provider := gemini | openai.

Inductive final_msg :=
| QuotaExceeded
| ServiceUnavailable
| Timeout
| ConnectionFailed
| InvalidKey
| ModelNotFound
| Verbatim (s : string).

Inductive log_record :=
| LBusy
| LProcessing (p : provider)
| LKeyNotSet
| LKeyNotConfigured
| LCancelled
| LFinal (m : final_msg).

Inductive log_line :=
| Header
| EmptyClipboard
| Switched (name : value)
| ErrorLine (m : final_msg)
| ExecutionTime
| ResultLine (s : string).

Inductive event :=
| Save
| Refresh
| Reconfigure (api_key : value)
| SwitchToNextKey
| Generate (p : provider) (model_override : option string)
| Logger (r : log_record)
| OnStart
| OnSuccess
| OnError
| OnKeySwitch (name : value)
| OnLog (m : log_line)
| SimulateCopy
| SetText (s : string)
| SimulatePaste
| StartExplanation.

(** ** api/base.py, api/gemini.py, api/openai_compat.py *)

Definition name (p : provider) : string :=
  match p with gemini => "gemini" | openai => "openai" end.

Definition api_keys_key (p : provider) : string :=
  match p with gemini => "api_keys" | openai => "openai_api_keys" end.

(** [get_active_key]: the first entry whose "active" field is truthy. *)
Fixpoint first_active (keys : list item) : option item :=
  match keys with
  | [] => None
  | k :: rest => if is_active k then Some k else first_active rest
  end.

Definition get_active_key (p : provider) (c : Config) : option item :=
  first_active (get_list c (api_keys_key p)).

(** [reconfigure]: Gemini calls [genai.configure]; the OpenAI client is
    created per request. *)
Definition reconfigure (p : provider) (api_key : value) : list event :=
  match p with gemini => [Reconfigure api_key] | openai => [] end.

(** The loop of [switch_to_next_key]: index of the first active key,
    counted from [i]; -1 if there is none. *)
Fixpoint current_index_from (i : Z) (keys : list item) : Z :=
  match keys with
  | [] => (-1)%Z
  | k :: rest => if is_active k then i else current_index_from (i + 1)%Z rest
  end.

Definition current_index (keys : list item) : Z := current_index_from 0 keys.

(** "Key N" *)
Definition key_label (next_index : nat) : string :=
  "Key " ++ pretty (S next_index).

Definition switch_keys (keys : list item) : list item :=
  let ci := current_index keys in
  let keys1 := if (0 <=? ci)%Z then set_field (Z.to_nat ci) "active" (VBool false) keys
               else keys in
  let next_index := Z.to_nat ((ci + 1) `mod` Z.of_nat (length keys)) in
  set_field next_index "active" (VBool true) keys1.

Definition next_index (keys : list item) : nat :=
  Z.to_nat ((current_index keys + 1) `mod` Z.of_nat (length keys)).

Definition switch_to_next_key (p : provider) (c : Config)
  : option value * Config * list event :=
  let keys := get_list c (api_keys_key p) in
  if (length keys <? 2)%nat then (None, c, [])
  else
    let keys' := switch_keys keys in
    let ni := next_index keys in
    let new_item := default ∅ (keys' !! ni) in
    let new_key := get new_item "key" in
    let evs := if truthy new_key then reconfigure p new_key else [] in
    (Some (default (VStr (key_label ni)) (new_item !! "name")),
     set_list c (api_keys_key p) keys', evs).

(** ** core/list_manager.py *)

Record ConfigListManager := MkManager {
  list_key : string;
  active_field : string;
  default_item : item
}.

Definition items (m : ConfigListManager) (c : Config) : list item :=
  get_list c (list_key m).

(** [0 <= index < len(items)] *)
Definition in_range (index : Z) (l : list item) : bool :=
  (0 <=? index)%Z && (index <? Z.of_nat (length l))%Z.

(** [item or self.default_item]: [None] and the empty dict are falsy. *)
Definition item_or_default (m : ConfigListManager) (it : option item) : item :=
  match it with
  | Some d => if bool_decide (d = ∅) then default_item m else d
  | None => default_item m
  end.

Definition add (m : ConfigListManager) (it : option item) (c : Config)
  : nat * Config * list event :=
  let new_item := item_or_default m it in
  let c1 := match lists c !! list_key m with
            | None => set_list c (list_key m) []
            | Some _ => c
            end in
  let its := items m c1 in
  let new_item :=
    if (length its =? 0)%nat && bool_decide (is_Some (new_item !! "active"))
    then <["active" := VBool true]> new_item
    else new_item in
  let its' := (its ++ [new_item])%list in
  ((length its' - 1)%nat, set_list c1 (list_key m) its', [Save; Refresh]).

Definition delete (m : ConfigListManager) (index : Z) (c : Config)
  : bool * Config * list event :=
  let its := items m c in
  if negb (in_range index its) then (false, c, [])
  else
    let i := Z.to_nat index in
    let was_active := from_option is_active false (its !! i) in
    let its1 := base.delete i its in
    let its2 := if was_active && (0 <? length its1)%nat
                then set_field 0 "active" (VBool true) its1
                else its1 in
    (true, set_list c (list_key m) its2, [Save; Refresh]).

Definition set_active (m : ConfigListManager) (index : Z) (c : Config)
  : bool * Config * list event :=
  let its := items m c in
  if negb (in_range index its) then (false, c, [])
  else
    let i := Z.to_nat index in
    let c' :=
      if bool_decide (is_Some (default ∅ (its !! 0%nat) !! "active"))
      then set_list c (list_key m)
             (imap (fun j d => <["active" := VBool (Nat.eqb j i)]> d) its)
      else
        let active_name := get (default ∅ (its !! i)) "name" in
        if truthy active_name && bool_decide (is_Some (scalars c !! active_field m))
        then set_scalar c (active_field m) active_name
        else c in
    (true, c', [Save; Refresh]).

Definition update_field (m : ConfigListManager) (index : Z) (field : string)
    (v : value) (c : Config) : bool * Config * list event :=
  let its := items m c in
  if negb (in_range index its) then (false, c, [])
  else
    let i := Z.to_nat index in
    let old_value := get (default ∅ (its !! i)) field in
    let c1 := set_list c (list_key m) (set_field i field v its) in
    let c2 :=
      if String.eqb field "name" then
        match scalars c1 !! active_field m with
        | Some cur => if py_eq cur old_value then set_scalar c1 (active_field m) v else c1
        | None => c1
        end
      else c1 in
    (true, c2, [Save]).

(** ** api/processor.py *)

(** What the worker thread leaves in [result_queue]. *)
Inductive worker_result :=
| Returned (s : string)   (* [provider.generate] returned [s] *)
| Raised (msg : string)   (* [provider.generate] raised [e], [msg = str(e)] *)
| NoResult.               (* the queue is empty *)

(** The environment of one loop iteration: [polls] has one entry per pass
    through the body of [while worker_thread.is_alive()], telling whether
    the user has asked for cancellation ([cancel_current]) since the
    previous check; [outcome] is what the worker eventually produces. *)
Record attempt_script := Script {
  polls : list bool;
  outcome : worker_result
}.

(** The processor: the shared configuration, the two locks' protected
    state, the [threading.Event] objects (by identity) with their flags,
    which callbacks the application registered, and the trace of calls. *)
Record TextProcessor := MkProcessor {
  config : Config;
  genai_lock : bool;
  current_task_event : option nat;
  events_set : gset nat;
  events_created : nat;
  on_start : bool;
  on_success : bool;
  on_error : bool;
  on_key_switch : bool;
  on_log : bool;
  trace : list event
}.

Definition with_config (c : Config) (tp : TextProcessor) : TextProcessor :=
  MkProcessor c (genai_lock tp) (current_task_event tp) (events_set tp)
    (events_created tp) (on_start tp) (on_success tp) (on_error tp)
    (on_key_switch tp) (on_log tp) (trace tp).

Definition with_lock (b : bool) (tp : TextProcessor) : TextProcessor :=
  MkProcessor (config tp) b (current_task_event tp) (events_set tp)
    (events_created tp) (on_start tp) (on_success tp) (on_error tp)
    (on_key_switch tp) (on_log tp) (trace tp).

Definition with_task_event (e : option nat) (tp : TextProcessor) : TextProcessor :=
  MkProcessor (config tp) (genai_lock tp) e (events_set tp)
    (events_created tp) (on_start tp) (on_success tp) (on_error tp)
    (on_key_switch tp) (on_log tp) (trace tp).

Definition emit (evs : list event) (tp : TextProcessor) : TextProcessor :=
  MkProcessor (config tp) (genai_lock tp) (current_task_event tp) (events_set tp)
    (events_created tp) (on_start tp) (on_success tp) (on_error tp)
    (on_key_switch tp) (on_log tp) (trace tp ++ evs)%list.

(** [if self.on_x: self.on_x(...)] *)
Definition fire (registered : TextProcessor -> bool) (e : event)
    (tp : TextProcessor) : TextProcessor :=
  if registered tp then emit [e] tp else tp.

(** [threading.Event()] *)
Definition new_event (tp : TextProcessor) : nat * TextProcessor :=
  (events_created tp,
   MkProcessor (config tp) (genai_lock tp) (current_task_event tp) (events_set tp)
     (S (events_created tp)) (on_start tp) (on_success tp) (on_error tp)
     (on_key_switch tp) (on_log tp) (trace tp)).

(** [e.set()] and [e.is_set()] *)
Definition set_event (e : nat) (tp : TextProcessor) : TextProcessor :=
  MkProcessor (config tp) (genai_lock tp) (current_task_event tp)
    ({[e]} ∪ events_set tp)
    (events_created tp) (on_start tp) (on_success tp) (on_error tp)
    (on_key_switch tp) (on_log tp) (trace tp).

Definition is_set (e : nat) (tp : TextProcessor) : bool :=
  bool_decide (e ∈ events_set tp).

Definition cancel_current (tp : TextProcessor) : TextProcessor :=
  match current_task_event tp with
  | Some e => set_event e tp
  | None => tp
  end.

Definition find_hotkey (c : Config) (action_name : string) : option hotkey :=
  List.find (fun h => String.eqb (hk_name h) action_name) (hotkeys c).

Definition provider_named (n : value) : provider :=
  if py_eq n (VStr "openai") then openai else gemini.

Definition _get_provider (c : Config) (hk : option hotkey) : provider :=
  let global := provider_named (default (VStr "gemini") (scalars c !! "provider")) in
  match hk with
  | Some h =>
      if use_custom_model h then
        match custom_provider h with
        | Some pn => if negb (String.eqb pn "") then provider_named (VStr pn) else global
        | None => global
        end
      else global
  | None => global
  end.

Definition _get_model_name (hk : option hotkey) : option string :=
  match hk with
  | Some h =>
      if use_custom_model h then
        match custom_model h with
        | Some cm => if negb (String.eqb cm "") then Some cm else None
        | None => None
        end
      else None
  | None => None
  end.

(** [now - ts < 86400] *)
Definition younger (now ts : Q) : bool := negb (Qle_bool 86400 (now - ts)).

(** [_update_key_timestamp]; [inl] is the text of the exception raised
    when the field holds something that has no [append]. *)
Definition _update_key_timestamp (p : provider) (now : Q) (c : Config)
  : string + Config :=
  let keys := get_list c (api_keys_key p) in
  match get_active_key p c with
  | None => inr c
  | Some key_data =>
      let i := Z.to_nat (current_index keys) in
      match default (VTimes []) (key_data !! "usage_timestamps") with
      | VTimes l =>
          let l' := (l ++ [now])%list in
          inr (set_list c (api_keys_key p)
                 (set_field i "usage_timestamps"
                    (VTimes (List.filter (younger now) l')) keys))
      | v => inl ("'" ++ type_name v ++ "' object has no attribute 'append'")
      end
  end.

(** The quota test of the retry loop. *)
Definition is_quota (msg : string) : bool :=
  let err_str := lower msg in
  contains "429" err_str || contains "quota" err_str.

(** The translation of the [except] clause. *)
Definition translate (msg : string) : final_msg :=
  let err_str := lower msg in
  if contains "429" err_str && contains "quota" err_str then QuotaExceeded
  else if contains "503" err_str || contains "overloaded" err_str
  then ServiceUnavailable
  else if contains "timeout" err_str || contains "deadline" err_str
          || contains "504" err_str
  then Timeout
  else if contains "connection" err_str || contains "stream removed" err_str
          || contains "failed to connect" err_str
  then ConnectionFailed
  else if contains "400" err_str && contains "api key" err_str then InvalidKey
  else if contains "404" err_str && contains "not found" err_str then ModelNotFound
  else Verbatim msg.

(** [except Exception as e: ...; return ""] *)
Definition on_exception (msg : string) (tp : TextProcessor) : string * TextProcessor :=
  let m := translate msg in
  ("", emit [Logger (LFinal m)] (fire on_log (OnLog (ErrorLine m)) tp)).

(** ["YOUR_KEY" in v] for a truthy [v]. *)
Definition your_key_in (v : value) : string + bool :=
  match v with
  | VStr s => inr (contains "YOUR_KEY" s)
  | VTimes _ => inr false
  | _ => inl ("argument of type '" ++ type_name v ++ "' is not iterable")
  end.

(** The polling loop: [true] when cancellation was observed. *)
Fixpoint wait_worker (cancel_event : nat) (ps : list bool) (tp : TextProcessor)
  : bool * TextProcessor :=
  match ps with
  | [] => (false, tp)
  | press :: rest =>
      let tp1 := if press then cancel_current tp else tp in
      if is_set cancel_event tp1 then (true, emit [Logger LCancelled] tp1)
      else wait_worker cancel_event rest tp1
  end.

(** How one iteration of the retry loop ends. *)
Inductive flow :=
| Return (s : string)
| Raise (msg : string)
| Break (success_result : option string) (last_error : option string)
| Continue.

Definition auto_switch_api_keys (c : Config) : bool :=
  truthy (default (VBool false) (scalars c !! "auto_switch_api_keys")).

(** The body of [while attempt < max_attempts]. *)
Definition attempt_body (p : provider) (model_override : option string)
    (cancel_event : nat) (sc : attempt_script) (tp : TextProcessor)
  : flow * TextProcessor :=
  match get_active_key p (config tp) with
  | None => (Return "", fire on_error OnError (emit [Logger LKeyNotSet] tp))
  | Some key_data =>
      if negb (truthy (get key_data "key"))
      then (Return "", fire on_error OnError (emit [Logger LKeyNotSet] tp))
      else
        match your_key_in (default (VStr "") (key_data !! "key")) with
        | inl msg => (Raise msg, tp)
        | inr true =>
            (Return "", fire on_error OnError (emit [Logger LKeyNotConfigured] tp))
        | inr false =>
            let tp1 := emit [Generate p model_override] tp in
            let '(cancelled, tp2) := wait_worker cancel_event (polls sc) tp1 in
            if cancelled then (Return "", tp2)
            else
              match outcome sc with
              | NoResult => (Return "", tp2)
              | Returned s => (Break (Some s) None, tp2)
              | Raised msg =>
                  if is_quota msg && auto_switch_api_keys (config tp2) then
                    let '(new_key_name, c', evs) := switch_to_next_key p (config tp2) in
                    let tp3 := emit (SwitchToNextKey :: evs) (with_config c' tp2) in
                    match new_key_name with
                    | Some n =>
                        if truthy n
                        then (Continue,
                              fire on_log (OnLog (Switched n))
                                (fire on_key_switch (OnKeySwitch n) tp3))
                        else (Break None (Some msg), tp3)
                    | None => (Break None (Some msg), tp3)
                    end
                  else (Break None (Some msg), tp2)
              end
        end
  end.

(** The retry loop; [remaining] is [max_attempts - attempt]. *)
Fixpoint retry_loop (p : provider) (model_override : option string)
    (cancel_event : nat) (env : nat -> attempt_script)
    (remaining attempt : nat) (tp : TextProcessor) : flow * TextProcessor :=
  match remaining with
  | O => (Break None None, tp)
  | S remaining' =>
      let attempt' := S attempt in
      match attempt_body p model_override cancel_event (env attempt') tp with
      | (Continue, tp') =>
          retry_loop p model_override cancel_event env remaining' attempt' tp'
      | r => r
      end
  end.

Definition max_attempts (p : provider) (c : Config) : nat :=
  Nat.max (length (get_list c (api_keys_key p)) * 2) 1.

(** The [try] block of [process] with its [except] clause. *)
Definition process_try (p : provider) (model_override : option string)
    (cancel_event : nat) (env : nat -> attempt_script) (now : Q)
    (tp : TextProcessor) : string * TextProcessor :=
  let tp1 := emit [Logger (LProcessing p)] tp in
  match retry_loop p model_override cancel_event env
          (max_attempts p (config tp1)) 0 tp1 with
  | (Return s, tp2) => (s, tp2)
  | (Raise msg, tp2) => on_exception msg tp2
  | (Continue, tp2) => ("", tp2)
  | (Break success_result last_error, tp2) =>
      match success_result with
      | Some (String a s) =>
          match _update_key_timestamp p now (config tp2) with
          | inl msg => on_exception msg tp2
          | inr c' => (String a s, emit [Save] (with_config c' tp2))
          end
      | _ =>
          match last_error with
          | Some msg => on_exception msg tp2
          | None => ("", tp2)
          end
      end
  end.

(** Lines 140-146: create the cancel event, publish it, try the lock. *)
Definition process_begin (tp : TextProcessor) : nat * bool * TextProcessor :=
  let '(cancel_event, tp1) := new_event tp in
  let tp2 := with_task_event (Some cancel_event) tp1 in
  if genai_lock tp2 then (cancel_event, false, tp2)
  else (cancel_event, true, with_lock true tp2).

(** Lines 147-152: the lock is held by another call. *)
Definition process_busy (tp : TextProcessor) : string * TextProcessor :=
  ("", fire on_error OnError (with_task_event None (emit [Logger LBusy] tp))).

(** The [finally] clause. *)
Definition process_finally (tp : TextProcessor) : TextProcessor :=
  with_task_event None (with_lock false tp).

(** [process]; [prompt], [text], [is_image] and [image_data] are only
    handed to [provider.generate]. *)
Definition process (env : nat -> attempt_script) (now : Q)
    (action_name : string) (tp : TextProcessor) : string * TextProcessor :=
  let hk := find_hotkey (config tp) action_name in
  let p := _get_provider (config tp) hk in
  let model_override := _get_model_name hk in
  let '(cancel_event, acquired, tp1) := process_begin tp in
  if acquired then
    let '(r, tp2) := process_try p model_override cancel_event env now tp1 in
    (r, process_finally tp2)
  else process_busy tp1.

(** [handle_hotkey]; the clipboard yields [content] and [is_image]. *)
Definition handle_hotkey (env : nat -> attempt_script) (now : Q)
    (content : string) (is_image : bool)
    (action_name : string) (tp : TextProcessor) : TextProcessor :=
  let tp1 := fire on_start OnStart tp in
  let hk := find_hotkey (config tp1) action_name in
  let tp2 := emit [SimulateCopy] (fire on_log (OnLog Header) tp1) in
  if String.eqb content "" then
    fire on_error OnError (fire on_log (OnLog EmptyClipboard) tp2)
  else
    let '(result, tp3) := process env now action_name tp2 in
    if negb (String.eqb result "") then
      let tp4 := emit [SetText result] tp3 in
      let tp5 := if from_option learning_mode false hk && negb is_image
                 then emit [StartExplanation] tp4 else tp4 in
      let tp6 := emit [SimulatePaste] tp5 in
      fire on_success OnSuccess
        (fire on_log (OnLog (ResultLine result))
           (fire on_log (OnLog ExecutionTime) tp6))
    else fire on_error OnError tp3.

(** ** Notions used to state the properties *)

(** Number of entries whose active flag is set. *)
Definition count_active (l : list item) : nat := length (List.filter is_active l).

(** A non-empty list has exactly one active entry. *)
Definition exactly_one_active (l : list item) : Prop :=
  l <> [] -> count_active l = 1%nat.

Definition bit (b : bool) : nat := if b then 1%nat else 0%nat.

(** The active flags of the entries, in order. *)
Definition flags (l : list item) : list bool := is_active <$> l.

(** The flags of a list of [n] entries in which only entry [i] is active. *)
Definition onehot (n i : nat) : list bool := (fun j => Nat.eqb j i) <$> seq 0 n.

(** The configuration after one call of [switch_to_next_key]. *)
Definition rotate (p : provider) (c : Config) : Config := (switch_to_next_key p c).1.2.

(** The fields of an entry other than the active flag. *)
Definition other_fields (d : item) : item := base.delete "active" d.


(** The "usage_timestamps" field of the active key, if any, holds a list. *)
Definition usage_ok (p : provider) (c : Config) : Prop :=
  match get_active_key p c with
  | Some key_data =>
      match key_data !! "usage_timestamps" with
      | None | Some (VTimes _) => True
      | Some _ => False
      end
  | None => True
  end.

(** The usage timestamps of the active key. *)
Definition active_usage (p : provider) (c : Config) : list Q :=
  match get_active_key p c with
  | Some key_data =>
      match key_data !! "usage_timestamps" with
      | Some (VTimes l) => l
      | _ => []
      end
  | None => []
  end.

Definition count_event (P : event -> bool) (tr : list event) : nat :=
  length (List.filter P tr).

Definition is_generate (e : event) : bool :=
  match e with Generate _ _ => true | _ => false end.

Definition is_rotation (e : event) : bool :=
  match e with SwitchToNextKey => true | _ => false end.

Definition is_error_line (e : event) : bool :=
  match e with OnLog (ErrorLine _) => true | _ => false end.

(** A key the retry loop accepts: a non-empty string without "YOUR_KEY";
    and a label that [if new_key_name:] accepts. *)
Definition usable_key (d : item) : bool :=
  match d !! "key" with
  | Some (VStr s) => negb (String.eqb s "") && negb (contains "YOUR_KEY" s)
  | _ => false
  end.

Definition labelled (d : item) : bool :=
  match d !! "name" with
  | Some v => truthy v
  | None => true
  end.

(** Events that are neither a generation attempt, nor a rotation call,
    nor an error line. *)
Definition quiet (evs : list event) : Prop :=
  count_event is_generate evs = 0%nat /\ count_event is_rotation evs = 0%nat /\
  count_event is_error_line evs = 0%nat.

Definition ready_key (d : item) : bool := usable_key d && labelled d.

(** The provider that [process] resolves for an action. *)
Definition resolved_provider (c : Config) (action_name : string) : provider :=
  _get_provider c (find_hotkey c action_name).

(** [K] credentials, all of them accepted by the retry loop, one of them
    active, and auto-switch enabled. *)
Definition rotation_ready (p : provider) (K : nat) (c : Config) : Prop :=
  length (get_list c (api_keys_key p)) = K /\
  Forall (fun d => ready_key d = true) (get_list c (api_keys_key p)) /\
  is_Some (get_active_key p c) /\
  auto_switch_api_keys c = true.

(** The adapter raises a quota error on every call, and the user never
    cancels. *)
Definition quota_every_time (env : nat -> attempt_script) : Prop :=
  forall i,
    Forall (fun b => b = false) (polls (env i)) /\
    exists msg, outcome (env i) = Raised msg /\ is_quota msg = true.

(** ** Sample data *)

Definition sample_key (nm : string) (a : bool) : item :=
  <["key" := VStr ("sk-" ++ nm)]>
    (<["name" := VStr nm]>
       (<["usage_timestamps" := VTimes []]> (<["active" := VBool a]> ∅))).

Definition sample_config (keys : list item) : Config :=
  MkConfig (<["api_keys" := keys]> ∅)
    (<["auto_switch_api_keys" := VBool true]> (<["provider" := VStr "gemini"]> ∅))
    [Hotkey "F1 Text Correction" "Ctrl+F1" "#FFFFFF" false None None false].

Definition one_key : Config := sample_config [sample_key "Main Key" true].

Definition two_keys : Config :=
  sample_config [sample_key "Main Key" true; sample_key "Spare" false].

Definition three_keys : Config :=
  sample_config [sample_key "Main Key" false; sample_key "Spare" true;
                 sample_key "Third" false].

Definition key_manager : ConfigListManager :=
  MkManager "api_keys" "active" (sample_key "New Key" false).

Definition idle_processor (c : Config) : TextProcessor :=
  MkProcessor c false None ∅ 0 true true true true true [].

(** An adapter that fails with a quota error on every call. *)
Definition always_quota (_ : nat) : attempt_script :=
  Script [false; false] (Raised "429 Resource has been exhausted (e.g. check quota).").

(** A configuration whose active key was used 100 s and 90000 s after
    the epoch. *)
Definition used_keys : Config :=
  sample_config
    [<["usage_timestamps" := VTimes [100%Q; 90000%Q]]> (sample_key "Main Key" true);
     sample_key "Spare" false].

(** An adapter that fails with the given message on every call. *)
Definition always_raises (msg : string) (_ : nat) : attempt_script :=
  Script [false] (Raised msg).

(** An adapter that succeeds on its first call. *)
Definition always_ok (_ : nat) : attempt_script :=
  Script [false] (Returned "Hello world").

(** ** core/list_manager.py: the active entry *)

(** The second loop of [get_active_index]: index of the first entry whose
    "name" equals [active_name], counted from [i]; -1 if there is none. *)
Fixpoint name_index_from (i : Z) (active_name : value) (its : list item) : Z :=
  match its with
  | [] => (-1)%Z
  | d :: rest =>
      if py_eq (get d "name") active_name then i
      else name_index_from (i + 1)%Z active_name rest
  end.

(** [get_active_index]: the first loop is the scan for a truthy "active"
    flag, the second one looks the value of the active field up by name. *)
Definition get_active_index (m : ConfigListManager) (c : Config) : Z :=
  let its := items m c in
  let by_flag := current_index its in
  if (0 <=? by_flag)%Z then by_flag
  else
    match scalars c !! active_field m with
    | Some active_name => name_index_from 0 active_name its
    | None => (-1)%Z
    end.

Definition get_active (m : ConfigListManager) (c : Config) : option item :=
  let index := get_active_index m c in
  if (0 <=? index)%Z then items m c !! Z.to_nat index else None.

(** [active.get(field) if active else None]: the empty dict is falsy. *)
Definition get_active_value (m : ConfigListManager) (field : string) (c : Config)
  : value :=
  match get_active m c with
  | Some active => if bool_decide (active = ∅) then VNone else get active field
  | None => VNone
  end.

(** ** api/gemini.py, api/openai_compat.py: the value of the active key *)

Definition get_active_key_value (p : provider) (c : Config) : value :=
  match get_active_key p c with
  | Some key_data => if bool_decide (key_data = ∅) then VNone else get key_data "key"
  | None => VNone
  end.

(** [GeminiProvider._configure_initial] *)
Definition _configure_initial (c : Config) : list event :=
  let key := get_active_key_value gemini c in
  if truthy key && negb (py_eq key (VStr "YOUR_API_KEY_HERE"))
  then [Reconfigure key] else [].

(** ** core/config.py *)

(** [ConfigManager.switch_to_next_api_key] and [switch_to_next_openai_key]
    differ in the name of the list only. *)
Definition switch_to_next_in (key : string) (c : Config)
  : option value * Config * list event :=
  let api_keys := get_list c key in
  if (length api_keys <? 2)%nat then (None, c, [])
  else
    let current_index := current_index api_keys in
    let api_keys1 :=
      if (0 <=? current_index)%Z
      then set_field (Z.to_nat current_index) "active" (VBool false) api_keys
      else api_keys in
    let next_index := Z.to_nat ((current_index + 1) `mod` Z.of_nat (length api_keys)) in
    let api_keys2 := set_field next_index "active" (VBool true) api_keys1 in
    (Some (default (VStr (key_label next_index))
             (default ∅ (api_keys2 !! next_index) !! "name")),
     set_list c key api_keys2, [Save]).

Definition switch_to_next_api_key (c : Config) : option value * Config * list event :=
  switch_to_next_in "api_keys" c.

Definition switch_to_next_openai_key (c : Config)
  : option value * Config * list event :=
  switch_to_next_in "openai_api_keys" c.

(** The dictionary read from the settings file: as [Config], except that
    the "hotkeys" entry may be missing. *)
Record stored := Stored {
  stored_lists : gmap string (list item);
  stored_scalars : gmap string value;
  stored_hotkeys : option (list hotkey)
}.

Definition to_stored (c : Config) : stored :=
  Stored (lists c) (scalars c) (Some (hotkeys c)).

(** The two tests made on each key: [(changed, key_data)]. *)
Definition migrate_key (key_data : item) : bool * item :=
  let '(changed1, k1) :=
    match key_data !! "name" with
    | None => (true, <["name" := VStr ""]> key_data)
    | Some _ => (false, key_data)
    end in
  let '(changed2, k2) :=
    match k1 !! "usage_timestamps" with
    | None => (true, <["usage_timestamps" := VTimes []]> k1)
    | Some _ => (false, k1)
    end in
  (changed1 || changed2, k2).

(** [if key in self.config: for key_data in self.config[key]: ...] *)
Definition migrate_keys (key : string) (ls : gmap string (list item))
  : bool * gmap string (list item) :=
  match ls !! key with
  | Some l =>
      let r := migrate_key <$> l in
      (existsb fst r, <[key := snd <$> r]> ls)
  | None => (false, ls)
  end.

(** [_migrate_config]: the entries of [DEFAULT_CONFIG] that the file lacks
    are added, then the keys of the two key lists are completed. *)
Definition _migrate_config (DEFAULT_CONFIG : Config) (s : stored) : bool * Config :=
  let added :=
    negb (bool_decide (dom (lists DEFAULT_CONFIG) ⊆ dom (stored_lists s)))
    || negb (bool_decide (dom (scalars DEFAULT_CONFIG) ⊆ dom (stored_scalars s)))
    || negb (bool_decide (is_Some (stored_hotkeys s))) in
  let lists1 := stored_lists s ∪ lists DEFAULT_CONFIG in
  let scalars1 := stored_scalars s ∪ scalars DEFAULT_CONFIG in
  let hotkeys1 := default (hotkeys DEFAULT_CONFIG) (stored_hotkeys s) in
  let '(changed2, lists2) := migrate_keys "api_keys" lists1 in
  let '(changed3, lists3) := migrate_keys "openai_api_keys" lists2 in
  (added || changed2 || changed3, MkConfig lists3 scalars1 hotkeys1).

(** ** ui/main_window.py: the handlers of the key lists

    [None] stands for an exception ([self.config[key]] on a missing list, a
    name that is not a string handed to [str.replace]). *)

Definition ui_list_key (provider : string) : string :=
  if String.eqb provider "gemini" then "api_keys" else "openai_api_keys".

Definition new_key_entry : item :=
  <["key" := VStr ""]>
    (<["name" := VStr "New Key"]>
       (<["usage_timestamps" := VTimes []]> (<["active" := VBool false]> ∅))).

Definition _add_key (provider : string) (c : Config) : option (Config * list event) :=
  let key := ui_list_key provider in
  match lists c !! key with
  | None => None
  | Some l =>
      let l1 := (l ++ [new_key_entry])%list in
      let l2 := if (length l1 =? 1)%nat then set_field 0 "active" (VBool true) l1
                else l1 in
      Some (set_list c key l2, [Save; Refresh])
  end.

(** [accepted] is the user's answer to the confirmation dialog, which is
    shown when the key has a value or a name. *)
Definition _delete_key (provider : string) (index : Z) (accepted : bool) (c : Config)
  : option (Config * list event) :=
  let key := ui_list_key provider in
  match lists c !! key with
  | None => None
  | Some l =>
      if in_range index l then
        let i := Z.to_nat index in
        let key_data := default ∅ (l !! i) in
        let key_value := default (VStr "") (key_data !! "key") in
        let key_name := default (VStr "") (key_data !! "name") in
        let remove :=
          let was_active := truthy (default (VBool false) (key_data !! "active")) in
          let l1 := base.delete i l in
          let l2 := if was_active && (0 <? length l1)%nat
                    then set_field 0 "active" (VBool true) l1
                    else l1 in
          Some (set_list c key l2, [Save; Refresh]) in
        if truthy key_value || truthy key_name then
          if truthy key_name && negb (String.eqb (type_name key_name) "str") then None
          else if accepted then remove else Some (c, [])
        else remove
      else Some (c, [])
  end.

Definition _activate_key (provider : string) (index : Z) (c : Config)
  : option (Config * list event) :=
  let key := ui_list_key provider in
  match lists c !! key with
  | None => None
  | Some l =>
      let l' := imap (fun i k => <["active" := VBool (Z.of_nat i =? index)%Z]> k) l in
      let c' := set_list c key l' in
      Some (c', Save :: (if String.eqb provider "gemini" then _configure_initial c'
                         else []))
  end.

Definition _update_key (provider : string) (index : Z) (text : string) (c : Config)
  : option (Config * list event) :=
  let key := ui_list_key provider in
  match lists c !! key with
  | None => None
  | Some l =>
      if in_range index l
      then Some (set_list c key (set_field (Z.to_nat index) "key" (VStr text) l), [Save])
      else Some (c, [])
  end.

(** ** testing/tester.py *)

(** [APITester._update_timestamp]; [inl] as in [_update_key_timestamp]. *)
Definition _update_timestamp (now : Q) (key_data : item) : string + item :=
  match default (VTimes []) (key_data !! "usage_timestamps") with
  | VTimes l =>
      inr (<["usage_timestamps" := VTimes (List.filter (younger now) (l ++ [now])%list)]>
             key_data)
  | v => inl ("'" ++ type_name v ++ "' object has no attribute 'append'")
  end.

(** ** app.py: the translation of errors of the welcome message *)

Definition welcome_translate (msg : string) : final_msg :=
  let error_details := lower msg in
  if contains "429" error_details
     && (contains "quota" error_details || contains "exhausted" error_details)
  then QuotaExceeded
  else if contains "503" error_details || contains "overloaded" error_details
  then ServiceUnavailable
  else if contains "timeout" error_details || contains "deadline" error_details
          || contains "504" error_details
  then Timeout
  else if contains "connection" error_details
          || contains "stream removed" error_details
          || contains "failed to connect" error_details
  then ConnectionFailed
  else if contains "400" error_details && contains "api key" error_details
  then InvalidKey
  else if contains "404" error_details && contains "not found" error_details
  then ModelNotFound
  else Verbatim msg.

(** ** Further notions used to state the properties *)



(** The calls that [process] makes when its first attempt succeeds. *)
Definition is_save (e : event) : bool :=
  match e with Save => true | _ => false end.

(** No entry carries an "active" field: a list of models. *)
Definition flagless (l : list item) : Prop :=
  Forall (fun d => d !! "active" = None) l.

(** The "usage_timestamps" field, where present, holds a list. *)
Definition usage_typed (d : item) : bool :=
  match d !! "usage_timestamps" with
  | None | Some (VTimes _) => true
  | Some _ => false
  end.

(** The user does not cancel during the attempt. *)
Definition uncancelled (sc : attempt_script) : Prop :=
  Forall (fun b => b = false) (polls sc).

(** A key that the retry loop turns down before any request is made:
    the record that the logger gets. *)
Definition turned_down (key_data : option item) : option log_record :=
  match key_data with
  | None => Some LKeyNotSet
  | Some d =>
      match d !! "key" with
      | None | Some VNone => Some LKeyNotSet
      | Some (VStr s) =>
          if String.eqb s "" then Some LKeyNotSet
          else if contains "YOUR_KEY" s then Some LKeyNotConfigured
          else None
      | Some _ => None
      end
  end.

(** ** More sample data *)

Definition model_manager : ConfigListManager :=
  MkManager "gemini_models" "active_model" (<["name" := VStr "new-model"]> ∅).

Definition model_entry (nm : string) : item := <["name" := VStr nm]> ∅.

Definition models_config : Config :=
  MkConfig
    (<["gemini_models" := [model_entry "gemini-2.0-flash"; model_entry "gemini-1.5-pro";
                           model_entry "gemini-1.5-flash"]]>
       (<["api_keys" := [sample_key "Main Key" true]]> ∅))
    (<["active_model" := VStr "gemini-2.0-flash"]> (<["provider" := VStr "gemini"]> ∅))
    [].

(** A settings file written by an old version: no names, no usage
    timestamps, no OpenAI entries. *)
Definition old_file : stored :=
  Stored (<["api_keys" := [<["key" := VStr "sk-old"]> (<["active" := VBool true]> ∅)]]> ∅)
    (<["provider" := VStr "gemini"]> ∅) None.

(** A quota error on the first call, a result on the second. *)
Definition quota_then_ok (i : nat) : attempt_script :=
  match i with
  | 1 => Script [false] (Raised "429 quota exceeded")
  | _ => Script [false; false] (Returned "Hello world")
  end.

(** The "name" of an entry, where present, is a string. *)
Definition name_is_text (d : item) : bool :=
  match d !! "name" with
  | None | Some (VStr _) => true
  | Some _ => false
  end.

(** Both tests of [migrate_key] pass. *)
Definition complete (d : item) : Prop :=
  is_Some (d !! "name") /\ is_Some (d !! "usage_timestamps").

(** Default entries in the manner of [DEFAULT_CONFIG]. *)
Definition sample_defaults : Config :=
  MkConfig
    (<["api_keys" :=
         [<["key" := VStr "YOUR_API_KEY_HERE"]> (sample_key "Main Key" true)]]>
       (<["openai_api_keys" := [<["key" := VStr ""]> (sample_key "Main Key" true)]]>
          (<["gemini_models" := [model_entry "gemini-2.0-flash"]]> ∅)))
    (<["provider" := VStr "gemini"]>
       (<["active_model" := VStr "gemini-2.0-flash"]>
          (<["auto_switch_api_keys" := VBool true]> ∅)))
    [Hotkey "F1 Text Correction" "Ctrl+F1" "#FFFFFF" false None None false;
     Hotkey "F2 Translation" "Ctrl+F2" "#FBB6CE" false None None false].

(** A manager of the Gemini key list with the entry that the settings
    window appends. *)
Definition ui_key_manager : ConfigListManager :=
  MkManager "api_keys" "active" new_key_entry.

(** ** hotkeys/listener.py

    A string stands for the UTF-8 encoding of a Python [str]: "+", "_l"
    and "_r" are ASCII, so [split], [endswith] and the slice act on the
    encoding as they do on the [str].  [str.lower] and [str.strip] follow
    the Unicode tables of the interpreter; the listener is modelled for
    whatever these two functions are. *)

(** A pynput key: a character key ([KeyCode], whose [char] may be [None])
    or a special key ([Key], with its name). *)
Inductive key :=
| KeyCode (char : option string)
| Key (key_name : string).

(** The listener: [key_states], the pasting flag, and the actions put on
    the queue, oldest first (the prompt of the hotkey travels with its
    name). *)
Record HotkeyListener := MkListener {
  key_states : gmap string bool;
  is_pasting : bool;
  queue : list string
}.

(** The state that [__init__] sets up. *)
Definition new_listener : HotkeyListener :=
  MkListener
    (<["ctrl" := false]> (<["alt" := false]> (<["shift" := false]>
       (<["meta" := false]> ∅))))
    false [].

(** [s.endswith(suffix)] *)
Definition endswith (suffix s : string) : bool :=
  (String.length suffix <=? String.length s)%nat
  && String.eqb
       (substring (String.length s - String.length suffix) (String.length suffix) s)
       suffix.

(** [s.split('+')] *)
Fixpoint split_plus (s : string) : list string :=
  match s with
  | EmptyString => [EmptyString]
  | String c r =>
      if Ascii.eqb c "+"%char then EmptyString :: split_plus r
      else match split_plus r with
           | p :: ps => String c p :: ps
           | [] => [String c EmptyString]
           end
  end.

(** [{mod for mod, pressed in self.key_states.items() if pressed}] *)
Definition pressed_modifiers (st : HotkeyListener) : gset string :=
  dom (filter (fun kv : string * bool => kv.2 = true) (key_states st)).

Definition set_pasting (is_pasting : bool) (st : HotkeyListener) : HotkeyListener :=
  MkListener (key_states st) is_pasting (queue st).

(** What the keyboard hook delivers: presses and releases. *)
Inductive key_event :=
| Press (k : key)
| Release (k : key).

Section Listener.
(** [str.lower] and [str.strip]. *)
Variables str_lower str_strip : string -> string.

Definition _get_key_name (k : key) : option string :=
  match k with
  | KeyCode (Some char) => if String.eqb char "" then None else Some (str_lower char)
  | KeyCode None => None
  | Key key_name =>
      let name := str_lower key_name in
      let name := if endswith "_l" name || endswith "_r" name
                  then substring 0 (String.length name - 2) name else name in
      let name := if String.eqb name "alt_gr" then "alt" else name in
      let name := if String.eqb name "cmd" || String.eqb name "win" then "meta"
                  else name in
      Some name
  end.

(** [parts], [main_key] and [required_modifiers] of a hotkey. *)
Definition parts (h : hotkey) : list string :=
  str_strip <$> split_plus (str_lower (combination h)).

Definition main_key (h : hotkey) : string := List.last (parts h) "".

Definition required_modifiers (h : hotkey) : gset string :=
  list_to_set (removelast (parts h)).

(** The test of the loop over the hotkeys. *)
Definition activates (key_name : string) (pressed : gset string) (h : hotkey) : bool :=
  String.eqb key_name (main_key h) && bool_decide (pressed = required_modifiers h).

Definition _on_press (c : Config) (k : key) (st : HotkeyListener) : HotkeyListener :=
  if is_pasting st then st
  else
    match _get_key_name k with
    | None => st
    | Some key_name =>
        if String.eqb key_name "" then st
        else if bool_decide (is_Some (key_states st !! key_name))
        then MkListener (<[key_name := true]> (key_states st)) (is_pasting st) (queue st)
        else
          match List.find (activates key_name (pressed_modifiers st)) (hotkeys c) with
          | Some h =>
              MkListener (key_states st) (is_pasting st) (queue st ++ [hk_name h])%list
          | None => st
          end
    end.

Definition _on_release (k : key) (st : HotkeyListener) : HotkeyListener :=
  if is_pasting st then st
  else
    match _get_key_name k with
    | None => st
    | Some key_name =>
        if bool_decide (is_Some (key_states st !! key_name))
        then MkListener (<[key_name := false]> (key_states st)) (is_pasting st) (queue st)
        else st
    end.

Definition deliver_one (c : Config) (e : key_event) (st : HotkeyListener)
  : HotkeyListener :=
  match e with
  | Press k => _on_press c k st
  | Release k => _on_release k st
  end.

Definition deliver (c : Config) (evs : list key_event) (st : HotkeyListener)
  : HotkeyListener :=
  fold_left (fun st e => deliver_one c e st) evs st.

(** [ClipboardHandler.simulate_copy] and [simulate_paste], as the listener
    sees them: the flag is raised, the keystrokes arrive, the flag is
    lowered. *)
Definition simulate_keystrokes (c : Config) (evs : list key_event)
    (st : HotkeyListener) : HotkeyListener :=
  set_pasting false (deliver c evs (set_pasting true st)).
End Listener.

(** On strings of ASCII characters [str.lower] is [lower] and
    [str.strip] is [strip]: [str.isspace] holds of the tab to the
    carriage return, of the four separators and of the space. *)
Definition is_space (c : ascii) : bool :=
  let n := nat_of_ascii c in
  ((9 <=? n)%nat && (n <=? 13)%nat) || ((28 <=? n)%nat && (n <=? 32)%nat).

Fixpoint lstrip (s : string) : string :=
  match s with
  | EmptyString => EmptyString
  | String c r => if is_space c then lstrip r else s
  end.

Fixpoint rstrip (s : string) : string :=
  match s with
  | EmptyString => EmptyString
  | String c r =>
      match rstrip r with
      | EmptyString => if is_space c then EmptyString else String c EmptyString
      | r' => String c r'
      end
  end.

Definition strip (s : string) : string := rstrip (lstrip s).

(** The keys are tracked: [key_states] has its four entries. *)
Definition tracking (st : HotkeyListener) : Prop :=
  dom (key_states st) = {["ctrl"; "alt"; "shift"; "meta"]}.

(** A configuration with a hotkey on Ctrl+C. *)
Definition copy_bound : Config :=
  MkConfig ∅ ∅ [Hotkey "Copy Action" "Ctrl+C" "#FFFFFF" false None None false;
                Hotkey "F1 Text Correction" "Ctrl + F1" "#FFFFFF" false None None false].

(** ** Further sample data and notions for the claims *)



(** * Properties *)

(** ** Basic facts about the building blocks *)

Lemma in_range_spec (index : Z) (l : list item) :
  in_range index l = true <-> (0 <= index < Z.of_nat (length l))%Z.
Proof. unfold in_range. rewrite andb_true_iff, Z.leb_le, Z.ltb_lt. tauto. Qed.

Lemma in_range_out (index : Z) (l : list item) :
  (index < 0 \/ Z.of_nat (length l) <= index)%Z -> in_range index l = false.
Proof.
  intros H. destruct (in_range index l) eqn:E; [|done].
  apply in_range_spec in E. lia.
Qed.

Lemma trace_emit evs tp : trace (emit evs tp) = (trace tp ++ evs)%list.
Proof. done. Qed.

Lemma trace_fire reg e tp :
  trace (fire reg e tp) = (trace tp ++ if reg tp then [e] else [])%list.
Proof. unfold fire. destruct (reg tp); simpl; [done|by rewrite app_nil_r]. Qed.

(** ** The list manager *)

Section ListManager.
Variable m : ConfigListManager.

(** C10. An index below 0 or at or beyond the length of the list makes
    [delete], [set_active] and [update_field] return [False]; the
    configuration is left as it was and neither the save nor the refresh
    callback is called. *)
Theorem out_of_range_index_is_rejected (c : Config) (index : Z)
    (field : string) (v : value) :
  (index < 0 \/ Z.of_nat (length (items m c)) <= index)%Z ->
  delete m index c = (false, c, []) /\
  set_active m index c = (false, c, []) /\
  update_field m index field v c = (false, c, []).
Proof.
  intros H. apply in_range_out in H.
  unfold delete, set_active, update_field. rewrite H. done.
Qed.

Lemma add_events it c : (add m it c).2 = [Save; Refresh].
Proof. done. Qed.

Lemma delete_in_range index c :
  in_range index (items m c) = true ->
  (delete m index c).1.1 = true /\ (delete m index c).2 = [Save; Refresh].
Proof. intros H. unfold delete. rewrite H. done. Qed.

Lemma set_active_in_range index c :
  in_range index (items m c) = true ->
  (set_active m index c).1.1 = true /\ (set_active m index c).2 = [Save; Refresh].
Proof. intros H. unfold set_active. rewrite H. done. Qed.

Lemma update_field_in_range index field v c :
  in_range index (items m c) = true ->
  (update_field m index field v c).1.1 = true /\
  (update_field m index field v c).2 = [Save].
Proof. intros H. unfold update_field. rewrite H. done. Qed.
End ListManager.

(** ** The retry loop: how it can end *)

Lemma wait_worker_config e ps tp :
  config (wait_worker e ps tp).2 = config tp.
Proof.
  revert tp. induction ps as [|press rest IH]; intros tp; simpl; [done|].
  assert (Hc : config (if press then cancel_current tp else tp) = config tp).
  { destruct press; [|done]. unfold cancel_current. by destruct (current_task_event tp). }
  destruct (is_set e _); simpl; [done|]. by rewrite IH.
Qed.

Lemma attempt_body_return p mo e sc tp s tp' :
  attempt_body p mo e sc tp = (Return s, tp') -> s = "".
Proof.
  unfold attempt_body. intros H.
  repeat (case_match; simplify_eq; try done).
Qed.

Lemma retry_loop_return p mo e env n a tp s tp' :
  retry_loop p mo e env n a tp = (Return s, tp') -> s = "".
Proof.
  revert a tp. induction n as [|n IH]; intros a tp; simpl; [done|].
  destruct (attempt_body p mo e (env (S a)) tp) as [f tp1] eqn:E.
  destruct f; intros H; simplify_eq; eauto using attempt_body_return.
Qed.

Lemma retry_loop_never_continues p mo e env n a tp tp' :
  retry_loop p mo e env n a tp <> (Continue, tp').
Proof.
  revert a tp. induction n as [|n IH]; intros a tp; simpl; [done|].
  destruct (attempt_body p mo e (env (S a)) tp) as [f tp1] eqn:E.
  destruct f; first [done | apply IH].
Qed.

Lemma process_try_success p mo e env now tp r tp' :
  process_try p mo e env now tp = (r, tp') -> r <> "" ->
  exists pre, trace tp' = (pre ++ [Save])%list.
Proof.
  unfold process_try, on_exception. intros H Hr.
  repeat (case_match; simplify_eq; try done).
  - exfalso. apply Hr. eauto using retry_loop_return.
  - eexists. apply trace_emit.
Qed.

(** ** Active flags *)

Lemma is_active_insert (d : item) (b : bool) :
  is_active (<["active" := VBool b]> d) = b.
Proof. unfold is_active, get. by rewrite lookup_insert_eq. Qed.

Lemma flags_length (l : list item) : length (flags l) = length l.
Proof. apply length_fmap. Qed.

Lemma flags_set_field (j : nat) (b : bool) (l : list item) :
  flags (set_field j "active" (VBool b) l) = <[j := b]> (flags l).
Proof.
  revert j. induction l as [|x l IH]; intros [|j]; simpl; try done.
  - by rewrite is_active_insert.
  - f_equal. apply IH.
Qed.

Lemma set_field_length (j : nat) (f : string) (v : value) (l : list item) :
  length (set_field j f v l) = length l.
Proof. apply length_alter. Qed.

Lemma other_fields_set_field (j : nat) (b : bool) (l : list item) :
  other_fields <$> set_field j "active" (VBool b) l = other_fields <$> l.
Proof.
  revert j. induction l as [|x l IH]; intros [|j]; simpl; try done.
  - f_equal. unfold other_fields. apply delete_insert_eq.
  - f_equal. apply IH.
Qed.

Lemma onehot_length (n i : nat) : length (onehot n i) = n.
Proof. unfold onehot. by rewrite length_fmap, length_seq. Qed.

Lemma onehot_lookup (n i j : nat) :
  j < n -> onehot n i !! j = Some (Nat.eqb j i).
Proof.
  intros H. unfold onehot. rewrite list_lookup_fmap, lookup_seq_lt by done. done.
Qed.

Lemma onehot_0 (n : nat) : onehot (S n) 0 = true :: replicate n false.
Proof.
  apply list_eq. intros [|j]; [done|]. simpl.
  destruct (decide (j < n)) as [H|H].
  - unfold onehot. simpl. rewrite list_lookup_fmap, lookup_seq_lt by done.
    simpl. symmetry. by apply lookup_replicate_2.
  - rewrite !lookup_ge_None_2; [done| |].
    + rewrite length_replicate. lia.
    + unfold onehot. simpl. rewrite length_fmap, length_seq. lia.
Qed.

Lemma onehot_S (n i : nat) : onehot (S n) (S i) = false :: onehot n i.
Proof.
  unfold onehot. simpl. f_equal.
  rewrite <- fmap_S_seq, <- list_fmap_compose. done.
Qed.

Lemma current_index_from_onehot (o : Z) (l : list item) (i : nat) :
  i < length l -> flags l = onehot (length l) i ->
  current_index_from o l = (o + Z.of_nat i)%Z.
Proof.
  revert o i. induction l as [|x l IH]; intros o i Hi Hf; simpl in *; [lia|].
  destruct i as [|i].
  - rewrite onehot_0 in Hf. injection Hf as -> _. lia.
  - rewrite onehot_S in Hf. injection Hf as -> Hf.
    rewrite (IH (o + 1)%Z i); [lia|lia|done].
Qed.

Lemma current_index_from_none (o : Z) (l : list item) :
  flags l = replicate (length l) false -> current_index_from o l = (-1)%Z.
Proof.
  revert o. induction l as [|x l IH]; intros o Hf; simpl in *; [done|].
  injection Hf as -> Hf. by apply IH.
Qed.

Lemma onehot_clear (n i : nat) : <[i := false]> (onehot n i) = replicate n false.
Proof.
  apply list_eq. intros j.
  destruct (decide (j < n)) as [H|H].
  - rewrite lookup_replicate_2 by done.
    destruct (decide (i = j)) as [->|Hne].
    + by rewrite list_lookup_insert_eq by (by rewrite onehot_length).
    + rewrite list_lookup_insert_ne, onehot_lookup by done.
      f_equal. apply Nat.eqb_neq. done.
  - rewrite !lookup_ge_None_2; [done| |].
    + rewrite length_replicate. lia.
    + rewrite length_insert, onehot_length. lia.
Qed.

Lemma replicate_set (n j : nat) :
  j < n -> <[j := true]> (replicate n false) = onehot n j.
Proof.
  intros Hj. apply list_eq. intros k.
  destruct (decide (k < n)) as [H|H].
  - rewrite onehot_lookup by done.
    destruct (decide (j = k)) as [->|Hne].
    + rewrite list_lookup_insert_eq by (by rewrite length_replicate).
      by rewrite Nat.eqb_refl.
    + rewrite list_lookup_insert_ne, lookup_replicate_2 by done.
      f_equal. symmetry. apply Nat.eqb_neq. done.
  - rewrite !lookup_ge_None_2; [done| |].
    + rewrite onehot_length. lia.
    + rewrite length_insert, length_replicate. lia.
Qed.

(** One rotation moves the single active flag to the next position. *)
Lemma flags_switch_keys (l : list item) (i : nat) :
  i < length l -> flags l = onehot (length l) i ->
  flags (switch_keys l) = onehot (length l) (S i `mod` length l) /\
  next_index l = S i `mod` length l.
Proof.
  intros Hi Hf. unfold switch_keys, next_index, current_index.
  rewrite (current_index_from_onehot 0 l i) by done.
  replace (0 + Z.of_nat i + 1)%Z with (Z.of_nat (S i)) by lia.
  rewrite <- Nat2Z.inj_mod, Nat2Z.id.
  replace (0 <=? 0 + Z.of_nat i)%Z with true by (symmetry; apply Z.leb_le; lia).
  replace (Z.to_nat (0 + Z.of_nat i)) with i by lia.
  split; [|done].
  rewrite !flags_set_field, Hf, onehot_clear.
  apply replicate_set. apply Nat.mod_upper_bound. lia.
Qed.

Lemma other_fields_switch_keys (l : list item) :
  other_fields <$> switch_keys l = other_fields <$> l.
Proof.
  unfold switch_keys. rewrite other_fields_set_field.
  destruct (0 <=? current_index l)%Z; [|done]. apply other_fields_set_field.
Qed.

Lemma switch_keys_length (l : list item) : length (switch_keys l) = length l.
Proof.
  unfold switch_keys. rewrite set_field_length.
  destruct (0 <=? current_index l)%Z; [|done]. apply set_field_length.
Qed.

(** ** Counting active entries *)


Lemma count_active_cons (x : item) (l : list item) :
  count_active (x :: l) = bit (is_active x) + count_active l.
Proof. unfold count_active. simpl. by destruct (is_active x). Qed.

Lemma count_active_app (l k : list item) :
  count_active (l ++ k) = count_active l + count_active k.
Proof. unfold count_active. by rewrite List.filter_app, length_app. Qed.

Lemma count_active_delete (i : nat) (l : list item) (d : item) :
  l !! i = Some d ->
  count_active l = bit (is_active d) + count_active (base.delete i l).
Proof.
  revert i. induction l as [|x l IH]; intros [|i] H; simplify_eq/=.
  - apply count_active_cons.
  - rewrite !count_active_cons, (IH i H). lia.
Qed.

Lemma count_active_set_field (j : nat) (b : bool) (l : list item) (d : item) :
  l !! j = Some d ->
  count_active (set_field j "active" (VBool b) l) + bit (is_active d)
  = count_active l + bit b.
Proof.
  revert j. induction l as [|x l IH]; intros [|j] H; simplify_eq/=.
  - rewrite !count_active_cons, is_active_insert. lia.
  - rewrite !count_active_cons. specialize (IH j H).
    lia.
Qed.

Lemma count_active_flags (l : list item) :
  count_active l = length (List.filter id (flags l)).
Proof.
  induction l as [|x l IH]; [done|].
  rewrite count_active_cons, IH. simpl. unfold id at 2. by destruct (is_active x).
Qed.

Lemma count_true_replicate (n : nat) :
  length (List.filter id (replicate n false)) = 0.
Proof. induction n; done. Qed.

Lemma count_true_onehot (n i : nat) :
  i < n -> length (List.filter id (onehot n i)) = 1.
Proof.
  revert i. induction n as [|n IH]; intros i Hi; [lia|].
  destruct i as [|i].
  - rewrite onehot_0. simpl. by rewrite count_true_replicate.
  - rewrite onehot_S. simpl. apply IH. lia.
Qed.

Lemma count_active_zero (l : list item) :
  count_active l = 0 -> flags l = replicate (length l) false.
Proof.
  induction l as [|x l IH]; [done|]. rewrite count_active_cons. simpl.
  destruct (is_active x); simpl; [lia|]. intros H. f_equal. by apply IH.
Qed.

(** Exactly one active entry: the flags are one-hot. *)
Lemma count_active_one (l : list item) :
  count_active l = 1 <-> exists i, i < length l /\ flags l = onehot (length l) i.
Proof.
  split.
  - induction l as [|x l IH]; [done|]. rewrite count_active_cons. simpl.
    destruct (is_active x) eqn:E; simpl; intros H.
    + exists 0. split; [lia|]. rewrite onehot_0. f_equal. apply count_active_zero. lia.
    + destruct (IH H) as (i & Hi & Hf). exists (S i). split; [lia|].
      rewrite onehot_S. by f_equal.
  - intros (i & Hi & Hf). rewrite count_active_flags, Hf.
    by apply count_true_onehot.
Qed.

Lemma flags_imap_activate (i : nat) (l : list item) :
  flags (imap (fun j d => <["active" := VBool (Nat.eqb j i)]> d) l)
  = onehot (length l) i.
Proof.
  apply list_eq. intros j. unfold flags.
  rewrite list_lookup_fmap, list_lookup_imap.
  destruct (l !! j) as [d|] eqn:E; simpl.
  - rewrite is_active_insert. symmetry. apply onehot_lookup.
    by apply lookup_lt_Some in E.
  - symmetry. apply lookup_ge_None_2. rewrite onehot_length.
    by apply lookup_ge_None_1 in E.
Qed.

Lemma first_active_lookup (l : list item) (i : nat) :
  i < length l -> flags l = onehot (length l) i ->
  first_active l = l !! i.
Proof.
  revert i. induction l as [|x l IH]; intros i Hi Hf; simpl in *; [lia|].
  destruct i as [|i].
  - rewrite onehot_0 in Hf. by injection Hf as -> _.
  - rewrite onehot_S in Hf. injection Hf as -> Hf. apply IH; [lia|done].
Qed.

Lemma get_list_set_list (c : Config) (key : string) (l : list item) :
  get_list (set_list c key l) key = l.
Proof. unfold get_list, set_list. simpl. by rewrite lookup_insert_eq. Qed.

Lemma get_list_rotate (p : provider) (c : Config) :
  get_list (rotate p c) (api_keys_key p) =
  if (length (get_list c (api_keys_key p)) <? 2)%nat
  then get_list c (api_keys_key p)
  else switch_keys (get_list c (api_keys_key p)).
Proof.
  unfold rotate, switch_to_next_key.
  destruct (length _ <? 2)%nat; [done|]. simpl. apply get_list_set_list.
Qed.

(** ** Rotation *)

Section Rotation.
Variable p : provider.

Lemma rotate_iter (c : Config) (i k : nat) :
  2 <= length (get_list c (api_keys_key p)) -> i < length (get_list c (api_keys_key p)) ->
  flags (get_list c (api_keys_key p)) = onehot (length (get_list c (api_keys_key p))) i ->
  let c' := Nat.iter k (rotate p) c in
  length (get_list c' (api_keys_key p)) = length (get_list c (api_keys_key p)) /\
  flags (get_list c' (api_keys_key p))
  = onehot (length (get_list c (api_keys_key p)))
      ((i + k) `mod` length (get_list c (api_keys_key p))) /\
  other_fields <$> get_list c' (api_keys_key p) = other_fields <$> get_list c (api_keys_key p).
Proof.
  intros Hn Hi Hf. induction k as [|k (IHl & IHf & IHo)]; simpl.
  - rewrite Nat.add_0_r, Nat.mod_small by done. done.
  - rewrite get_list_rotate.
    replace (length (get_list (Nat.iter k (rotate p) c) (api_keys_key p)) <? 2)%nat with false
      by (symmetry; apply Nat.ltb_ge; lia).
    rewrite switch_keys_length, other_fields_switch_keys.
    split; [done|]. split; [|done].
    rewrite <- IHl in IHf.
    apply flags_switch_keys in IHf as [-> _].
    + rewrite IHl. f_equal.
      replace (S ((i + k) `mod` length (get_list c (api_keys_key p))))
        with ((i + k) `mod` length (get_list c (api_keys_key p)) + 1) by lia.
      rewrite Nat.Div0.add_mod_idemp_l. f_equal. lia.
    + rewrite IHl. apply Nat.mod_upper_bound. lia.
Qed.

(** C8. With at least two credentials of which exactly one is active,
    as many rotations as there are credentials bring the active flag
    back to the credential that had it, all other fields being
    untouched; with fewer than two credentials one call returns [None],
    changes nothing and calls nothing. *)
Theorem rotation_is_round_robin (c c0 : Config) :
  2 <= length (get_list c (api_keys_key p)) ->
  count_active (get_list c (api_keys_key p)) = 1 ->
  length (get_list c0 (api_keys_key p)) < 2 ->
  (let c' := Nat.iter (length (get_list c (api_keys_key p))) (rotate p) c in
   flags (get_list c' (api_keys_key p)) = flags (get_list c (api_keys_key p)) /\
   other_fields <$> get_list c' (api_keys_key p) = other_fields <$> get_list c (api_keys_key p) /\
   is_Some (get_active_key p c) /\
   other_fields <$> get_active_key p c' = other_fields <$> get_active_key p c) /\
  switch_to_next_key p c0 = (None, c0, []).
Proof.
  intros Hn H1 H0. split.
  - apply count_active_one in H1 as (i & Hi & Hf).
    destruct (rotate_iter c i (length (get_list c (api_keys_key p))) Hn Hi Hf) as (Hl & Hf' & Ho).
    replace ((i + length (get_list c (api_keys_key p)))
               `mod` length (get_list c (api_keys_key p))) with i in Hf'.
    2:{ replace (i + length (get_list c (api_keys_key p)))
          with (i + 1 * length (get_list c (api_keys_key p))) by lia.
        rewrite Nat.Div0.mod_add. symmetry. by apply Nat.mod_small. }
    cbv zeta. split; [congruence|]. split; [done|].
    unfold get_active_key.
    rewrite (first_active_lookup (get_list c (api_keys_key p)) i) by done.
    rewrite (first_active_lookup _ i) by (rewrite ?Hl; done).
    split; [by apply lookup_lt_is_Some_2|].
    by rewrite <- !list_lookup_fmap, Ho.
  - unfold switch_to_next_key.
    replace (length (get_list c0 (api_keys_key p)) <? 2)%nat with true; [done|].
    symmetry. by apply Nat.ltb_lt.
Qed.
End Rotation.

Lemma rotation_is_round_robin_witness :
  flags (get_list (Nat.iter 3 (rotate gemini) three_keys) "api_keys")
  = [false; true; false] /\
  switch_to_next_key gemini one_key = (None, one_key, []).
Proof.
  assert (H2 : 2 <= length (get_list three_keys (api_keys_key gemini)))
    by (vm_compute; lia).
  assert (H1 : count_active (get_list three_keys (api_keys_key gemini)) = 1)
    by (vm_compute; reflexivity).
  assert (H0 : length (get_list one_key (api_keys_key gemini)) < 2)
    by (vm_compute; lia).
  destruct (rotation_is_round_robin gemini three_keys one_key H2 H1 H0)
    as [(Hf & _) Hs].
  split; [exact Hf | exact Hs].
Defined.

(** ** The active-flag invariant *)

Section ActiveInvariant.
Variable m : ConfigListManager.

Lemma items_set_list (c : Config) (l : list item) :
  items m (set_list c (list_key m) l) = l.
Proof. apply get_list_set_list. Qed.

Lemma items_add (it : option item) (c : Config) :
  items m (add m it c).1.2 =
  (items m c ++
   [if (length (items m c) =? 0)%nat
       && bool_decide (is_Some (item_or_default m it !! "active"))
    then <["active" := VBool true]> (item_or_default m it)
    else item_or_default m it])%list.
Proof.
  unfold add. cbn [fst snd]. rewrite items_set_list.
  assert (E : items m (match lists c !! list_key m with
                       | Some _ => c
                       | None => set_list c (list_key m) []
                       end) = items m c).
  { destruct (lists c !! list_key m) eqn:El; [done|].
    rewrite items_set_list. unfold items, get_list. by rewrite El. }
  by rewrite E.
Qed.

Lemma add_preserves (it : option item) (c : Config) :
  exactly_one_active (items m c) ->
  is_Some (item_or_default m it !! "active") ->
  (items m c <> [] -> is_active (item_or_default m it) = false) ->
  exactly_one_active (items m (add m it c).1.2) /\
  (items m c = [] -> flags (items m (add m it c).1.2) = [true]).
Proof.
  intros Hinv Hact Hoff. rewrite items_add.
  rewrite (bool_decide_eq_true_2 _ Hact), andb_true_r.
  destruct (items m c) as [|x l] eqn:E; simpl.
  - split; [|intros _; unfold flags; simpl; by rewrite is_active_insert].
    intros _. unfold count_active. simpl. by rewrite is_active_insert.
  - split; [|done]. intros _.
    change (x :: (l ++ [item_or_default m it])%list)
      with ((x :: l) ++ [item_or_default m it])%list.
    rewrite count_active_app, Hinv by done.
    unfold count_active. simpl. by rewrite Hoff.
Qed.

Lemma delete_preserves (index : Z) (c : Config) :
  exactly_one_active (items m c) ->
  exactly_one_active (items m (delete m index c).1.2) /\
  (forall d, in_range index (items m c) = true ->
             items m c !! Z.to_nat index = Some d -> is_active d = true ->
             head (flags (items m (delete m index c).1.2)) =
             if (1 <? length (items m c))%nat then Some true else None).
Proof.
  intros Hinv. unfold delete.
  destruct (in_range index (items m c)) eqn:Hr; simpl; [|done].
  apply in_range_spec in Hr.
  destruct (lookup_lt_is_Some_2 (items m c) (Z.to_nat index)) as [d Hd]; [lia|].
  rewrite items_set_list, Hd. simpl.
  pose proof (count_active_delete _ _ _ Hd) as Hc.
  assert (Hne : items m c <> []) by (intros E; rewrite E in Hd; done).
  rewrite (Hinv Hne) in Hc.
  assert (Hlen : length (base.delete (Z.to_nat index) (items m c))
                 = length (items m c) - 1).
  { rewrite length_delete; [done|by eexists]. }
  destruct (is_active d) eqn:Ea; simpl in *.
  - destruct (base.delete (Z.to_nat index) (items m c)) as [|x l] eqn:Ed; simpl.
    + split; [by intros ?|]. intros d' _ [= <-] _.
      simpl in Hlen. replace (1 <? length (items m c))%nat with false; [done|].
      symmetry. apply Nat.ltb_ge. lia.
    + split.
      * intros _.
        pose proof (count_active_set_field 0 true (x :: l) x eq_refl) as Hs.
        rewrite count_active_cons in Hc.
        rewrite count_active_cons in Hs. simpl in Hs.
        unfold set_field in Hs. simpl in Hs. lia.
      * intros d' _ [= <-] _. rewrite is_active_insert.
        simpl in Hlen. replace (1 <? length (items m c))%nat with true; [done|].
        symmetry. apply Nat.ltb_lt. lia.
  - split; [|intros d' _ [= <-] ?; congruence].
    intros _. lia.
Qed.

Lemma set_active_preserves (index : Z) (c : Config) :
  exactly_one_active (items m c) ->
  exactly_one_active (items m (set_active m index c).1.2).
Proof.
  intros Hinv. unfold set_active.
  destruct (in_range index (items m c)) eqn:Hr; simpl; [|done].
  apply in_range_spec in Hr.
  case_bool_decide.
  - rewrite items_set_list. intros _.
    apply count_active_one. exists (Z.to_nat index).
    rewrite length_imap. split; [lia|]. apply flags_imap_activate.
  - by destruct (_ && _).
Qed.
End ActiveInvariant.

Lemma rotate_preserves (p : provider) (c : Config) :
  exactly_one_active (get_list c (api_keys_key p)) ->
  exactly_one_active (get_list (rotate p c) (api_keys_key p)).
Proof.
  intros Hinv. rewrite get_list_rotate.
  destruct (length _ <? 2)%nat eqn:El; [done|].
  apply Nat.ltb_ge in El. intros _.
  assert (Hne : get_list c (api_keys_key p) <> [])
    by (intros E; rewrite E in El; simpl in El; lia).
  apply Hinv in Hne. apply count_active_one in Hne as (i & Hi & Hf).
  apply count_active_one. exists (S i `mod` length (get_list c (api_keys_key p))).
  rewrite switch_keys_length. split.
  - apply Nat.mod_upper_bound. lia.
  - by apply flags_switch_keys.
Qed.

(** C2 (as amended). For the list of credentials of a provider, "a
    non-empty list has exactly one active entry" is preserved by [add]
    when the item added carries an "active" field that is not set unless
    the list is empty, by [delete], by [set_active] and by rotation; the
    first item added becomes the active one, and deleting the active item
    activates the first of the remaining ones. *)
Theorem exactly_one_active_is_preserved (m : ConfigListManager) (p : provider)
    (c : Config) (it : option item) (index : Z) :
  list_key m = api_keys_key p ->
  exactly_one_active (items m c) ->
  is_Some (item_or_default m it !! "active") ->
  (items m c <> [] -> is_active (item_or_default m it) = false) ->
  exactly_one_active (items m (add m it c).1.2) /\
  (items m c = [] -> flags (items m (add m it c).1.2) = [true]) /\
  exactly_one_active (items m (delete m index c).1.2) /\
  (forall d, in_range index (items m c) = true ->
             items m c !! Z.to_nat index = Some d -> is_active d = true ->
             head (flags (items m (delete m index c).1.2)) =
             if (1 <? length (items m c))%nat then Some true else None) /\
  exactly_one_active (items m (set_active m index c).1.2) /\
  exactly_one_active (items m (rotate p c)).
Proof.
  intros Hk Hinv Hact Hoff.
  destruct (add_preserves m it c Hinv Hact Hoff) as [Ha1 Ha2].
  destruct (delete_preserves m index c Hinv) as [Hd1 Hd2].
  repeat split; try done.
  - by apply set_active_preserves.
  - unfold items in *. rewrite Hk in *. by apply rotate_preserves.
Qed.

Lemma exactly_one_active_is_preserved_witness :
  exactly_one_active (items key_manager (add key_manager None two_keys).1.2) /\
  exactly_one_active (items key_manager (delete key_manager 0 two_keys).1.2) /\
  exactly_one_active (items key_manager (set_active key_manager 1 two_keys).1.2) /\
  exactly_one_active (items key_manager (rotate gemini two_keys)).
Proof.
  assert (Hk : list_key key_manager = api_keys_key gemini) by reflexivity.
  assert (Hinv : exactly_one_active (items key_manager two_keys))
    by (intros _; vm_compute; reflexivity).
  assert (Hact : is_Some (item_or_default key_manager None !! "active"))
    by (vm_compute; eexists; reflexivity).
  assert (Hoff : items key_manager two_keys <> [] ->
                 is_active (item_or_default key_manager None) = false)
    by (intros _; vm_compute; reflexivity).
  pose proof (exactly_one_active_is_preserved key_manager gemini two_keys None 0
                Hk Hinv Hact Hoff) as (Ha & _ & Hd & _ & _ & Hr).
  pose proof (exactly_one_active_is_preserved key_manager gemini two_keys None 1
                Hk Hinv Hact Hoff) as (_ & _ & _ & _ & Hs & _).
  repeat split; assumption.
Defined.

(** C2, as stated, fails: adding an item whose active flag is already set
    to a list that has an active entry leaves two active entries. *)
Lemma adding_an_active_item_gives_two_active :
  exactly_one_active (items key_manager one_key) /\
  count_active
    (items key_manager (add key_manager (Some (sample_key "Extra" true)) one_key).1.2)
  = 2 /\
  ~ exactly_one_active
      (items key_manager (add key_manager (Some (sample_key "Extra" true)) one_key).1.2).
Proof.
  split; [intros _; vm_compute; reflexivity|].
  assert (H2 : count_active
    (items key_manager (add key_manager (Some (sample_key "Extra" true)) one_key).1.2)
    = 2) by (vm_compute; reflexivity).
  split; [exact H2|].
  remember (items key_manager
              (add key_manager (Some (sample_key "Extra" true)) one_key).1.2) as l eqn:El.
  clear El. intros H.
  assert (Hne : l <> []) by (intros ->; discriminate H2).
  specialize (H Hne). rewrite H2 in H. discriminate H.
Qed.

Lemma out_of_range_index_is_rejected_witness :
  delete key_manager 2 two_keys = (false, two_keys, []) /\
  set_active key_manager (-1) two_keys = (false, two_keys, []) /\
  update_field key_manager 7 "name" (VStr "Renamed") two_keys = (false, two_keys, []).
Proof.
  assert (H2 : (2 < 0 \/ Z.of_nat (length (items key_manager two_keys)) <= 2)%Z)
    by (right; vm_compute; discriminate).
  assert (H1 : (-1 < 0 \/ Z.of_nat (length (items key_manager two_keys)) <= -1)%Z)
    by (left; reflexivity).
  assert (H7 : (7 < 0 \/ Z.of_nat (length (items key_manager two_keys)) <= 7)%Z)
    by (right; vm_compute; discriminate).
  split; [|split].
  - exact (proj1 (out_of_range_index_is_rejected key_manager two_keys 2 "" VNone H2)).
  - exact (proj1 (proj2 (out_of_range_index_is_rejected key_manager two_keys (-1) "" VNone H1))).
  - exact (proj2 (proj2 (out_of_range_index_is_rejected key_manager two_keys 7 "name"
                           (VStr "Renamed") H7))).
Defined.

(** ** Callbacks of mutating calls *)

(** C7, as stated, fails: a rotation changes the configuration without
    calling the save or the refresh callback, and [update_field] calls save
    but not refresh. *)
Lemma rotation_and_update_field_skip_callbacks :
  ((switch_to_next_key gemini two_keys).1.2 <> two_keys /\
   (switch_to_next_key gemini two_keys).2 = [Reconfigure (VStr "sk-Spare")]) /\
  ((update_field key_manager 0 "name" (VStr "Renamed") two_keys).1.2 <> two_keys /\
   (update_field key_manager 0 "name" (VStr "Renamed") two_keys).2 = [Save]).
Proof.
  repeat split; try (vm_compute; reflexivity).
  - intros E. apply (f_equal (fun c => flags (get_list c "api_keys"))) in E.
    vm_compute in E. discriminate.
  - intros E.
    apply (f_equal (fun c => (fun d : item => d !! "name") <$> get_list c "api_keys")) in E.
    vm_compute in E. discriminate.
Qed.

Lemma process_success_saves env now action_name tp r tp' :
  process env now action_name tp = (r, tp') -> r <> "" ->
  exists pre, trace tp' = (pre ++ [Save])%list.
Proof.
  unfold process.
  destruct (process_begin tp) as [[e acquired] tp1].
  destruct acquired.
  - destruct (process_try _ _ _ _ _ _) as [r2 tp2] eqn:E.
    intros [= <- <-] Hr. unfold process_finally. simpl.
    eapply process_try_success; eauto.
  - unfold process_busy. intros [= <- <-] Hr. done.
Qed.

(** ** The generation lock and the cancellation token *)

(** C3. When the generation lock is held, [process] returns the empty
    string after logging "Busy." and calling the error callback (when one
    is registered), whatever the adapter would do: no generation attempt,
    no rotation, no error line, the configuration and the lock untouched. *)
Theorem busy_process_returns_at_once (env : nat -> attempt_script) (now : Q)
    (action_name : string) (tp : TextProcessor) :
  genai_lock tp = true ->
  (process env now action_name tp).1 = "" /\
  config (process env now action_name tp).2 = config tp /\
  genai_lock (process env now action_name tp).2 = true /\
  events_set (process env now action_name tp).2 = events_set tp /\
  trace (process env now action_name tp).2
  = (trace tp ++ Logger LBusy :: if on_error tp then [OnError] else [])%list.
Proof.
  intros Hl. unfold process, process_begin, new_event, with_task_event.
  simpl. rewrite Hl. unfold process_busy, fire. simpl.
  destruct (on_error tp); simpl; rewrite ?Hl, <- ?app_assoc; done.
Qed.

Lemma busy_process_returns_at_once_witness :
  (process always_quota 0 "F1 Text Correction"
     (with_lock true (idle_processor two_keys))).1 = "" /\
  trace (process always_quota 0 "F1 Text Correction"
           (with_lock true (idle_processor two_keys))).2
  = [Logger LBusy; OnError].
Proof.
  assert (Hl : genai_lock (with_lock true (idle_processor two_keys)) = true)
    by reflexivity.
  destruct (busy_process_returns_at_once always_quota 0 "F1 Text Correction"
              (with_lock true (idle_processor two_keys)) Hl)
    as (Hr & _ & _ & _ & Ht).
  split; [exact Hr | exact Ht].
Defined.

(** C5 fails on the code. While a call is in flight (it went through
    [process_begin], holds the lock and its event is the current one), a
    second [process] call is rejected as busy, but only after it has put
    its own event in [current_task_event] and then reset the slot to
    [None]: the call in flight still holds the lock and has lost its
    token, so [cancel_current] no longer reaches it. *)
Theorem busy_call_clears_the_current_token (env : nat -> attempt_script) (now : Q)
    (action_name : string) (tp : TextProcessor) :
  genai_lock tp = false ->
  let running := (process_begin tp).2 in
  let after := (process env now action_name running).2 in
  (process_begin tp).1.2 = true /\
  current_task_event running = Some (process_begin tp).1.1 /\
  genai_lock after = true /\
  current_task_event after = None /\
  cancel_current after = after.
Proof.
  intros Hl. unfold process, process_begin, new_event, with_task_event.
  simpl. rewrite Hl. simpl. unfold process_busy, cancel_current, fire.
  destruct (on_error tp); simpl; done.
Qed.

Lemma busy_call_clears_the_current_token_witness :
  current_task_event (process_begin (idle_processor two_keys)).2 = Some 0 /\
  current_task_event
    (process always_ok 0 "F1 Text Correction"
       (process_begin (idle_processor two_keys)).2).2 = None.
Proof.
  assert (Hl : genai_lock (idle_processor two_keys) = false) by reflexivity.
  destruct (busy_call_clears_the_current_token always_ok 0 "F1 Text Correction"
              (idle_processor two_keys) Hl) as (_ & Hs & _ & Hn & _).
  split; [exact Hs | exact Hn].
Defined.

(** ** Usage timestamps *)

Lemma younger_spec (now ts : Q) :
  younger now ts = true <-> (now - ts < 86400)%Q.
Proof.
  unfold younger. rewrite negb_true_iff, <- not_true_iff_false, Qle_bool_iff.
  split; [apply Qnot_le_lt | apply Qlt_not_le].
Qed.

Lemma is_active_insert_other (d : item) (f : string) (v : value) :
  f <> "active" -> is_active (<[f := v]> d) = is_active d.
Proof. intros H. unfold is_active, get. by rewrite lookup_insert_ne. Qed.

Lemma current_index_from_lower (o : Z) (l : list item) (d : item) :
  first_active l = Some d -> (o <= current_index_from o l)%Z.
Proof.
  revert o. induction l as [|x l IH]; intros o H; simpl in *; [done|].
  destruct (is_active x); [lia|]. specialize (IH (o + 1)%Z H). lia.
Qed.

(** Writing a field other than the flag into the entry found by the scan
    for the active key leaves that entry the active one. *)
Lemma first_active_set_field (o : Z) (l : list item) (d : item)
    (f : string) (v : value) :
  f <> "active" -> first_active l = Some d ->
  first_active (set_field (Z.to_nat (current_index_from o l - o)) f v l)
  = Some (<[f := v]> d).
Proof.
  intros Hf. revert o. induction l as [|x l IH]; intros o H; simpl in *; [done|].
  destruct (is_active x) eqn:E.
  - injection H as <-. replace (o - o)%Z with 0%Z by lia. simpl.
    by rewrite is_active_insert_other, E.
  - pose proof (current_index_from_lower (o + 1) l d H) as Hlow.
    replace (Z.to_nat (current_index_from (o + 1) l - o))
      with (S (Z.to_nat (current_index_from (o + 1) l - (o + 1)))) by lia.
    simpl. rewrite E. by apply IH.
Qed.

Lemma update_key_timestamp_active (p : provider) (now : Q) (c c' : Config)
    (key_data : item) :
  get_active_key p c = Some key_data ->
  _update_key_timestamp p now c = inr c' ->
  exists l,
    default (VTimes []) (key_data !! "usage_timestamps") = VTimes l /\
    get_active_key p c' =
      Some (<["usage_timestamps" := VTimes (List.filter (younger now) (l ++ [now]))]>
              key_data).
Proof.
  intros Hk. unfold _update_key_timestamp. rewrite Hk.
  destruct (default (VTimes []) (key_data !! "usage_timestamps")) as [| | | |l] eqn:E;
    try done.
  intros [= <-]. exists l. split; [done|].
  unfold get_active_key in *. rewrite get_list_set_list.
  unfold current_index.
  replace (current_index_from 0 (get_list c (api_keys_key p)))
    with (current_index_from 0 (get_list c (api_keys_key p)) - 0)%Z by lia.
  by apply first_active_set_field.
Qed.


Lemma update_key_timestamp_total (p : provider) (now : Q) (c : Config) :
  usage_ok p c -> exists c', _update_key_timestamp p now c = inr c'.
Proof.
  unfold usage_ok, _update_key_timestamp.
  destruct (get_active_key p c) as [key_data|]; [|by eexists].
  destruct (key_data !! "usage_timestamps") as [[]|]; simpl; try done; by eexists.
Qed.


(** ** One iteration of the retry loop *)

Lemma usable_key_checks (d : item) :
  usable_key d = true ->
  truthy (get d "key") = true /\
  your_key_in (default (VStr "") (d !! "key")) = inr false.
Proof.
  unfold usable_key, get. destruct (d !! "key") as [[| |s| |]|]; try done.
  simpl. rewrite andb_true_iff, !negb_true_iff. by intros [-> ->].
Qed.

(** With a usable active key the iteration gets as far as the worker. *)
Lemma attempt_body_dispatch p mo e sc tp key_data :
  get_active_key p (config tp) = Some key_data ->
  usable_key key_data = true ->
  attempt_body p mo e sc tp =
  let '(cancelled, tp2) := wait_worker e (polls sc) (emit [Generate p mo] tp) in
  if cancelled then (Return "", tp2)
  else
    match outcome sc with
    | NoResult => (Return "", tp2)
    | Returned s => (Break (Some s) None, tp2)
    | Raised msg =>
        if is_quota msg && auto_switch_api_keys (config tp2) then
          let '(new_key_name, c', evs) := switch_to_next_key p (config tp2) in
          let tp3 := emit (SwitchToNextKey :: evs) (with_config c' tp2) in
          match new_key_name with
          | Some n =>
              if truthy n
              then (Continue,
                    fire on_log (OnLog (Switched n))
                      (fire on_key_switch (OnKeySwitch n) tp3))
              else (Break None (Some msg), tp3)
          | None => (Break None (Some msg), tp3)
          end
        else (Break None (Some msg), tp2)
    end.
Proof.
  intros Hk Hu. apply usable_key_checks in Hu as [Ht Hy].
  unfold attempt_body. rewrite Hk, Ht, Hy. done.
Qed.


Lemma wait_worker_quiet e ps tp :
  (wait_worker e ps tp).1 = false ->
  trace (wait_worker e ps tp).2 = trace tp /\
  genai_lock (wait_worker e ps tp).2 = genai_lock tp /\
  on_log (wait_worker e ps tp).2 = on_log tp /\
  on_key_switch (wait_worker e ps tp).2 = on_key_switch tp /\
  on_error (wait_worker e ps tp).2 = on_error tp.
Proof.
  revert tp. induction ps as [|press rest IH]; intros tp; simpl; [done|].
  assert (Hc : forall t : TextProcessor,
             trace (cancel_current t) = trace t /\
             genai_lock (cancel_current t) = genai_lock t /\
             on_log (cancel_current t) = on_log t /\
             on_key_switch (cancel_current t) = on_key_switch t /\
             on_error (cancel_current t) = on_error t).
  { intros t. unfold cancel_current. by destruct (current_task_event t). }
  destruct (is_set e _) eqn:His; simpl; [done|].
  intros H. destruct (IH _ H) as (H1 & H2 & H3 & H4 & H5).
  destruct press; [|done].
  destruct (Hc tp) as (G1 & G2 & G3 & G4 & G5).
  by rewrite H1, H2, H3, H4, H5.
Qed.

(** ** Classification of failures in the retry loop *)

(** C6, as stated, fails: a message that contains "exhausted" but neither
    "429" nor "quota" is not taken for a quota error; with auto-switch on
    and a spare key the first such failure ends the loop without any
    rotation. *)
Lemma exhausted_alone_is_not_quota :
  contains "exhausted" (lower "Resource has been exhausted") = true /\
  is_quota "Resource has been exhausted" = false /\
  auto_switch_api_keys two_keys = true /\
  count_event is_generate
    (trace (process (always_raises "Resource has been exhausted") 0
              "F1 Text Correction" (idle_processor two_keys)).2) = 1 /\
  count_event is_rotation
    (trace (process (always_raises "Resource has been exhausted") 0
              "F1 Text Correction" (idle_processor two_keys)).2) = 0.
Proof. repeat split; vm_compute; reflexivity. Qed.

Section Iteration.
Variables (p : provider) (model_override : option string) (cancel_event : nat).
Variable env : nat -> attempt_script.

(** C6 (as amended). A failed attempt is taken for a quota error exactly
    when its lowercased message contains "429" or "quota". If it is, and
    auto-switch is enabled, the loop calls [switch_to_next_key] and goes
    on when that returns a label; a failure that is not, or any failure
    with auto-switch disabled, ends the loop at once with that error as
    [last_error], without rotation, and [process] then logs the error
    (translated) and returns the empty string. *)
Theorem quota_failures_rotate_others_break (remaining attempt : nat) (now : Q)
    (tp : TextProcessor) (key_data : item) (msg : string) :
  get_active_key p (config tp) = Some key_data ->
  usable_key key_data = true ->
  (wait_worker cancel_event (polls (env (S attempt)))
     (emit [Generate p model_override] tp)).1 = false ->
  outcome (env (S attempt)) = Raised msg ->
  let tp2 := (wait_worker cancel_event (polls (env (S attempt)))
                (emit [Generate p model_override] tp)).2 in
  (is_quota msg = true <->
     contains "429" (lower msg) = true \/ contains "quota" (lower msg) = true) /\
  (is_quota msg && auto_switch_api_keys (config tp) = false ->
     retry_loop p model_override cancel_event env (S remaining) attempt tp
     = (Break None (Some msg), tp2) /\
     trace tp2 = (trace tp ++ [Generate p model_override])%list) /\
  (is_quota msg && auto_switch_api_keys (config tp) = true ->
     let tp3 := emit (SwitchToNextKey :: (switch_to_next_key p (config tp)).2)
                  (with_config (switch_to_next_key p (config tp)).1.2 tp2) in
     retry_loop p model_override cancel_event env (S remaining) attempt tp
     = match (switch_to_next_key p (config tp)).1.1 with
       | Some n =>
           if truthy n
           then retry_loop p model_override cancel_event env remaining (S attempt)
                  (fire on_log (OnLog (Switched n))
                     (fire on_key_switch (OnKeySwitch n) tp3))
           else (Break None (Some msg), tp3)
       | None => (Break None (Some msg), tp3)
       end) /\
  (forall tp0 tp',
     retry_loop p model_override cancel_event env
       (max_attempts p (config tp0)) 0 (emit [Logger (LProcessing p)] tp0)
     = (Break None (Some msg), tp') ->
     process_try p model_override cancel_event env now tp0
     = ("", emit [Logger (LFinal (translate msg))]
              (fire on_log (OnLog (ErrorLine (translate msg))) tp'))).
Proof.
  intros Hk Hu Hw Ho tp2.
  assert (Hc : config tp2 = config tp).
  { unfold tp2. by rewrite wait_worker_config. }
  assert (Hb : attempt_body p model_override cancel_event (env (S attempt)) tp =
               if is_quota msg && auto_switch_api_keys (config tp) then
                 let tp3 := emit (SwitchToNextKey :: (switch_to_next_key p (config tp)).2)
                              (with_config (switch_to_next_key p (config tp)).1.2 tp2) in
                 match (switch_to_next_key p (config tp)).1.1 with
                 | Some n =>
                     if truthy n
                     then (Continue,
                           fire on_log (OnLog (Switched n))
                             (fire on_key_switch (OnKeySwitch n) tp3))
                     else (Break None (Some msg), tp3)
                 | None => (Break None (Some msg), tp3)
                 end
               else (Break None (Some msg), tp2)).
  { rewrite (attempt_body_dispatch _ _ _ _ _ key_data Hk Hu).
    fold tp2 in Hw.
    rewrite (surjective_pairing (wait_worker _ _ _)). fold tp2.
    rewrite Hw, Ho, Hc.
    destruct (is_quota msg && auto_switch_api_keys (config tp)); [|done].
    by destruct (switch_to_next_key p (config tp)) as [[[n|] c'] evs]. }
  split; [|split; [|split]].
  - unfold is_quota. apply orb_true_iff.
  - intros Hq. cbn [retry_loop]. rewrite Hb, Hq. split; [done|].
    unfold tp2. fold tp2 in Hw.
    by destruct (wait_worker_quiet _ _ _ Hw) as [-> _].
  - intros Hq. cbn [retry_loop]. rewrite Hb, Hq. cbv zeta.
    destruct ((switch_to_next_key p (config tp)).1.1) as [n|]; [|done].
    by destruct (truthy n).
  - intros tp0 tp' Hl. unfold process_try.
    change (config (emit [Logger (LProcessing p)] tp0)) with (config tp0).
    by rewrite Hl.
Qed.

End Iteration.

Lemma quota_failures_rotate_others_break_witness :
  (retry_loop gemini None 0 (always_raises "500 Internal error") 4 0
     (idle_processor two_keys)).1 = Break None (Some "500 Internal error") /\
  (process_try gemini None 0 (always_raises "500 Internal error") 0
     (idle_processor two_keys)).1 = "".
Proof.
  assert (Hk : get_active_key gemini (config (idle_processor two_keys))
               = Some (sample_key "Main Key" true)) by (vm_compute; reflexivity).
  assert (Hu : usable_key (sample_key "Main Key" true) = true)
    by (vm_compute; reflexivity).
  assert (Hw : (wait_worker 0 (polls (always_raises "500 Internal error" 1))
                  (emit [Generate gemini None] (idle_processor two_keys))).1 = false)
    by (vm_compute; reflexivity).
  assert (Ho : outcome (always_raises "500 Internal error" 1)
               = Raised "500 Internal error") by reflexivity.
  destruct (quota_failures_rotate_others_break gemini None 0
              (always_raises "500 Internal error") 3 0 0 (idle_processor two_keys)
              (sample_key "Main Key" true) "500 Internal error" Hk Hu Hw Ho)
    as (_ & Hb & _ & Hs).
  assert (Hq : is_quota "500 Internal error"
               && auto_switch_api_keys (config (idle_processor two_keys)) = false)
    by (vm_compute; reflexivity).
  destruct (Hb Hq) as [Hl _].
  split.
  - rewrite Hl. reflexivity.
  - vm_compute. reflexivity.
Defined.

(** ** Quota errors on every call *)

Lemma count_event_app (f : event -> bool) (l k : list event) :
  count_event f (l ++ k) = count_event f l + count_event f k.
Proof. unfold count_event. by rewrite List.filter_app, length_app. Qed.

Lemma count_event_cons (f : event -> bool) (e : event) (l : list event) :
  count_event f (e :: l) = bit (f e) + count_event f l.
Proof. unfold count_event. simpl. by destruct (f e). Qed.

Lemma wait_worker_idle e ps tp :
  Forall (fun b => b = false) ps -> is_set e tp = false ->
  wait_worker e ps tp = (false, tp).
Proof.
  intros Hps His. induction Hps as [|b ps -> _ IH]; simpl; [done|].
  by rewrite His.
Qed.

Lemma other_fields_lookup (d : item) (f : string) :
  f <> "active" -> other_fields d !! f = d !! f.
Proof. intros H. unfold other_fields. by rewrite lookup_delete_ne. Qed.

Lemma ready_key_other_fields (d d' : item) :
  other_fields d = other_fields d' -> ready_key d = ready_key d'.
Proof.
  intros H. unfold ready_key, usable_key, labelled.
  rewrite <- (other_fields_lookup d "key"), <- (other_fields_lookup d "name") by done.
  rewrite <- (other_fields_lookup d' "key"), <- (other_fields_lookup d' "name") by done.
  by rewrite H.
Qed.

Lemma switch_keys_ready (l : list item) :
  Forall (fun d => ready_key d = true) l ->
  Forall (fun d => ready_key d = true) (switch_keys l).
Proof.
  rewrite !Forall_lookup. intros H i d' Hd'.
  pose proof (f_equal (fun k => k !! i) (other_fields_switch_keys l)) as E.
  simpl in E. rewrite !list_lookup_fmap, Hd' in E.
  destruct (l !! i) as [d|] eqn:Hd; [|done].
  simpl in E. injection E as E.
  rewrite (ready_key_other_fields d' d E). by apply (H i).
Qed.

Lemma first_active_after_set (j : nat) (l : list item) :
  j < length l -> is_Some (first_active (set_field j "active" (VBool true) l)).
Proof.
  revert j. induction l as [|x l IH]; intros j Hj; simpl in *; [lia|].
  destruct j as [|j]; simpl.
  - rewrite is_active_insert. by eexists.
  - destruct (is_active x); [by eexists|]. apply IH. lia.
Qed.

Lemma current_index_from_bound (o : Z) (l : list item) :
  (0 <= o)%Z -> (-1 <= current_index_from o l)%Z.
Proof.
  revert o. induction l as [|x l IH]; intros o Ho; simpl; [lia|].
  destruct (is_active x); [lia|]. apply IH. lia.
Qed.

Lemma next_index_lt (l : list item) : 0 < length l -> next_index l < length l.
Proof.
  intros Hl. unfold next_index, current_index.
  pose proof (current_index_from_bound 0 l ltac:(lia)) as Hb.
  pose proof (Z.mod_pos_bound (current_index_from 0 l + 1) (Z.of_nat (length l))
                ltac:(lia)) as Hm.
  lia.
Qed.

Lemma key_label_truthy (n : nat) : truthy (VStr (key_label n)) = true.
Proof. done. Qed.

Lemma reconfigure_quiet (p : provider) (k : value) : quiet (reconfigure p k).
Proof. by destruct p. Qed.

(** With at least two ready keys a rotation goes through and returns a
    label that the loop accepts. *)
Lemma switch_to_next_key_ready (p : provider) (K : nat) (c : Config) :
  2 <= K -> rotation_ready p K c ->
  exists n evs,
    switch_to_next_key p c
    = (Some n, set_list c (api_keys_key p) (switch_keys (get_list c (api_keys_key p))),
       evs) /\
    truthy n = true /\ quiet evs /\
    rotation_ready p K (set_list c (api_keys_key p)
                          (switch_keys (get_list c (api_keys_key p)))).
Proof.
  intros HK (Hlen & Hall & Hact & Hauto).
  unfold switch_to_next_key.
  replace (length (get_list c (api_keys_key p)) <? 2)%nat with false
    by (symmetry; apply Nat.ltb_ge; lia).
  set (keys := get_list c (api_keys_key p)) in *.
  assert (Hni : next_index keys < length keys) by (apply next_index_lt; lia).
  assert (Hall' := switch_keys_ready keys Hall).
  destruct (lookup_lt_is_Some_2 (switch_keys keys) (next_index keys)) as [d Hd].
  { by rewrite switch_keys_length. }
  rewrite Hd. simpl.
  eexists _, _. split; [reflexivity|]. split; [|split].
  - rewrite Forall_lookup in Hall'. specialize (Hall' _ _ Hd).
    unfold ready_key, labelled in Hall'. apply andb_true_iff in Hall' as [_ Hl].
    destruct (d !! "name"); [done|]. apply key_label_truthy.
  - destruct (truthy (get d "key")); [apply reconfigure_quiet|done].
  - unfold rotation_ready, get_active_key. rewrite get_list_set_list.
    rewrite switch_keys_length. split; [done|]. split; [done|]. split; [|done].
    unfold switch_keys. apply first_active_after_set.
    destruct (0 <=? current_index keys)%Z; rewrite ?set_field_length; exact Hni.
Qed.

Lemma config_fire reg e tp : config (fire reg e tp) = config tp.
Proof. unfold fire. by destruct (reg tp). Qed.

Lemma is_set_fire reg e ev tp : is_set ev (fire reg e tp) = is_set ev tp.
Proof. unfold fire. by destruct (reg tp). Qed.

Section QuotaEveryTime.
Variables (p : provider) (model_override : option string) (cancel_event : nat).
Variable env : nat -> attempt_script.
Hypothesis Henv : quota_every_time env.

Lemma attempt_quota (tp : TextProcessor) :
  is_Some (get_active_key p (config tp)) ->
  Forall (fun d => ready_key d = true) (get_list (config tp) (api_keys_key p)) ->
  auto_switch_api_keys (config tp) = true ->
  is_set cancel_event tp = false ->
  forall i, exists msg,
    outcome (env i) = Raised msg /\
    attempt_body p model_override cancel_event (env i) tp =
    let tp2 := emit [Generate p model_override] tp in
    let '(new_key_name, c', evs) := switch_to_next_key p (config tp) in
    let tp3 := emit (SwitchToNextKey :: evs) (with_config c' tp2) in
    match new_key_name with
    | Some n =>
        if truthy n
        then (Continue,
              fire on_log (OnLog (Switched n))
                (fire on_key_switch (OnKeySwitch n) tp3))
        else (Break None (Some msg), tp3)
    | None => (Break None (Some msg), tp3)
    end.
Proof.
  intros [key_data Hk] Hall Hauto Hset i.
  destruct (Henv i) as (Hps & msg & Ho & Hq).
  exists msg. split; [done|].
  assert (Hu : usable_key key_data = true).
  { unfold get_active_key in Hk.
    assert (Hin : key_data ∈ get_list (config tp) (api_keys_key p)).
    { clear -Hk. induction (get_list (config tp) (api_keys_key p)) as [|x l IH];
        simpl in Hk; [done|].
      destruct (is_active x); [injection Hk as ->; left | right; by apply IH]. }
    rewrite Forall_forall in Hall. specialize (Hall _ Hin).
    unfold ready_key in Hall. by apply andb_true_iff in Hall as [? _]. }
  rewrite (attempt_body_dispatch _ _ _ _ _ key_data Hk Hu).
  rewrite (wait_worker_idle cancel_event (polls (env i))
             (emit [Generate p model_override] tp) Hps Hset).
  rewrite Ho, Hq. simpl. rewrite Hauto. done.
Qed.

(** With two or more ready keys every iteration rotates and goes on:
    the loop runs out of attempts with neither a result nor an error. *)
Lemma retry_loop_all_quota (K : nat) (remaining attempt : nat) (tp : TextProcessor) :
  2 <= K -> rotation_ready p K (config tp) ->
  is_set cancel_event tp = false ->
  exists tp',
    retry_loop p model_override cancel_event env remaining attempt tp
    = (Break None None, tp') /\
    count_event is_generate (trace tp')
    = count_event is_generate (trace tp) + remaining /\
    count_event is_rotation (trace tp')
    = count_event is_rotation (trace tp) + remaining.
Proof.
  intros HK. revert attempt tp.
  induction remaining as [|n IH]; intros attempt tp Hready Hset; simpl.
  - exists tp. repeat split; lia.
  - destruct Hready as (Hlen & Hall & Hact & Hauto).
    destruct (attempt_quota tp Hact Hall Hauto Hset (S attempt)) as (msg & _ & ->).
    destruct (switch_to_next_key_ready p K (config tp) HK)
      as (nm & evs & -> & Hnm & (Hq1 & Hq2 & _) & Hready').
    { by repeat split. }
    cbv zeta. cbn iota. rewrite Hnm.
    match goal with
    | |- context [retry_loop _ _ _ _ n (S attempt) ?t] => set (tp3 := t)
    end.
    destruct (IH (S attempt) tp3) as (tp' & Hl & Hg & Hr).
    + unfold tp3. by rewrite !config_fire.
    + unfold tp3. by rewrite !is_set_fire.
    + exists tp'. split; [exact Hl|].
      rewrite Hg, Hr. unfold tp3.
      rewrite !trace_fire, !trace_emit, !count_event_app, !count_event_cons.
      rewrite Hq1, Hq2. simpl.
      split; repeat case_match; rewrite ?count_event_app; unfold count_event; simpl; lia.
Qed.
End QuotaEveryTime.

(** What [process] does when the lock is free. *)
Lemma process_idle env now action_name tp :
  genai_lock tp = false ->
  process env now action_name tp =
  let started := with_lock true
                   (with_task_event (Some (events_created tp)) (new_event tp).2) in
  let r := process_try (resolved_provider (config tp) action_name)
             (_get_model_name (find_hotkey (config tp) action_name))
             (events_created tp) env now started in
  (r.1, process_finally r.2).
Proof.
  intros Hl. unfold process, process_begin, resolved_provider. simpl. rewrite Hl.
  by destruct (process_try _ _ _ _ _ _).
Qed.

(** C1 (as amended). With K >= 1 credentials that the loop accepts, one
    of them active, auto-switch enabled, the lock free and an adapter
    that raises a quota error on every call, [process] returns the empty
    string. With K >= 2 it makes exactly 2K = max_attempts attempts and
    calls [switch_to_next_key] after each of them; with K = 1 it makes
    exactly one attempt, the rotation call changes nothing, and the error
    is logged through [on_log]. *)
Theorem quota_on_every_call_uses_all_attempts (env : nat -> attempt_script)
    (now : Q) (action_name : string) (tp : TextProcessor) (K : nat) :
  genai_lock tp = false ->
  is_set (events_created tp) tp = false ->
  rotation_ready (resolved_provider (config tp) action_name) K (config tp) ->
  1 <= K ->
  quota_every_time env ->
  let tp' := (process env now action_name tp).2 in
  let attempts := if (K =? 1)%nat then 1 else 2 * K in
  (process env now action_name tp).1 = "" /\
  count_event is_generate (trace tp')
  = count_event is_generate (trace tp) + attempts /\
  count_event is_rotation (trace tp')
  = count_event is_rotation (trace tp) + attempts /\
  attempts <= max_attempts (resolved_provider (config tp) action_name) (config tp) /\
  (K = 1 ->
   config tp' = config tp /\
   count_event is_error_line (trace tp')
   = count_event is_error_line (trace tp) + bit (on_log tp)).
Proof.
  intros Hl Hset Hready HK Henv. cbv zeta.
  rewrite (process_idle env now action_name tp Hl). cbv zeta. cbn [fst snd].
  set (p := resolved_provider (config tp) action_name) in *.
  set (mo := _get_model_name (find_hotkey (config tp) action_name)).
  set (started := with_lock true
                    (with_task_event (Some (events_created tp)) (new_event tp).2)).
  assert (Hmax : max_attempts p (config tp) = 2 * K).
  { unfold max_attempts. destruct Hready as (Hlen & _). rewrite Hlen.
    lia. }
  unfold process_try.
  change (config (emit [Logger (LProcessing p)] started)) with (config tp).
  rewrite Hmax.
  destruct (decide (K = 1)) as [->|HK1].
  - (* one key: the rotation call returns None and the loop breaks *)
    destruct Hready as (Hlen & Hall & Hact & Hauto).
    cbn [Nat.mul Nat.add retry_loop].
    destruct (attempt_quota p mo (events_created tp) env Henv
                (emit [Logger (LProcessing p)] started) Hact Hall Hauto Hset 1)
      as (msg & _ & ->).
    change (config (emit [Logger (LProcessing p)] started)) with (config tp).
    unfold switch_to_next_key. rewrite Hlen. cbn [Nat.ltb Nat.leb].
    cbv zeta. cbn iota. unfold on_exception. cbn [fst snd].
    unfold process_finally.
    repeat split.
    + simpl. rewrite trace_fire. simpl. rewrite !count_event_app.
      unfold count_event. simpl. case_match; simpl; lia.
    + simpl. rewrite trace_fire. simpl. rewrite !count_event_app.
      unfold count_event. simpl. case_match; simpl; lia.
    + simpl. lia.
    + simpl. by rewrite config_fire.
    + simpl. rewrite trace_fire. simpl. rewrite !count_event_app.
      unfold count_event. simpl. case_match; simpl; lia.
  - destruct (retry_loop_all_quota p mo (events_created tp) env Henv K (2 * K) 0
                (emit [Logger (LProcessing p)] started) ltac:(lia) Hready Hset)
      as (tp2 & -> & Hg & Hr).
    replace (K =? 1)%nat with false in * by (symmetry; by apply Nat.eqb_neq).
    cbn [fst snd]. unfold process_finally.
    repeat split.
    + simpl. rewrite Hg. simpl. rewrite count_event_app. unfold count_event. simpl. lia.
    + simpl. rewrite Hr. simpl. rewrite count_event_app. unfold count_event. simpl. lia.
    + lia.
    + done.
    + done.
Qed.

Lemma quota_on_every_call_uses_all_attempts_witness :
  (process always_quota 0 "F1 Text Correction" (idle_processor two_keys)).1 = "" /\
  count_event is_generate
    (trace (process always_quota 0 "F1 Text Correction" (idle_processor two_keys)).2)
  = count_event is_generate (trace (idle_processor two_keys)) + 2 * 2.
Proof.
  assert (Hl : genai_lock (idle_processor two_keys) = false) by reflexivity.
  assert (Hset : is_set (events_created (idle_processor two_keys))
                   (idle_processor two_keys) = false) by (vm_compute; reflexivity).
  assert (Hready : rotation_ready
                     (resolved_provider (config (idle_processor two_keys))
                        "F1 Text Correction") 2 (config (idle_processor two_keys))).
  { split; [vm_compute; reflexivity|].
    split; [|split; [vm_compute; eexists; reflexivity | vm_compute; reflexivity]].
    vm_compute. repeat (constructor; [reflexivity|]). constructor. }
  assert (HK : 1 <= 2) by lia.
  assert (Henv : quota_every_time always_quota).
  { intros i. split; [repeat constructor|].
    eexists. split; [reflexivity | vm_compute; reflexivity]. }
  destruct (quota_on_every_call_uses_all_attempts always_quota 0 "F1 Text Correction"
              (idle_processor two_keys) 2 Hl Hset Hready HK Henv)
    as (Hr & Hg & _).
  split; [exact Hr | exact Hg].
Defined.

(** C1, as stated, fails: with two keys the four attempts are each
    followed by a rotation, four rotations and not at most one, and the
    call ends without an error line; with one key there is one attempt,
    not two. *)
Lemma two_keys_rotate_after_every_attempt :
  (process always_quota 0 "F1 Text Correction" (idle_processor two_keys)).1 = "" /\
  count_event is_generate
    (trace (process always_quota 0 "F1 Text Correction" (idle_processor two_keys)).2)
  = 4 /\
  count_event is_rotation
    (trace (process always_quota 0 "F1 Text Correction" (idle_processor two_keys)).2)
  = 4 /\
  ~ count_event is_rotation
      (trace (process always_quota 0 "F1 Text Correction" (idle_processor two_keys)).2)
    <= 2 - 1 /\
  count_event is_error_line
    (trace (process always_quota 0 "F1 Text Correction" (idle_processor two_keys)).2)
  = 0 /\
  count_event is_generate
    (trace (process always_quota 0 "F1 Text Correction" (idle_processor one_key)).2)
  = 1.
Proof.
  assert (H4 : count_event is_rotation
    (trace (process always_quota 0 "F1 Text Correction" (idle_processor two_keys)).2)
    = 4) by (vm_compute; reflexivity).
  repeat split; try (vm_compute; reflexivity).
  rewrite H4. lia.
Qed.

(** * Further properties of the code *)

(** ** The list manager: round trips *)

Lemma py_eq_refl (v : value) : py_eq v v = true.
Proof.
  destruct v as [|b|s|q|l]; simpl.
  - done.
  - by destruct b.
  - apply String.eqb_refl.
  - apply Qeq_bool_iff. reflexivity.
  - induction l as [|x l IH]; [done|]. simpl. rewrite IH, andb_true_r.
    apply Qeq_bool_iff. reflexivity.
Qed.

Lemma Qeq_bool_sym (a b : Q) : Qeq_bool a b = Qeq_bool b a.
Proof.
  destruct (Qeq_bool a b) eqn:E; symmetry.
  - apply Qeq_bool_iff. symmetry. by apply Qeq_bool_iff.
  - destruct (Qeq_bool b a) eqn:E'; [|done].
    apply Qeq_bool_iff in E'. symmetry in E'. apply Qeq_bool_iff in E'. congruence.
Qed.

Lemma py_eq_sym (v w : value) : py_eq v w = py_eq w v.
Proof.
  destruct v as [|a|s|q|l], w as [|b|t|r|k]; simpl; try done.
  - by destruct a, b.
  - apply String.eqb_sym.
  - apply Qeq_bool_sym.
  - revert k. induction l as [|x l IH]; intros [|y k]; simpl; try done.
    by rewrite IH, Qeq_bool_sym.
Qed.

Lemma name_index_from_skip (o : Z) (v : value) (l : list item) (i : nat) (d : item) :
  l !! i = Some d -> py_eq (get d "name") v = true ->
  (forall j dj, j < i -> l !! j = Some dj -> py_eq (get dj "name") v = false) ->
  name_index_from o v l = (o + Z.of_nat i)%Z.
Proof.
  revert o i. induction l as [|x l IH]; intros o i Hd Hv Hbefore; [done|].
  destruct i as [|i]; simpl in *.
  - injection Hd as ->. rewrite Hv. lia.
  - rewrite (Hbefore 0 x) by (done || lia).
    rewrite (IH (o + 1)%Z i Hd Hv); [lia|].
    intros j dj Hj Hdj. apply (Hbefore (S j) dj); [lia|done].
Qed.

Lemma name_index_from_range (o : Z) (v : value) (l : list item) :
  name_index_from o v l = (-1)%Z \/
  (o <= name_index_from o v l < o + Z.of_nat (length l))%Z.
Proof.
  revert o. induction l as [|x l IH]; intros o; simpl; [by left|].
  destruct (py_eq (get x "name") v); [right; lia|].
  destruct (IH (o + 1)%Z) as [->|H]; [by left | right; lia].
Qed.

Lemma current_index_from_range (o : Z) (l : list item) :
  current_index_from o l = (-1)%Z \/
  (o <= current_index_from o l < o + Z.of_nat (length l))%Z.
Proof.
  revert o. induction l as [|x l IH]; intros o; simpl; [by left|].
  destruct (is_active x); [right; lia|].
  destruct (IH (o + 1)%Z) as [->|H]; [by left | right; lia].
Qed.

Lemma current_index_from_first_active (o : Z) (l : list item) :
  (0 <= o)%Z ->
  first_active l =
  if (0 <=? current_index_from o l)%Z
  then l !! Z.to_nat (current_index_from o l - o) else None.
Proof.
  revert o. induction l as [|x l IH]; intros o Ho; simpl; [done|].
  destruct (is_active x) eqn:E.
  - replace (0 <=? o)%Z with true by (symmetry; apply Z.leb_le; lia).
    by replace (o - o)%Z with 0%Z by lia.
  - rewrite (IH (o + 1)%Z) by lia.
    destruct (current_index_from_range (o + 1) l) as [->|H]; [done|].
    replace (0 <=? current_index_from (o + 1) l)%Z with true
      by (symmetry; apply Z.leb_le; lia).
    replace (Z.to_nat (current_index_from (o + 1) l - o))
      with (S (Z.to_nat (current_index_from (o + 1) l - (o + 1)))) by lia.
    done.
Qed.

Lemma current_index_from_flagless (o : Z) (l : list item) :
  flagless l -> current_index_from o l = (-1)%Z.
Proof.
  intros H. revert o. induction H as [|x l Hx _ IH]; intros o; simpl; [done|].
  unfold is_active, get. rewrite Hx. simpl. apply IH.
Qed.

Lemma flagless_set_field (i : nat) (f : string) (v : value) (l : list item) :
  f <> "active" -> flagless l -> flagless (set_field i f v l).
Proof.
  intros Hf. unfold flagless. rewrite !Forall_lookup. intros H j d Hd.
  unfold set_field in Hd. destruct (decide (i = j)) as [->|Hne].
  - rewrite list_lookup_alter, decide_True in Hd by done.
    destruct (l !! j) as [d0|] eqn:E; simpl in Hd; [|done].
    injection Hd as <-.
    rewrite lookup_insert_ne by done. by apply (H j).
  - rewrite list_lookup_alter_ne in Hd by done. by apply (H j).
Qed.

(** X1. Deleting the entry that [add] has just appended, at the index
    that [add] returned, gives back the list as it was, provided the list
    was empty or the appended entry was not active (otherwise [delete]
    promotes the first entry). The index returned is the old length. *)
Theorem add_then_delete_restores (m : ConfigListManager) (it : option item)
    (c : Config) :
  items m c = [] \/ is_active (item_or_default m it) = false ->
  (add m it c).1.1 = length (items m c) /\
  (delete m (Z.of_nat (add m it c).1.1) (add m it c).1.2).1.1 = true /\
  items m (delete m (Z.of_nat (add m it c).1.1) (add m it c).1.2).1.2 = items m c.
Proof.
  intros H.
  assert (Hi : (add m it c).1.1 = length (items m c)).
  { pose proof (items_add m it c) as E. apply (f_equal length) in E.
    rewrite length_app in E. simpl in E.
    unfold add in *. cbn [fst snd] in *. rewrite items_set_list in E.
    rewrite length_app in *. simpl in *. lia. }
  split; [exact Hi|]. rewrite Hi.
  pose proof (items_add m it c) as E.
  set (c1 := (add m it c).1.2) in *.
  set (x := if (length (items m c) =? 0)%nat
               && bool_decide (is_Some (item_or_default m it !! "active"))
            then <["active" := VBool true]> (item_or_default m it)
            else item_or_default m it) in *.
  assert (Hr : in_range (Z.of_nat (length (items m c))) (items m c1) = true).
  { apply in_range_spec. rewrite E, length_app. simpl. lia. }
  split; [by apply delete_in_range|].
  unfold delete. rewrite Hr. cbn [negb fst snd]. rewrite items_set_list.
  rewrite Nat2Z.id, E, list_lookup_middle by done.
  rewrite delete_middle, app_nil_r. simpl.
  destruct (items m c) as [|y l] eqn:El; simpl.
  - by rewrite andb_false_r.
  - destruct H as [H|H]; [done|]. unfold x. simpl. by rewrite H.
Qed.

Lemma add_then_delete_restores_witness :
  (add key_manager None two_keys).1.1 = 2 /\
  items key_manager
    (delete key_manager 2 (add key_manager None two_keys).1.2).1.2
  = items key_manager two_keys.
Proof.
  assert (H : items key_manager two_keys = []
              \/ is_active (item_or_default key_manager None) = false)
    by (right; vm_compute; reflexivity).
  destruct (add_then_delete_restores key_manager None two_keys H) as (Hi & _ & Hd).
  split; [exact Hi|]. rewrite Hi in Hd. exact Hd.
Defined.

(** X2. An in-range [delete] removes exactly the entry at that index: the
    entries before it keep their place, those after it move down by one,
    and no field other than the active flag of any remaining entry
    changes. *)
Theorem delete_removes_one_entry (m : ConfigListManager) (index : Z) (c : Config) :
  (0 <= index < Z.of_nat (length (items m c)))%Z ->
  length (items m (delete m index c).1.2) = length (items m c) - 1 /\
  other_fields <$> items m (delete m index c).1.2
  = base.delete (Z.to_nat index) (other_fields <$> items m c).
Proof.
  intros Hr. pose proof Hr as Hr'. apply in_range_spec in Hr'.
  unfold delete. rewrite Hr'. cbn [negb fst snd]. rewrite items_set_list.
  assert (Hlen : length (base.delete (Z.to_nat index) (items m c))
                 = length (items m c) - 1).
  { rewrite length_delete; [done|]. apply lookup_lt_is_Some_2. lia. }
  destruct (_ && _).
  - rewrite set_field_length, other_fields_set_field. split; [done|].
    apply list_fmap_delete.
  - split; [done|]. apply list_fmap_delete.
Qed.

Lemma delete_removes_one_entry_witness :
  other_fields <$> items key_manager (delete key_manager 1 three_keys).1.2
  = base.delete 1 (other_fields <$> items key_manager three_keys).
Proof.
  assert (H : (0 <= 1 < Z.of_nat (length (items key_manager three_keys)))%Z)
    by (vm_compute; split; [discriminate | reflexivity]).
  destruct (delete_removes_one_entry key_manager 1 three_keys H) as [_ E].
  exact E.
Defined.

(** ** The list manager: the active entry *)

Lemma items_set_scalar (m : ConfigListManager) (c : Config) (k : string) (v : value) :
  items m (set_scalar c k v) = items m c.
Proof. done. Qed.

Lemma name_index_from_found (o : Z) (v : value) (l : list item) (i : nat) :
  name_index_from o v l = (o + Z.of_nat i)%Z -> (0 <= o)%Z ->
  exists d, l !! i = Some d /\ py_eq (get d "name") v = true /\
    forall j dj, j < i -> l !! j = Some dj -> py_eq (get dj "name") v = false.
Proof.
  revert o i. induction l as [|x l IH]; intros o i H Ho; simpl in H; [lia|].
  destruct (py_eq (get x "name") v) eqn:E.
  - assert (i = 0) as -> by lia. exists x. split; [done|]. split; [done|]. lia.
  - destruct (name_index_from_range (o + 1) v l) as [Hn|Hn]; [lia|].
    destruct i as [|i]; [lia|].
    destruct (IH (o + 1)%Z i) as (d & Hd & Hv & Hb); [lia|lia|].
    exists d. split; [done|]. split; [done|].
    intros [|j] dj Hj Hdj; simplify_eq/=; [done|]. apply (Hb j dj); [lia|done].
Qed.

(** X3. For a list whose entries carry an "active" flag, [set_active]
    followed by [get_active_index] gives back the index, and [get_active]
    the entry at that index, now flagged active. *)
Theorem set_active_then_get_active (m : ConfigListManager) (index : Z) (c : Config)
    (first d : item) :
  items m c !! 0 = Some first -> is_Some (first !! "active") ->
  (0 <= index)%Z -> items m c !! Z.to_nat index = Some d ->
  get_active_index m (set_active m index c).1.2 = index /\
  get_active m (set_active m index c).1.2 = Some (<["active" := VBool true]> d).
Proof.
  intros H0 Ha Hi Hd.
  assert (Hlt : Z.to_nat index < length (items m c)) by (by apply lookup_lt_Some in Hd).
  assert (Hr : in_range index (items m c) = true) by (apply in_range_spec; lia).
  unfold set_active. rewrite Hr, H0. cbn [negb fst snd from_option id].
  rewrite (bool_decide_eq_true_2 _ Ha).
  assert (Hix : get_active_index m
                  (set_list c (list_key m)
                     (imap (fun j d => <["active" := VBool (Nat.eqb j (Z.to_nat index))]> d)
                        (items m c))) = index).
  { unfold get_active_index. rewrite items_set_list. unfold current_index.
    rewrite (current_index_from_onehot 0 _ (Z.to_nat index)).
    - replace (0 + Z.of_nat (Z.to_nat index))%Z with index by lia.
      by replace (0 <=? index)%Z with true by (symmetry; apply Z.leb_le; lia).
    - by rewrite length_imap.
    - rewrite length_imap. apply flags_imap_activate. }
  split; [exact Hix|].
  unfold get_active. rewrite Hix.
  replace (0 <=? index)%Z with true by (symmetry; apply Z.leb_le; lia).
  rewrite items_set_list, list_lookup_imap, Hd. simpl. by rewrite Nat.eqb_refl.
Qed.

Lemma set_active_then_get_active_witness :
  get_active_index key_manager (set_active key_manager 2 three_keys).1.2 = 2%Z.
Proof.
  assert (H0 : items key_manager three_keys !! 0 = Some (sample_key "Main Key" false))
    by reflexivity.
  assert (Ha : is_Some (sample_key "Main Key" false !! "active"))
    by (vm_compute; eexists; reflexivity).
  assert (Hi : (0 <= 2)%Z) by lia.
  assert (Hd : items key_manager three_keys !! Z.to_nat 2 = Some (sample_key "Third" false))
    by reflexivity.
  destruct (set_active_then_get_active key_manager 2 three_keys _ _ H0 Ha Hi Hd)
    as [E _].
  exact E.
Defined.

(** X4. For a list of models (no entry carries an "active" flag) whose
    active field is present in the configuration, [set_active] writes
    the name of the chosen entry into the active field and leaves the list
    alone; [get_active_index] then gives back the index, provided the name
    is truthy and no earlier entry bears the same name. *)
Theorem set_active_by_name (m : ConfigListManager) (index : Z) (c : Config)
    (d : item) :
  flagless (items m c) ->
  is_Some (scalars c !! active_field m) ->
  (0 <= index)%Z -> items m c !! Z.to_nat index = Some d ->
  truthy (get d "name") = true ->
  (forall j dj, j < Z.to_nat index -> items m c !! j = Some dj ->
                py_eq (get dj "name") (get d "name") = false) ->
  get_active_index m (set_active m index c).1.2 = index /\
  get_active m (set_active m index c).1.2 = Some d /\
  scalars (set_active m index c).1.2 !! active_field m = Some (get d "name") /\
  items m (set_active m index c).1.2 = items m c.
Proof.
  intros Hfl Hsc Hi Hd Ht Hbefore.
  assert (Hlt : Z.to_nat index < length (items m c)) by (by apply lookup_lt_Some in Hd).
  assert (Hr : in_range index (items m c) = true) by (apply in_range_spec; lia).
  unfold set_active. rewrite Hr, Hd. cbn [negb fst snd from_option id].
  assert (Hno : ~ is_Some (default ∅ (items m c !! 0) !! "active")).
  { destruct (items m c !! 0) as [d0|] eqn:E0; simpl.
    - unfold flagless in Hfl. rewrite Forall_lookup in Hfl.
      rewrite (Hfl 0 d0 E0). by intros [? ?].
    - rewrite lookup_empty. by intros [? ?]. }
  rewrite (bool_decide_eq_false_2 _ Hno), Ht, (bool_decide_eq_true_2 _ Hsc).
  cbn [andb].
  assert (Hix : get_active_index m (set_scalar c (active_field m) (get d "name")) = index).
  { unfold get_active_index. rewrite items_set_scalar. unfold current_index.
    rewrite current_index_from_flagless by done. simpl.
    rewrite lookup_insert_eq.
    rewrite (name_index_from_skip 0 _ _ (Z.to_nat index) d Hd (py_eq_refl _) Hbefore).
    lia. }
  split; [exact Hix|]. split; [|split; [|done]].
  - unfold get_active. rewrite Hix, items_set_scalar.
    by replace (0 <=? index)%Z with true by (symmetry; apply Z.leb_le; lia).
  - simpl. apply lookup_insert_eq.
Qed.

Lemma set_active_by_name_witness :
  get_active_index model_manager (set_active model_manager 1 models_config).1.2 = 1%Z /\
  scalars (set_active model_manager 1 models_config).1.2 !! "active_model"
  = Some (VStr "gemini-1.5-pro").
Proof.
  assert (Hfl : flagless (items model_manager models_config)).
  { vm_compute. repeat (constructor; [reflexivity|]). constructor. }
  assert (Hsc : is_Some (scalars models_config !! active_field model_manager))
    by (vm_compute; eexists; reflexivity).
  assert (Hi : (0 <= 1)%Z) by lia.
  assert (Hd : items model_manager models_config !! Z.to_nat 1
               = Some (model_entry "gemini-1.5-pro")) by reflexivity.
  assert (Ht : truthy (get (model_entry "gemini-1.5-pro") "name") = true)
    by (vm_compute; reflexivity).
  assert (Hb : forall j dj, j < Z.to_nat 1 ->
             items model_manager models_config !! j = Some dj ->
             py_eq (get dj "name") (get (model_entry "gemini-1.5-pro") "name") = false).
  { intros [|j] dj Hj Hdj; [|simpl in Hj; lia].
    injection Hdj as <-. vm_compute. reflexivity. }
  destruct (set_active_by_name model_manager 1 models_config _ Hfl Hsc Hi Hd Ht Hb)
    as (E & _ & Es & _).
  split; [exact E | exact Es].
Defined.

(** X5. Renaming the active entry of a list of models through
    [update_field] keeps it the active one: the active field follows the
    new name, so that [get_active_index] still gives the same index,
    provided no earlier entry bears the new name. *)
Theorem renaming_the_active_entry_keeps_it_active (m : ConfigListManager)
    (index : Z) (v : value) (c : Config) :
  flagless (items m c) ->
  (0 <= index)%Z -> get_active_index m c = index ->
  (forall j dj, j < Z.to_nat index -> items m c !! j = Some dj ->
                py_eq (get dj "name") v = false) ->
  (update_field m index "name" v c).1.1 = true /\
  get_active_index m (update_field m index "name" v c).1.2 = index /\
  scalars (update_field m index "name" v c).1.2 !! active_field m = Some v.
Proof.
  intros Hfl Hi Hix Hbefore.
  unfold get_active_index, current_index in Hix.
  rewrite current_index_from_flagless in Hix by done. simpl in Hix.
  destruct (scalars c !! active_field m) as [cur|] eqn:Hcur; [|lia].
  replace index with (0 + Z.of_nat (Z.to_nat index))%Z in Hix by lia.
  apply name_index_from_found in Hix as (d & Hd & Hv & _); [|lia].
  assert (Hlt : Z.to_nat index < length (items m c)) by (by apply lookup_lt_Some in Hd).
  assert (Hr : in_range index (items m c) = true) by (apply in_range_spec; lia).
  unfold update_field. rewrite Hr, Hd. cbn [negb fst snd from_option id].
  change (String.eqb "name" "name") with true. cbn iota.
  change (scalars (set_list c (list_key m)
                     (set_field (Z.to_nat index) "name" v (items m c))))
    with (scalars c).
  rewrite Hcur, py_eq_sym, Hv.
  split; [done|].
  assert (Hs : scalars (set_scalar
                          (set_list c (list_key m)
                             (set_field (Z.to_nat index) "name" v (items m c)))
                          (active_field m) v) !! active_field m = Some v).
  { simpl. apply lookup_insert_eq. }
  split; [|exact Hs].
  unfold get_active_index. rewrite Hs, items_set_scalar, items_set_list.
  unfold current_index.
  rewrite current_index_from_flagless by (by apply flagless_set_field).
  simpl.
  rewrite (name_index_from_skip 0 v _ (Z.to_nat index) (<["name" := v]> d)).
  - lia.
  - unfold set_field. by rewrite list_lookup_alter, decide_True, Hd.
  - unfold get. rewrite lookup_insert_eq. apply py_eq_refl.
  - intros j dj Hj Hdj. unfold set_field in Hdj.
    rewrite list_lookup_alter_ne in Hdj by lia. by apply (Hbefore j).
Qed.

Lemma renaming_the_active_entry_keeps_it_active_witness :
  get_active_index model_manager
    (update_field model_manager 0 "name" (VStr "gemini-2.5-flash") models_config).1.2
  = 0%Z.
Proof.
  assert (Hfl : flagless (items model_manager models_config)).
  { vm_compute. repeat (constructor; [reflexivity|]). constructor. }
  assert (Hi : (0 <= 0)%Z) by lia.
  assert (Hix : get_active_index model_manager models_config = 0%Z)
    by (vm_compute; reflexivity).
  assert (Hb : forall j dj, j < Z.to_nat 0 ->
             items model_manager models_config !! j = Some dj ->
             py_eq (get dj "name") (VStr "gemini-2.5-flash") = false).
  { intros j dj Hj. simpl in Hj. lia. }
  destruct (renaming_the_active_entry_keeps_it_active model_manager 0
              (VStr "gemini-2.5-flash") models_config Hfl Hi Hix Hb) as (_ & E & _).
  exact E.
Defined.

(** X6. [get_active_index] returns -1 or an index of the list;
    [get_active] returns [None] in the first case and the entry at that
    index in the second. *)
Theorem active_index_is_in_range (m : ConfigListManager) (c : Config) :
  (get_active_index m c = (-1)%Z /\ get_active m c = None) \/
  ((0 <= get_active_index m c < Z.of_nat (length (items m c)))%Z /\
   exists d, get_active m c = Some d /\
             items m c !! Z.to_nat (get_active_index m c) = Some d).
Proof.
  assert (H : get_active_index m c = (-1)%Z \/
              (0 <= get_active_index m c < 0 + Z.of_nat (length (items m c)))%Z).
  { unfold get_active_index, current_index.
    destruct (current_index_from_range 0 (items m c)) as [->|Hc].
    - simpl. destruct (scalars c !! active_field m); [|by left].
      apply name_index_from_range.
    - right. by replace (0 <=? current_index_from 0 (items m c))%Z with true
        by (symmetry; apply Z.leb_le; lia). }
  unfold get_active. destruct H as [->|H]; [by left|]. right.
  split; [lia|].
  replace (0 <=? get_active_index m c)%Z with true by (symmetry; apply Z.leb_le; lia).
  destruct (lookup_lt_is_Some_2 (items m c) (Z.to_nat (get_active_index m c)))
    as [d Hd]; [lia|].
  by exists d.
Qed.

(** X7. A list manager set up on the key list of a provider finds the
    same active key as the provider does, and the same key value, as long
    as the manager's active field is not an entry of the configuration or
    some key is flagged active. *)
Theorem list_manager_and_provider_agree (m : ConfigListManager) (p : provider)
    (c : Config) :
  list_key m = api_keys_key p ->
  scalars c !! active_field m = None \/ is_Some (get_active_key p c) ->
  get_active m c = get_active_key p c /\
  get_active_value m "key" c = get_active_key_value p c.
Proof.
  intros Hk H.
  assert (E : get_active m c = get_active_key p c).
  { unfold get_active, get_active_index, get_active_key, items. rewrite Hk.
    rewrite (current_index_from_first_active 0) by lia.
    unfold current_index. rewrite Z.sub_0_r.
    destruct (current_index_from_range 0 (get_list c (api_keys_key p))) as [Hc|Hc].
    - rewrite Hc. simpl.
      destruct H as [->|[d Hd]]; [done|].
      unfold get_active_key in Hd.
      rewrite (current_index_from_first_active 0), Hc in Hd by lia. done.
    - replace (0 <=? current_index_from 0 (get_list c (api_keys_key p)))%Z with true
        by (symmetry; apply Z.leb_le; lia).
      by replace (0 <=? current_index_from 0 (get_list c (api_keys_key p)))%Z with true
        by (symmetry; apply Z.leb_le; lia). }
  split; [exact E|]. unfold get_active_value, get_active_key_value. by rewrite E.
Qed.

Lemma list_manager_and_provider_agree_witness :
  get_active key_manager three_keys = get_active_key gemini three_keys.
Proof.
  assert (Hk : list_key key_manager = api_keys_key gemini) by reflexivity.
  assert (H : scalars three_keys !! active_field key_manager = None
              \/ is_Some (get_active_key gemini three_keys))
    by (left; vm_compute; reflexivity).
  destruct (list_manager_and_provider_agree key_manager gemini three_keys Hk H)
    as [E _].
  exact E.
Defined.

(** ** Rotation: where the flag goes *)

Lemma first_active_set_after_inactive (k : nat) (l : list item) :
  k < length l ->
  (forall j d, j < k -> l !! j = Some d -> is_active d = false) ->
  first_active (set_field k "active" (VBool true) l)
  = set_field k "active" (VBool true) l !! k.
Proof.
  revert k. induction l as [|x l IH]; intros k Hk Hbefore; simpl in *; [lia|].
  destruct k as [|k]; simpl.
  - by rewrite is_active_insert.
  - rewrite (Hbefore 0 x) by (done || lia). apply IH; [lia|].
    intros j d Hj Hd. apply (Hbefore (S j) d); [lia|done].
Qed.

Lemma current_index_from_before (o : Z) (l : list item) (j : nat) (d : item) :
  (0 <= current_index_from o l)%Z -> (0 <= o)%Z ->
  (Z.of_nat j < current_index_from o l - o)%Z -> l !! j = Some d ->
  is_active d = false.
Proof.
  revert o j. induction l as [|x l IH]; intros o j Hc Ho Hj Hd; [done|].
  simpl in *. destruct (is_active x) eqn:E; [lia|].
  destruct j as [|j]; simpl in Hd; [by injection Hd as <-|].
  apply (IH (o + 1)%Z j); [done|lia|lia|done].
Qed.

Lemma first_active_switch_keys (l : list item) :
  0 < length l -> first_active (switch_keys l) = switch_keys l !! next_index l.
Proof.
  intros Hl. pose proof (next_index_lt l Hl) as Hn.
  unfold switch_keys. fold (next_index l).
  destruct (current_index_from_range 0 l) as [Hc|Hc]; fold (current_index l) in Hc.
  - rewrite Hc. simpl. apply first_active_set_after_inactive; [done|].
    unfold next_index. rewrite Hc. simpl. rewrite Z.mod_0_l by lia. simpl. lia.
  - replace (0 <=? current_index l)%Z with true by (symmetry; apply Z.leb_le; lia).
    apply first_active_set_after_inactive; [by rewrite set_field_length|].
    intros j d Hj Hd. unfold set_field in Hd.
    destruct (decide (Z.to_nat (current_index l) = j)) as [<-|Hne].
    + rewrite list_lookup_alter, decide_True in Hd by done.
      destruct (l !! Z.to_nat (current_index l)); simpl in Hd; [|done].
      injection Hd as <-. apply is_active_insert.
    + rewrite list_lookup_alter_ne in Hd by done.
      apply (current_index_from_before 0 l j d); [fold (current_index l); lia|lia| |done].
      fold (current_index l).
      assert (Hle : (Z.of_nat (next_index l) <= current_index l + 1)%Z).
      { unfold next_index.
        destruct (decide (current_index l + 1 < Z.of_nat (length l))%Z) as [Hlt|Hge].
        - rewrite Z.mod_small by lia. lia.
        - replace (current_index l + 1)%Z with (Z.of_nat (length l)) by lia.
          rewrite Z.mod_same by lia. simpl. lia. }
      lia.
Qed.

(** X8. When no key is flagged active and there are at least two keys,
    one rotation activates the first key: afterwards exactly the first
    entry is active, no other field has changed, and the label returned
    is the first key's. *)
Theorem rotation_without_active_key_activates_the_first (p : provider) (c : Config)
    (first : item) :
  2 <= length (get_list c (api_keys_key p)) ->
  count_active (get_list c (api_keys_key p)) = 0 ->
  get_list c (api_keys_key p) !! 0 = Some first ->
  flags (get_list (rotate p c) (api_keys_key p))
  = onehot (length (get_list c (api_keys_key p))) 0 /\
  other_fields <$> get_list (rotate p c) (api_keys_key p)
  = other_fields <$> get_list c (api_keys_key p) /\
  (switch_to_next_key p c).1.1 = Some (default (VStr "Key 1") (first !! "name")).
Proof.
  intros Hn H0 Hfirst.
  pose proof (count_active_zero _ H0) as Hf.
  pose proof (current_index_from_none 0 _ Hf) as Hc.
  fold (current_index (get_list c (api_keys_key p))) in Hc.
  rewrite get_list_rotate.
  replace (length (get_list c (api_keys_key p)) <? 2)%nat with false
    by (symmetry; apply Nat.ltb_ge; lia).
  split; [|split].
  - unfold switch_keys. rewrite Hc. simpl. rewrite Z.mod_0_l by lia. simpl.
    rewrite flags_set_field, Hf. apply replicate_set. lia.
  - apply other_fields_switch_keys.
  - unfold switch_to_next_key.
    replace (length (get_list c (api_keys_key p)) <? 2)%nat with false
      by (symmetry; apply Nat.ltb_ge; lia).
    cbn [fst snd]. unfold next_index, switch_keys. rewrite Hc. simpl.
    rewrite Z.mod_0_l by lia. change (Z.to_nat 0) with 0.
    unfold set_field. rewrite list_lookup_alter, decide_True, Hfirst by done. simpl.
    rewrite lookup_insert_ne by done. done.
Qed.

Lemma rotation_without_active_key_activates_the_first_witness :
  flags (get_list
           (rotate gemini
              (sample_config [sample_key "Main Key" false; sample_key "Spare" false]))
           "api_keys")
  = [true; false].
Proof.
  assert (Hn : 2 <= length (get_list
                  (sample_config [sample_key "Main Key" false; sample_key "Spare" false])
                  (api_keys_key gemini))) by (vm_compute; lia).
  assert (H0 : count_active (get_list
                  (sample_config [sample_key "Main Key" false; sample_key "Spare" false])
                  (api_keys_key gemini)) = 0) by (vm_compute; reflexivity).
  assert (Hf : get_list
                 (sample_config [sample_key "Main Key" false; sample_key "Spare" false])
                 (api_keys_key gemini) !! 0 = Some (sample_key "Main Key" false))
    by reflexivity.
  destruct (rotation_without_active_key_activates_the_first gemini _ _ Hn H0 Hf)
    as (E & _).
  exact E.
Defined.

(** X9. With at least two keys, whatever their flags, the label that
    [switch_to_next_key] returns and the key it hands to [reconfigure]
    belong to the key that [get_active_key] finds afterwards; Gemini is
    reconfigured exactly when that key's value is truthy, the OpenAI
    adapter never. *)
Theorem rotation_returns_the_new_active_key (p : provider) (c : Config) :
  2 <= length (get_list c (api_keys_key p)) ->
  exists d,
    get_active_key p (rotate p c) = Some d /\
    is_active d = true /\
    get_list (rotate p c) (api_keys_key p) !! next_index (get_list c (api_keys_key p))
    = Some d /\
    (switch_to_next_key p c).1.1
    = Some (default (VStr (key_label (next_index (get_list c (api_keys_key p)))))
              (d !! "name")) /\
    (switch_to_next_key p c).2
    = (if truthy (get d "key")
       then match p with gemini => [Reconfigure (get d "key")] | openai => [] end
       else []).
Proof.
  intros Hn.
  assert (Hl : 0 < length (get_list c (api_keys_key p))) by lia.
  pose proof (next_index_lt _ Hl) as Hni.
  destruct (lookup_lt_is_Some_2 (switch_keys (get_list c (api_keys_key p)))
              (next_index (get_list c (api_keys_key p)))) as [d Hd].
  { by rewrite switch_keys_length. }
  exists d. unfold get_active_key. rewrite get_list_rotate.
  replace (length (get_list c (api_keys_key p)) <? 2)%nat with false
    by (symmetry; apply Nat.ltb_ge; lia).
  rewrite first_active_switch_keys by done.
  split; [done|]. split; [|split; [done|]].
  - unfold switch_keys in Hd. fold (next_index (get_list c (api_keys_key p))) in Hd.
    unfold set_field in Hd. rewrite list_lookup_alter, decide_True in Hd by done.
    destruct (_ !! next_index _); simpl in Hd; [|done].
    injection Hd as <-. apply is_active_insert.
  - unfold switch_to_next_key.
    replace (length (get_list c (api_keys_key p)) <? 2)%nat with false
      by (symmetry; apply Nat.ltb_ge; lia).
    cbn [fst snd]. rewrite Hd. simpl. by destruct p.
Qed.

Lemma rotation_returns_the_new_active_key_witness :
  exists d,
    get_active_key gemini (rotate gemini three_keys) = Some d /\
    (switch_to_next_key gemini three_keys).1.1
    = Some (default (VStr (key_label (next_index (get_list three_keys "api_keys"))))
              (d !! "name")).
Proof.
  assert (Hn : 2 <= length (get_list three_keys (api_keys_key gemini)))
    by (vm_compute; lia).
  destruct (rotation_returns_the_new_active_key gemini three_keys Hn)
    as (d & Ha & _ & _ & Hr & _).
  exists d. split; [exact Ha | exact Hr].
Defined.

(** X10. [ConfigManager.switch_to_next_api_key] and
    [switch_to_next_openai_key] return the same label and leave the same
    configuration as the providers' [switch_to_next_key]; they differ in
    the calls made: the configuration manager saves whenever it rotates
    and reconfigures nothing, the provider never saves. *)
Theorem config_manager_rotation_agrees_with_provider (p : provider) (c : Config) :
  (switch_to_next_in (api_keys_key p) c).1 = (switch_to_next_key p c).1 /\
  (switch_to_next_in (api_keys_key p) c).2
  = (if (length (get_list c (api_keys_key p)) <? 2)%nat then [] else [Save]) /\
  count_event is_save (switch_to_next_key p c).2 = 0 /\
  switch_to_next_api_key c = switch_to_next_in (api_keys_key gemini) c /\
  switch_to_next_openai_key c = switch_to_next_in (api_keys_key openai) c.
Proof.
  unfold switch_to_next_in, switch_to_next_key.
  destruct (length (get_list c (api_keys_key p)) <? 2)%nat; [done|].
  cbn [fst snd]. repeat split.
  destruct (truthy _); [|done]. by destruct p.
Qed.

(** ** What [process] leaves untouched *)








Lemma config_emit evs tp : config (emit evs tp) = config tp.
Proof. done. Qed.





(** ** Where a result comes from *)

Lemma attempt_body_break p mo e sc tp s last_error tp' :
  attempt_body p mo e sc tp = (Break (Some s) last_error, tp') ->
  outcome sc = Returned s.
Proof.
  unfold attempt_body. intros H.
  repeat (case_match; simplify_eq; try done).
Qed.

Lemma retry_loop_break p mo e env n a tp s last_error tp' :
  retry_loop p mo e env n a tp = (Break (Some s) last_error, tp') ->
  exists i, a < i <= a + n /\ outcome (env i) = Returned s.
Proof.
  revert a tp. induction n as [|n IH]; intros a tp; simpl; [done|].
  destruct (attempt_body p mo e (env (S a)) tp) as [f tp1] eqn:E.
  destruct f; intros H; simplify_eq.
  - exists (S a). split; [lia|]. by eapply attempt_body_break.
  - destruct (IH _ _ H) as (i & Hi & Ho). exists i. split; [lia|done].
Qed.

(** X12. A non-empty result of [process] is the text that the adapter
    returned at one of the attempts, numbered from 1 to [max_attempts];
    [process] never makes a result up, and the call ends with the save. *)
Theorem process_result_comes_from_the_adapter (env : nat -> attempt_script)
    (now : Q) (action_name : string) (tp : TextProcessor) :
  (process env now action_name tp).1 <> "" ->
  (exists i,
     1 <= i <= max_attempts (resolved_provider (config tp) action_name) (config tp) /\
     outcome (env i) = Returned (process env now action_name tp).1) /\
  genai_lock tp = false /\
  exists pre, trace (process env now action_name tp).2 = (pre ++ [Save])%list.
Proof.
  intros Hr.
  destruct (genai_lock tp) eqn:Hl.
  { exfalso. apply Hr. unfold process, process_begin, process_busy. simpl.
    by rewrite Hl. }
  split; [|split; [done|]].
  - rewrite (process_idle env now action_name tp Hl) in *. cbv zeta in *.
    cbn [fst] in *. revert Hr. unfold process_try, on_exception.
    change (config (emit _ ?t)) with (config tp).
    destruct (retry_loop _ _ _ _ _ _ _) as [f tp2] eqn:E.
    destruct f as [s|msg|success_result last_error|]; cbn [fst]; try done.
    + intros Hs. exfalso. apply Hs. by eapply retry_loop_return.
    + destruct success_result as [[|a s]|].
      * by destruct last_error.
      * apply retry_loop_break in E as (i & Hi & Ho).
        destruct (_update_key_timestamp _ now (config tp2)); cbn [fst]; [done|].
        intros _. exists i. split; [lia|done].
      * by destruct last_error.
  - destruct (process env now action_name tp) as [r tp'] eqn:E.
    by eapply process_success_saves.
Qed.

Lemma process_result_comes_from_the_adapter_witness :
  exists i, 1 <= i <= max_attempts gemini one_key /\
    outcome (always_ok i)
    = Returned (process always_ok 0 "F1 Text Correction" (idle_processor one_key)).1.
Proof.
  assert (H : (process always_ok 0 "F1 Text Correction" (idle_processor one_key)).1 <> "")
    by (vm_compute; discriminate).
  destruct (process_result_comes_from_the_adapter always_ok 0 "F1 Text Correction"
              (idle_processor one_key) H) as [E _].
  exact E.
Defined.

(** ** Keys that are turned down before any request *)

Lemma max_attempts_pos (p : provider) (c : Config) :
  exists n, max_attempts p c = S n.
Proof.
  unfold max_attempts.
  destruct (Nat.max (length (get_list c (api_keys_key p)) * 2) 1) eqn:E; [lia|].
  by eexists.
Qed.

Lemma attempt_body_turned_down p mo e sc tp r :
  turned_down (get_active_key p (config tp)) = Some r ->
  attempt_body p mo e sc tp = (Return "", fire on_error OnError (emit [Logger r] tp)).
Proof.
  unfold turned_down, attempt_body.
  destruct (get_active_key p (config tp)) as [d|]; [|by intros [= <-]].
  unfold get. destruct (d !! "key") as [[| |s| |]|]; simpl; try done;
    try (by intros [= <-]).
  destruct (String.eqb s "") eqn:Es; simpl; [by intros [= <-]|].
  destruct (contains "YOUR_KEY" s); [by intros [= <-]|done].
Qed.

(** X13. When the provider has no active key, or the active key's value
    is missing, [None] or empty, or it contains "YOUR_KEY", a call of
    [process] that gets the lock returns the empty string after logging
    the reason and calling [on_error] if registered: no request is made,
    nothing is saved, the configuration stays as it is and the lock is
    released. This holds for an empty key list too, as the loop runs at
    least once. *)
Theorem process_without_a_usable_key (env : nat -> attempt_script) (now : Q)
    (action_name : string) (tp : TextProcessor) (r : log_record) :
  genai_lock tp = false ->
  turned_down (get_active_key (resolved_provider (config tp) action_name) (config tp))
  = Some r ->
  (process env now action_name tp).1 = "" /\
  trace (process env now action_name tp).2
  = (trace tp ++ [Logger (LProcessing (resolved_provider (config tp) action_name));
                  Logger r] ++ (if on_error tp then [OnError] else []))%list /\
  config (process env now action_name tp).2 = config tp /\
  genai_lock (process env now action_name tp).2 = false /\
  (r = LKeyNotSet \/ r = LKeyNotConfigured).
Proof.
  intros Hl Hr.
  rewrite (process_idle env now action_name tp Hl). cbv zeta.
  set (p := resolved_provider (config tp) action_name) in *.
  unfold process_try. rewrite config_emit.
  change (config (with_lock true _)) with (config tp).
  destruct (max_attempts_pos p (config tp)) as [n ->]. cbn [retry_loop].
  rewrite (attempt_body_turned_down _ _ _ _ _ r) by exact Hr.
  cbn [fst snd]. unfold process_finally.
  split; [done|]. split; [|split; [|split; [done|]]].
  - unfold fire. simpl. destruct (on_error tp); simpl; by rewrite <- ?app_assoc.
  - unfold fire. simpl. by destruct (on_error tp).
  - unfold turned_down in Hr. repeat case_match; simplify_eq; auto.
Qed.

Lemma process_without_a_usable_key_witness :
  trace (process always_ok 0 "F1 Text Correction" (idle_processor (sample_config []))).2
  = [Logger (LProcessing gemini); Logger LKeyNotSet; OnError].
Proof.
  assert (Hl : genai_lock (idle_processor (sample_config [])) = false) by reflexivity.
  assert (Hr : turned_down
                 (get_active_key
                    (resolved_provider (config (idle_processor (sample_config [])))
                       "F1 Text Correction")
                    (config (idle_processor (sample_config [])))) = Some LKeyNotSet)
    by (vm_compute; reflexivity).
  destruct (process_without_a_usable_key always_ok 0 "F1 Text Correction"
              (idle_processor (sample_config [])) LKeyNotSet Hl Hr) as (_ & E & _).
  exact E.
Defined.

(** ** A request that succeeds *)

Lemma first_active_elem (l : list item) (d : item) :
  first_active l = Some d -> d ∈ l /\ is_active d = true.
Proof.
  induction l as [|x l IH]; simpl; [done|].
  destruct (is_active x) eqn:E.
  - intros [= <-]. split; [left|done].
  - intros H. destruct (IH H). split; [by right|done].
Qed.

Lemma flags_set_field_other (j : nat) (f : string) (v : value) (l : list item) :
  f <> "active" -> flags (set_field j f v l) = flags l.
Proof.
  intros Hf. revert j. induction l as [|x l IH]; intros [|j]; simpl; try done.
  - by rewrite is_active_insert_other.
  - f_equal. apply IH.
Qed.

Lemma update_key_timestamp_typed (p : provider) (now : Q) (c : Config) (d : item) :
  get_active_key p c = Some d -> usage_typed d = true ->
  exists c', _update_key_timestamp p now c = inr c' /\
             In now (active_usage p c') /\
             flags (get_list c' (api_keys_key p)) = flags (get_list c (api_keys_key p)).
Proof.
  intros Hk Ht.
  assert (Hok : usage_ok p c).
  { unfold usage_ok. rewrite Hk. unfold usage_typed in Ht.
    destruct (d !! "usage_timestamps") as [[]|]; done. }
  destruct (update_key_timestamp_total p now c Hok) as [c' Hc'].
  exists c'. split; [done|].
  destruct (update_key_timestamp_active p now c c' d Hk Hc') as (l & Hl & Ha).
  split.
  - unfold active_usage. rewrite Ha, lookup_insert_eq.
    apply List.filter_In. split; [apply in_or_app; right; by left|].
    apply younger_spec. unfold Qminus. rewrite Qplus_opp_r. reflexivity.
  - unfold _update_key_timestamp in Hc'. rewrite Hk, Hl in Hc'.
    injection Hc' as <-. rewrite get_list_set_list.
    by apply flags_set_field_other.
Qed.

Lemma attempt_body_returned p mo e sc tp d s :
  get_active_key p (config tp) = Some d -> usable_key d = true ->
  is_set e tp = false -> uncancelled sc -> outcome sc = Returned s ->
  attempt_body p mo e sc tp = (Break (Some s) None, emit [Generate p mo] tp).
Proof.
  intros Hk Hu Hset Hps Ho.
  rewrite (attempt_body_dispatch _ _ _ _ _ d Hk Hu).
  rewrite (wait_worker_idle e (polls sc) (emit [Generate p mo] tp) Hps Hset).
  by rewrite Ho.
Qed.

Lemma processor_ext (a b : TextProcessor) :
  config a = config b -> genai_lock a = genai_lock b ->
  current_task_event a = current_task_event b -> events_set a = events_set b ->
  events_created a = events_created b -> on_start a = on_start b ->
  on_success a = on_success b -> on_error a = on_error b ->
  on_key_switch a = on_key_switch b -> on_log a = on_log b -> trace a = trace b ->
  a = b.
Proof. destruct a, b; simpl; intros; by subst. Qed.

(** What a call of [process] does when the lock is free, the active key
    is usable and the first request comes back with a text. *)
Lemma process_first_call_success env now action_name tp d a s :
  genai_lock tp = false -> is_set (events_created tp) tp = false ->
  get_active_key (resolved_provider (config tp) action_name) (config tp) = Some d ->
  usable_key d = true -> usage_typed d = true ->
  uncancelled (env 1) -> outcome (env 1) = Returned (String a s) ->
  exists c',
    _update_key_timestamp (resolved_provider (config tp) action_name) now (config tp)
    = inr c' /\
    process env now action_name tp =
    (String a s,
     MkProcessor c' false None (events_set tp) (S (events_created tp))
       (on_start tp) (on_success tp) (on_error tp) (on_key_switch tp) (on_log tp)
       (trace tp ++ [Logger (LProcessing (resolved_provider (config tp) action_name));
                     Generate (resolved_provider (config tp) action_name)
                       (_get_model_name (find_hotkey (config tp) action_name));
                     Save])%list).
Proof.
  intros Hl Hset Hk Hu Ht Hps Ho.
  destruct (update_key_timestamp_typed _ now _ d Hk Ht) as (c' & Hc' & _).
  exists c'. split; [exact Hc'|].
  rewrite (process_idle env now action_name tp Hl). cbv zeta.
  set (p := resolved_provider (config tp) action_name) in *.
  unfold process_try. rewrite config_emit.
  change (config (with_lock true _)) with (config tp).
  destruct (max_attempts_pos p (config tp)) as [n ->]. cbn [retry_loop].
  rewrite (attempt_body_returned _ _ _ _ _ d (String a s)); try done.
  rewrite !config_emit. change (config (with_lock true _)) with (config tp).
  rewrite Hc'. cbn [fst snd]. f_equal.
  apply processor_ext; try reflexivity.
  change (((trace tp ++ [Logger (LProcessing p)])
             ++ [Generate p (_get_model_name (find_hotkey (config tp) action_name))])
            ++ [Save]
          = trace tp ++ [Logger (LProcessing p);
                         Generate p (_get_model_name (find_hotkey (config tp) action_name));
                         Save])%list.
  by rewrite <- !app_assoc.
Qed.

(** X14. A hotkey press with text on the clipboard, the lock free, a
    usable active key, and a first request that comes back with a
    non-empty text and is not cancelled: exactly one request is made, the
    usage of the active key is recorded with the current time and saved,
    the result is put on the clipboard before the paste, the explanation
    thread is started only in learning mode and only for text, and the
    callbacks registered are called in the order start, header, execution
    time, result, success. No key is switched and the lock is released. *)
Theorem hotkey_press_with_a_successful_first_call (env : nat -> attempt_script)
    (now : Q) (content : string) (is_image : bool) (action_name : string)
    (tp : TextProcessor) (key_data : item) (r : string) :
  genai_lock tp = false -> is_set (events_created tp) tp = false ->
  content <> "" ->
  get_active_key (resolved_provider (config tp) action_name) (config tp)
  = Some key_data ->
  usable_key key_data = true -> usage_typed key_data = true ->
  uncancelled (env 1) -> outcome (env 1) = Returned r -> r <> "" ->
  trace (handle_hotkey env now content is_image action_name tp)
  = (trace tp ++ (if on_start tp then [OnStart] else [])
       ++ (if on_log tp then [OnLog Header] else [])
       ++ [SimulateCopy;
           Logger (LProcessing (resolved_provider (config tp) action_name));
           Generate (resolved_provider (config tp) action_name)
             (_get_model_name (find_hotkey (config tp) action_name));
           Save; SetText r]
       ++ (if from_option learning_mode false (find_hotkey (config tp) action_name)
              && negb is_image
           then [StartExplanation] else [])
       ++ [SimulatePaste]
       ++ (if on_log tp then [OnLog ExecutionTime; OnLog (ResultLine r)] else [])
       ++ (if on_success tp then [OnSuccess] else []))%list /\
  genai_lock (handle_hotkey env now content is_image action_name tp) = false /\
  In now (active_usage (resolved_provider (config tp) action_name)
            (config (handle_hotkey env now content is_image action_name tp))) /\
  flags (get_list (config (handle_hotkey env now content is_image action_name tp))
           (api_keys_key (resolved_provider (config tp) action_name)))
  = flags (get_list (config tp)
             (api_keys_key (resolved_provider (config tp) action_name))).
Proof.
  intros Hl Hset Hcontent Hk Hu Ht Hps Ho Hr.
  destruct r as [|a s]; [done|].
  destruct (update_key_timestamp_typed _ now _ key_data Hk Ht) as (c1 & Hc1 & Hin & Hfl).
  unfold handle_hotkey.
  replace (String.eqb content "") with false
    by (symmetry; by apply String.eqb_neq).
  rewrite config_fire.
  set (copied := emit [SimulateCopy]
                   (fire on_log (OnLog Header) (fire on_start OnStart tp))).
  assert (Hcfg : config copied = config tp).
  { unfold copied. by rewrite config_emit, !config_fire. }
  assert (Hstate : genai_lock copied = false /\
                   is_set (events_created copied) copied = false /\
                   events_set copied = events_set tp /\
                   events_created copied = events_created tp /\
                   on_start copied = on_start tp /\ on_success copied = on_success tp /\
                   on_error copied = on_error tp /\
                   on_key_switch copied = on_key_switch tp /\
                   on_log copied = on_log tp /\
                   trace copied
                   = (trace tp ++ (if on_start tp then [OnStart] else [])
                        ++ (if on_log tp then [OnLog Header] else [])
                        ++ [SimulateCopy])%list).
  { unfold copied, fire. destruct (on_start tp) eqn:E1; simpl; rewrite ?E1;
      destruct (on_log tp) eqn:E2; simpl; rewrite ?E1, ?E2, <- ?app_assoc, ?app_nil_r;
      repeat split; done. }
  destruct Hstate as (Hl' & Hset' & Hes & Hec & H1 & H2 & H3 & H4 & H5 & Htr).
  destruct (process_first_call_success env now action_name copied key_data a s)
    as (c' & Hc' & Hp); try done; try (by rewrite Hcfg).
  rewrite Hcfg in Hc', Hp. rewrite Hc1 in Hc'. injection Hc' as <-.
  rewrite Hp. cbn [negb String.eqb]. cbv zeta.
  rewrite Hes, Hec, H1, H2, H3, H4, H5, Htr.
  unfold fire. simpl.
  destruct (from_option learning_mode false (find_hotkey (config tp) action_name)
            && negb is_image);
    destruct (on_log tp), (on_success tp), (on_start tp); simpl;
    rewrite <- ?app_assoc; simpl; repeat split; done.
Qed.

Lemma hotkey_press_with_a_successful_first_call_witness :
  trace (handle_hotkey always_ok 7 "helo world" false "F1 Text Correction"
           (idle_processor one_key))
  = [OnStart; OnLog Header; SimulateCopy; Logger (LProcessing gemini);
     Generate gemini None; Save; SetText "Hello world"; SimulatePaste;
     OnLog ExecutionTime; OnLog (ResultLine "Hello world"); OnSuccess] /\
  In 7%Q (active_usage gemini
            (config (handle_hotkey always_ok 7 "helo world" false "F1 Text Correction"
                       (idle_processor one_key)))).
Proof.
  assert (Hl : genai_lock (idle_processor one_key) = false) by reflexivity.
  assert (Hset : is_set (events_created (idle_processor one_key))
                   (idle_processor one_key) = false) by (vm_compute; reflexivity).
  assert (Hc : "helo world" <> "") by discriminate.
  assert (Hk : get_active_key
                 (resolved_provider (config (idle_processor one_key))
                    "F1 Text Correction")
                 (config (idle_processor one_key)) = Some (sample_key "Main Key" true))
    by (vm_compute; reflexivity).
  assert (Hu : usable_key (sample_key "Main Key" true) = true)
    by (vm_compute; reflexivity).
  assert (Ht : usage_typed (sample_key "Main Key" true) = true)
    by (vm_compute; reflexivity).
  assert (Hps : uncancelled (always_ok 1)) by (repeat constructor).
  assert (Ho : outcome (always_ok 1) = Returned "Hello world") by reflexivity.
  assert (Hr : "Hello world" <> "") by discriminate.
  destruct (hotkey_press_with_a_successful_first_call always_ok 7 "helo world" false
              "F1 Text Correction" (idle_processor one_key) _ _
              Hl Hset Hc Hk Hu Ht Hps Ho Hr) as (E & _ & Hin & _).
  split; [exact E | exact Hin].
Defined.

(** ** A request that succeeds after one rotation *)

Lemma attempt_body_quota_switch p mo e sc tp d msg :
  get_active_key p (config tp) = Some d -> usable_key d = true ->
  is_set e tp = false -> uncancelled sc ->
  outcome sc = Raised msg -> is_quota msg = true ->
  auto_switch_api_keys (config tp) = true ->
  attempt_body p mo e sc tp =
  let tp3 := emit (SwitchToNextKey :: (switch_to_next_key p (config tp)).2)
               (with_config (switch_to_next_key p (config tp)).1.2
                  (emit [Generate p mo] tp)) in
  match (switch_to_next_key p (config tp)).1.1 with
  | Some n =>
      if truthy n
      then (Continue,
            fire on_log (OnLog (Switched n)) (fire on_key_switch (OnKeySwitch n) tp3))
      else (Break None (Some msg), tp3)
  | None => (Break None (Some msg), tp3)
  end.
Proof.
  intros Hk Hu Hset Hps Ho Hq Hauto.
  rewrite (attempt_body_dispatch _ _ _ _ _ d Hk Hu).
  rewrite (wait_worker_idle e (polls sc) (emit [Generate p mo] tp) Hps Hset).
  rewrite Ho, Hq, config_emit, Hauto. cbn [andb].
  by destruct (switch_to_next_key p (config tp)) as [[new_key_name c'] evs].
Qed.

Lemma usage_typed_other_fields (d d' : item) :
  other_fields d = other_fields d' -> usage_typed d = usage_typed d'.
Proof.
  intros H. unfold usage_typed.
  rewrite <- (other_fields_lookup d "usage_timestamps") by done.
  rewrite <- (other_fields_lookup d' "usage_timestamps") by done.
  by rewrite H.
Qed.

Lemma switch_keys_usage_typed (l : list item) :
  Forall (fun d => usage_typed d = true) l ->
  Forall (fun d => usage_typed d = true) (switch_keys l).
Proof.
  rewrite !Forall_lookup. intros H i d' Hd'.
  pose proof (f_equal (fun k => k !! i) (other_fields_switch_keys l)) as E.
  simpl in E. rewrite !list_lookup_fmap, Hd' in E.
  destruct (l !! i) as [d|] eqn:Hd; [|done].
  simpl in E. injection E as E.
  rewrite (usage_typed_other_fields d' d E). by apply (H i).
Qed.

Lemma active_key_of_ready (p : provider) (K : nat) (c : Config) :
  rotation_ready p K c ->
  exists d, get_active_key p c = Some d /\ usable_key d = true /\
            d ∈ get_list c (api_keys_key p).
Proof.
  intros (_ & Hall & [d Hd] & _). exists d. split; [done|].
  unfold get_active_key in Hd. apply first_active_elem in Hd as [Hin _].
  split; [|done]. rewrite Forall_forall in Hall. specialize (Hall _ Hin).
  unfold ready_key in Hall. by apply andb_true_iff in Hall as [? _].
Qed.

Lemma on_log_fire reg e tp : on_log (fire reg e tp) = on_log tp.
Proof. unfold fire. by destruct (reg tp). Qed.

(** X15. With at least two keys that the loop accepts, auto-switch on,
    the lock free, a quota error at the first request and a non-empty
    text at the second, neither of them cancelled: [process] returns that
    text after exactly two requests and one rotation; the key switch is
    announced through [on_key_switch] and [on_log] with the label that
    [switch_to_next_key] returned; the usage is recorded, with the current
    time, on the key that the rotation made active, which stays active;
    the configuration is saved once, at the end. *)
Theorem process_succeeds_after_one_rotation (env : nat -> attempt_script) (now : Q)
    (action_name : string) (tp : TextProcessor) (K : nat) (msg r : string) :
  genai_lock tp = false -> is_set (events_created tp) tp = false ->
  2 <= K ->
  rotation_ready (resolved_provider (config tp) action_name) K (config tp) ->
  Forall (fun d => usage_typed d = true)
    (get_list (config tp) (api_keys_key (resolved_provider (config tp) action_name))) ->
  uncancelled (env 1) -> outcome (env 1) = Raised msg -> is_quota msg = true ->
  uncancelled (env 2) -> outcome (env 2) = Returned r -> r <> "" ->
  exists n,
    (switch_to_next_key (resolved_provider (config tp) action_name) (config tp)).1.1
    = Some n /\
    (process env now action_name tp).1 = r /\
    trace (process env now action_name tp).2
    = (trace tp
       ++ [Logger (LProcessing (resolved_provider (config tp) action_name));
           Generate (resolved_provider (config tp) action_name)
             (_get_model_name (find_hotkey (config tp) action_name));
           SwitchToNextKey]
       ++ (switch_to_next_key (resolved_provider (config tp) action_name) (config tp)).2
       ++ (if on_key_switch tp then [OnKeySwitch n] else [])
       ++ (if on_log tp then [OnLog (Switched n)] else [])
       ++ [Generate (resolved_provider (config tp) action_name)
             (_get_model_name (find_hotkey (config tp) action_name));
           Save])%list /\
    flags (get_list (config (process env now action_name tp).2)
             (api_keys_key (resolved_provider (config tp) action_name)))
    = flags (switch_keys
               (get_list (config tp)
                  (api_keys_key (resolved_provider (config tp) action_name)))) /\
    In now (active_usage (resolved_provider (config tp) action_name)
              (config (process env now action_name tp).2)).
Proof.
  intros Hl Hset HK Hready Htyped Hps1 Ho1 Hq Hps2 Ho2 Hr.
  destruct r as [|a s]; [done|].
  rewrite (process_idle env now action_name tp Hl). cbv zeta.
  set (p := resolved_provider (config tp) action_name) in *.
  set (mo := _get_model_name (find_hotkey (config tp) action_name)).
  set (started := with_lock true
                    (with_task_event (Some (events_created tp)) (new_event tp).2)).
  set (keys := get_list (config tp) (api_keys_key p)) in *.
  (* the rotation *)
  destruct (switch_to_next_key_ready p K (config tp) HK Hready)
    as (n & evs & Hsw & Hn & _ & Hready').
  fold keys in Hsw, Hready'.
  set (c1 := set_list (config tp) (api_keys_key p) (switch_keys keys)) in *.
  destruct (active_key_of_ready p K (config tp) Hready) as (d & Hd & Hu & _).
  destruct (active_key_of_ready p K c1 Hready') as (d' & Hd' & Hu' & Hin').
  assert (Ht' : usage_typed d' = true).
  { pose proof (switch_keys_usage_typed keys Htyped) as Hall.
    rewrite Forall_forall in Hall. apply Hall.
    unfold c1 in Hin'. by rewrite get_list_set_list in Hin'. }
  destruct (update_key_timestamp_typed p now c1 d' Hd' Ht') as (c' & Hc' & Hin & Hfl).
  exists n. split; [by rewrite Hsw|].
  (* the loop *)
  unfold process_try. rewrite config_emit.
  change (config started) with (config tp).
  assert (Hmax : max_attempts p (config tp) = S (S (2 * K - 2))).
  { unfold max_attempts. destruct Hready as (Hlen & _). rewrite Hlen. lia. }
  rewrite Hmax. cbn [retry_loop].
  rewrite (attempt_body_quota_switch p mo (events_created tp) (env 1)
             (emit [Logger (LProcessing p)] started) d msg Hd Hu Hset Hps1 Ho1 Hq)
    by (by destruct Hready as (_ & _ & _ & ?)).
  cbv zeta. rewrite config_emit. change (config started) with (config tp).
  rewrite Hsw. cbn [fst snd]. rewrite Hn.
  set (tpA := fire on_log (OnLog (Switched n))
                (fire on_key_switch (OnKeySwitch n)
                   (emit (SwitchToNextKey :: evs)
                      (with_config c1
                         (emit [Generate p mo]
                            (emit [Logger (LProcessing p)] started)))))).
  assert (HcA : config tpA = c1) by (unfold tpA; by rewrite !config_fire).
  assert (HsA : is_set (events_created tp) tpA = false)
    by (unfold tpA; by rewrite !is_set_fire).
  rewrite (attempt_body_returned p mo _ _ tpA d' (String a s));
    [|by rewrite HcA|done|done|done|done].
  rewrite config_emit, HcA, Hc'. cbn [fst snd].
  split; [done|]. split; [|split].
  - change (trace (process_finally
                     (emit [Save] (with_config c' (emit [Generate p mo] tpA)))))
      with ((trace tpA ++ [Generate p mo]) ++ [Save])%list.
    unfold tpA. rewrite !trace_fire, on_log_fire.
    change (on_key_switch (emit _ _)) with (on_key_switch tp).
    change (on_log (emit _ _)) with (on_log tp).
    change (trace (emit (SwitchToNextKey :: evs) _))
      with (((trace tp ++ [Logger (LProcessing p)]) ++ [Generate p mo])
              ++ SwitchToNextKey :: evs)%list.
    rewrite <- !app_assoc. done.
  - change (config (process_finally _)) with c'. rewrite Hfl.
    unfold c1. by rewrite get_list_set_list.
  - exact Hin.
Qed.

Lemma process_succeeds_after_one_rotation_witness :
  (process quota_then_ok 5 "F1 Text Correction" (idle_processor two_keys)).1
  = "Hello world" /\
  flags (get_list
           (config (process quota_then_ok 5 "F1 Text Correction"
                      (idle_processor two_keys)).2) "api_keys")
  = flags (switch_keys (get_list two_keys "api_keys")).
Proof.
  assert (Hl : genai_lock (idle_processor two_keys) = false) by reflexivity.
  assert (Hset : is_set (events_created (idle_processor two_keys))
                   (idle_processor two_keys) = false) by (vm_compute; reflexivity).
  assert (HK : 2 <= 2) by lia.
  assert (Hready : rotation_ready
                     (resolved_provider (config (idle_processor two_keys))
                        "F1 Text Correction") 2 (config (idle_processor two_keys))).
  { split; [vm_compute; reflexivity|].
    split; [|split; [vm_compute; eexists; reflexivity | vm_compute; reflexivity]].
    vm_compute. repeat (constructor; [reflexivity|]). constructor. }
  assert (Htyped : Forall (fun d => usage_typed d = true)
                     (get_list (config (idle_processor two_keys))
                        (api_keys_key
                           (resolved_provider (config (idle_processor two_keys))
                              "F1 Text Correction")))).
  { vm_compute. repeat (constructor; [reflexivity|]). constructor. }
  assert (Hps1 : uncancelled (quota_then_ok 1)) by (repeat constructor).
  assert (Ho1 : outcome (quota_then_ok 1) = Raised "429 quota exceeded") by reflexivity.
  assert (Hq : is_quota "429 quota exceeded" = true) by (vm_compute; reflexivity).
  assert (Hps2 : uncancelled (quota_then_ok 2)) by (repeat constructor).
  assert (Ho2 : outcome (quota_then_ok 2) = Returned "Hello world") by reflexivity.
  assert (Hr : "Hello world" <> "") by discriminate.
  destruct (process_succeeds_after_one_rotation quota_then_ok 5 "F1 Text Correction"
              (idle_processor two_keys) 2 _ _
              Hl Hset HK Hready Htyped Hps1 Ho1 Hq Hps2 Ho2 Hr)
    as (n & _ & E & _ & Hf & _).
  split; [exact E | exact Hf].
Defined.

(** ** How failures are classified *)

(** X16. The three classifications of an error message agree as far as
    quota errors go: a message that the [except] clause of [process]
    presents as "quota exceeded" (it contains both "429" and "quota",
    whatever the case) is one that the retry loop takes for a quota
    error, and one that the welcome message presents as "quota exceeded";
    and on messages without "exhausted" the translation of the welcome
    message is that of [process]. *)
Theorem quota_classifications_agree (msg : string) :
  (translate msg = QuotaExceeded <->
   contains "429" (lower msg) = true /\ contains "quota" (lower msg) = true) /\
  (translate msg = QuotaExceeded ->
   is_quota msg = true /\ welcome_translate msg = QuotaExceeded) /\
  (contains "exhausted" (lower msg) = false -> welcome_translate msg = translate msg).
Proof.
  assert (H1 : translate msg = QuotaExceeded <->
               contains "429" (lower msg) = true /\ contains "quota" (lower msg) = true).
  { unfold translate. cbv zeta.
    destruct (contains "429" (lower msg)), (contains "quota" (lower msg));
      cbn [andb]; (split; [|by intros [? ?]]); try done;
      intros H; repeat case_match; done. }
  split; [exact H1|]. split.
  - intros H. apply H1 in H as [H429 Hq].
    unfold is_quota, welcome_translate. cbv zeta. by rewrite H429, Hq.
  - intros He. unfold welcome_translate, translate. cbv zeta.
    by rewrite He, orb_false_r.
Qed.

Lemma quota_classifications_agree_witness :
  is_quota "Error 429: Quota exceeded for this key" = true /\
  welcome_translate "Error 429: Quota exceeded for this key" = QuotaExceeded.
Proof.
  destruct (quota_classifications_agree "Error 429: Quota exceeded for this key")
    as (_ & H & _).
  apply H. vm_compute. reflexivity.
Defined.

(** ** The key tester records usage as the processor does *)

(** X17. [APITester._update_timestamp], applied to the active key, and
    [TextProcessor._update_key_timestamp] agree: when one raises the other
    raises with the same message, and otherwise the active key of the
    configuration that the processor leaves is the entry that the tester
    computes, with the current time among its timestamps and none of them
    older than a day. *)
Theorem tester_and_processor_record_usage_alike (p : provider) (now : Q)
    (c : Config) (d : item) :
  get_active_key p c = Some d ->
  match _update_timestamp now d with
  | inl msg => _update_key_timestamp p now c = inl msg
  | inr d' =>
      (exists c', _update_key_timestamp p now c = inr c' /\
                  get_active_key p c' = Some d') /\
      other_fields d' !! "key" = d !! "key" /\
      exists l, d' !! "usage_timestamps" = Some (VTimes l) /\ In now l /\
                forall ts, In ts l -> (now - ts < 86400)%Q
  end.
Proof.
  intros Hk. unfold _update_timestamp.
  destruct (default (VTimes []) (d !! "usage_timestamps")) as [| | | |l] eqn:E;
    try (unfold _update_key_timestamp; by rewrite Hk, E).
  split; [|split].
  - destruct (update_key_timestamp_total p now c) as [c' Hc'].
    { unfold usage_ok. rewrite Hk.
      destruct (d !! "usage_timestamps") as [[]|]; simplify_eq/=; done. }
    exists c'. split; [done|].
    destruct (update_key_timestamp_active p now c c' d Hk Hc') as (l' & Hl' & Ha).
    rewrite E in Hl'. by injection Hl' as <-.
  - rewrite other_fields_lookup by done. by rewrite lookup_insert_ne.
  - eexists. split; [apply lookup_insert_eq|]. split.
    + apply List.filter_In. split; [apply in_or_app; right; by left|].
      apply younger_spec. unfold Qminus. rewrite Qplus_opp_r. reflexivity.
    + intros ts Hin. apply List.filter_In in Hin as [_ Hy]. by apply younger_spec.
Qed.

Lemma tester_and_processor_record_usage_alike_witness :
  exists c', _update_key_timestamp gemini 100000 used_keys = inr c' /\
             get_active_key gemini c'
             = Some (<["usage_timestamps" := VTimes [90000%Q; 100000%Q]]>
                       (<["usage_timestamps" := VTimes [100%Q; 90000%Q]]>
                          (sample_key "Main Key" true))).
Proof.
  assert (Hk : get_active_key gemini used_keys
               = Some (<["usage_timestamps" := VTimes [100%Q; 90000%Q]]>
                         (sample_key "Main Key" true))) by reflexivity.
  pose proof (tester_and_processor_record_usage_alike gemini 100000 used_keys _ Hk)
    as H.
  destruct H as [H _]. exact H.
Defined.

(** ** The settings window edits the key lists as the list manager does *)

(** X18. On a key list that is present in the configuration, the
    handlers [_add_key], [_delete_key] (once the user has confirmed, the
    name of the entry being text) and [_update_key] of the settings window
    leave the configuration that [add], [delete] and [update_field] of a
    list manager for that list, with the window's new entry as default
    item, leave, and make the same calls; a deletion that the user
    declines changes nothing and saves nothing. *)
Theorem settings_window_agrees_with_list_manager (m : ConfigListManager)
    (provider : string) (c : Config) (l : list item) (index : Z) (text : string) :
  list_key m = ui_list_key provider -> default_item m = new_key_entry ->
  lists c !! ui_list_key provider = Some l ->
  Forall (fun d => name_is_text d = true) l ->
  _add_key provider c = Some ((add m None c).1.2, (add m None c).2) /\
  _delete_key provider index true c
  = Some ((delete m index c).1.2, (delete m index c).2) /\
  _update_key provider index text c
  = Some ((update_field m index "key" (VStr text) c).1.2,
          (update_field m index "key" (VStr text) c).2) /\
  (forall d, l !! Z.to_nat index = Some d -> (0 <= index)%Z ->
             truthy (get d "key") || truthy (get d "name") = true ->
             _delete_key provider index false c = Some (c, [])).
Proof.
  intros Hkey Hdef Hl Htext.
  assert (Hitems : items m c = l).
  { unfold items, get_list. by rewrite Hkey, Hl. }
  split; [|split; [|split]].
  - unfold _add_key, add. rewrite Hl, Hkey, Hl. cbn [fst snd].
    rewrite Hitems. unfold item_or_default. rewrite Hdef.
    rewrite length_app. simpl.
    destruct l as [|x l']; simpl.
    + by rewrite bool_decide_eq_true_2 by (by eexists).
    + replace (length l' + 1 =? 0)%nat with false by (symmetry; apply Nat.eqb_neq; lia).
      done.
  - unfold _delete_key, delete. rewrite Hl, Hitems.
    destruct (in_range index l) eqn:Hr; cbn [negb fst snd]; [|done].
    rewrite Hkey.
    apply in_range_spec in Hr.
    destruct (lookup_lt_is_Some_2 l (Z.to_nat index)) as [d Hd]; [lia|].
    rewrite Hd. cbn [from_option id].
    assert (Hd_text : name_is_text d = true).
    { rewrite Forall_lookup in Htext. by apply (Htext _ _ Hd). }
    assert (Hactive : truthy (default (VBool false) (d !! "active")) = is_active d).
    { unfold is_active, get. by destruct (d !! "active"). }
    rewrite Hactive.
    assert (Hname : truthy (default (VStr "") (d !! "name"))
                    && negb (String.eqb (type_name (default (VStr "") (d !! "name")))
                               "str") = false).
    { unfold name_is_text in Hd_text.
      destruct (d !! "name") as [[| | | |]|]; simpl in *; try done.
      by rewrite andb_false_r. }
    rewrite Hname. by destruct (_ || _).
  - unfold _update_key, update_field. rewrite Hl, Hitems.
    destruct (in_range index l); cbn [negb fst snd]; [|done].
    by rewrite Hkey.
  - intros d Hd Hi Htruthy.
    assert (Hr : in_range index l = true).
    { apply in_range_spec. apply lookup_lt_Some in Hd. lia. }
    unfold _delete_key. rewrite Hl, Hr, Hd. cbn [from_option id].
    assert (Hd_text : name_is_text d = true).
    { rewrite Forall_lookup in Htext. by apply (Htext _ _ Hd). }
    assert (Hshown : truthy (default (VStr "") (d !! "key"))
                     || truthy (default (VStr "") (d !! "name")) = true).
    { unfold get in Htruthy.
      destruct (d !! "key") as [vk|], (d !! "name") as [vn|]; simpl in *;
        try done; by rewrite ?orb_false_r in *. }
    rewrite Hshown.
    unfold name_is_text in Hd_text.
    destruct (d !! "name") as [[| | | |]|]; simpl in *; try done;
      by rewrite ?andb_false_r.
Qed.

Lemma settings_window_agrees_with_list_manager_witness :
  _add_key "gemini" two_keys
  = Some ((add ui_key_manager None two_keys).1.2, [Save; Refresh]) /\
  _delete_key "gemini" 0 true two_keys
  = Some ((delete ui_key_manager 0 two_keys).1.2, (delete ui_key_manager 0 two_keys).2).
Proof.
  assert (Hkey : list_key ui_key_manager = ui_list_key "gemini") by reflexivity.
  assert (Hdef : default_item ui_key_manager = new_key_entry) by reflexivity.
  assert (Hl : lists two_keys !! ui_list_key "gemini"
               = Some [sample_key "Main Key" true; sample_key "Spare" false])
    by reflexivity.
  assert (Htext : Forall (fun d => name_is_text d = true)
                    [sample_key "Main Key" true; sample_key "Spare" false]).
  { repeat (constructor; [vm_compute; reflexivity|]). constructor. }
  destruct (settings_window_agrees_with_list_manager ui_key_manager "gemini" two_keys
              _ 0 "sk-new" Hkey Hdef Hl Htext) as (Ha & Hd & _).
  split; [exact Ha | exact Hd].
Defined.

(** ** Activating a key from the settings window *)

Lemma flags_imap_activate_Z (index : Z) (l : list item) :
  flags (imap (fun i k => <["active" := VBool (Z.of_nat i =? index)%Z]> k) l)
  = (fun i => (Z.of_nat i =? index)%Z) <$> seq 0 (length l).
Proof.
  apply list_eq. intros j. unfold flags.
  rewrite !list_lookup_fmap, list_lookup_imap.
  destruct (l !! j) as [d|] eqn:E; simpl.
  - rewrite lookup_seq_lt by (by apply lookup_lt_Some in E). simpl.
    by rewrite is_active_insert.
  - rewrite lookup_seq_ge by (by apply lookup_ge_None_1 in E). done.
Qed.

Lemma other_fields_imap_activate (f : nat -> bool) (l : list item) :
  other_fields <$> imap (fun i k => <["active" := VBool (f i)]> k) l
  = other_fields <$> l.
Proof.
  apply list_eq. intros j. rewrite !list_lookup_fmap, list_lookup_imap.
  destruct (l !! j) as [d|]; simpl; [|done].
  f_equal. unfold other_fields. apply delete_insert_eq.
Qed.

(** X19. [_activate_key] of the settings window flags exactly the entry
    at the index given when that index is in range, as [set_active] does,
    and changes no other field; it makes no range check, though: with an
    index out of range it leaves no key active where [set_active] refuses.
    It saves in both cases, and reconfigures the Gemini client only for
    the Gemini list, with the value of the key it has activated, unless
    that value is falsy or the placeholder of the default configuration. *)
Theorem activate_key_flags_the_entry_at_the_index (m : ConfigListManager)
    (provider : string) (c : Config) (l : list item) (index : Z) :
  list_key m = ui_list_key provider ->
  lists c !! ui_list_key provider = Some l ->
  exists c' evs,
    _activate_key provider index c = Some (c', evs) /\
    other_fields <$> get_list c' (ui_list_key provider) = other_fields <$> l /\
    (in_range index l = true ->
     flags (get_list c' (ui_list_key provider)) = onehot (length l) (Z.to_nat index) /\
     (is_Some (default ∅ (l !! 0) !! "active") ->
      c' = (set_active m index c).1.2)) /\
    (in_range index l = false ->
     count_active (get_list c' (ui_list_key provider)) = 0 /\
     (set_active m index c).1.2 = c) /\
    evs = Save :: (if String.eqb provider "gemini"
                   then let key := get_active_key_value gemini c' in
                        if truthy key && negb (py_eq key (VStr "YOUR_API_KEY_HERE"))
                        then [Reconfigure key] else []
                   else []).
Proof.
  intros Hkey Hl. unfold _activate_key. rewrite Hl.
  eexists _, _. split; [reflexivity|].
  rewrite get_list_set_list.
  assert (Hitems : items m c = l).
  { unfold items, get_list. by rewrite Hkey, Hl. }
  split; [apply other_fields_imap_activate|]. split; [|split; [|done]].
  - intros Hr. pose proof Hr as Hr'. apply in_range_spec in Hr'.
    assert (Hsame : imap (fun i k => <["active" := VBool (Z.of_nat i =? index)%Z]> k) l
                    = imap (fun j d => <["active" := VBool (Nat.eqb j (Z.to_nat index))]> d)
                        l).
    { apply imap_ext. intros i x _. simpl. do 2 f_equal.
      destruct (Nat.eqb_spec i (Z.to_nat index)) as [->|Hne].
      - apply Z.eqb_eq. lia.
      - apply Z.eqb_neq. lia. }
    rewrite Hsame. split; [apply flags_imap_activate|].
    intros Hact. unfold set_active. rewrite Hitems, Hr. cbn [negb fst snd].
    by rewrite (bool_decide_eq_true_2 _ Hact), Hkey.
  - intros Hr. split.
    + rewrite count_active_flags, flags_imap_activate_Z.
      assert (Hall : (fun i => (Z.of_nat i =? index)%Z) <$> seq 0 (length l)
                     = replicate (length l) false).
      { apply list_eq. intros j.
        destruct (decide (j < length l)) as [Hj|Hj].
        - rewrite list_lookup_fmap, lookup_seq_lt, lookup_replicate_2 by done.
          simpl. f_equal. apply Z.eqb_neq. intros <-.
          assert (in_range (Z.of_nat j) l = true) by (apply in_range_spec; lia).
          congruence.
        - rewrite !lookup_ge_None_2; [done| |].
          + rewrite length_replicate. lia.
          + rewrite length_fmap, length_seq. lia. }
      rewrite Hall. apply count_true_replicate.
    + unfold set_active. by rewrite Hitems, Hr.
Qed.

Lemma activate_key_flags_the_entry_at_the_index_witness :
  exists c' evs,
    _activate_key "gemini" 5 two_keys = Some (c', evs) /\
    count_active (get_list c' "api_keys") = 0.
Proof.
  assert (Hkey : list_key ui_key_manager = ui_list_key "gemini") by reflexivity.
  assert (Hl : lists two_keys !! ui_list_key "gemini"
               = Some [sample_key "Main Key" true; sample_key "Spare" false])
    by reflexivity.
  destruct (activate_key_flags_the_entry_at_the_index ui_key_manager "gemini" two_keys
              _ 5 Hkey Hl) as (c' & evs & Ha & _ & _ & Hout & _).
  exists c', evs. split; [exact Ha|].
  apply Hout. reflexivity.
Defined.

(** ** Migration of the settings file *)

Lemma migrate_key_cases (d : item) :
  migrate_key d =
  match d !! "name", d !! "usage_timestamps" with
  | Some _, Some _ => (false, d)
  | Some _, None => (true, <["usage_timestamps" := VTimes []]> d)
  | None, Some _ => (true, <["name" := VStr ""]> d)
  | None, None =>
      (true, <["usage_timestamps" := VTimes []]> (<["name" := VStr ""]> d))
  end.
Proof.
  unfold migrate_key.
  destruct (d !! "name") eqn:En.
  - by destruct (d !! "usage_timestamps").
  - rewrite lookup_insert_ne by done. by destruct (d !! "usage_timestamps").
Qed.

Lemma migrate_key_complete (d : item) : complete (migrate_key d).2.
Proof.
  rewrite migrate_key_cases. unfold complete.
  destruct (d !! "name") eqn:En; destruct (d !! "usage_timestamps") eqn:Eu;
    cbn [snd];
    rewrite ?lookup_insert_eq, ?(lookup_insert_ne _ "usage_timestamps" "name"),
      ?(lookup_insert_ne _ "name" "usage_timestamps"), ?lookup_insert_eq, ?En, ?Eu
      by done;
    split; by eexists.
Qed.

Lemma migrate_key_fixed (d : item) : complete d -> migrate_key d = (false, d).
Proof.
  intros [[n Hn] [u Hu]]. by rewrite migrate_key_cases, Hn, Hu.
Qed.

Lemma migrate_key_incl (d : item) : d ⊆ (migrate_key d).2.
Proof.
  rewrite migrate_key_cases.
  destruct (d !! "name") eqn:En; destruct (d !! "usage_timestamps") eqn:Eu; cbn [snd].
  - done.
  - by apply insert_subseteq.
  - by apply insert_subseteq.
  - etransitivity; [apply (insert_subseteq d "name" (VStr "")); done|].
    apply insert_subseteq. by rewrite lookup_insert_ne.
Qed.

Lemma migrate_key_changed (d : item) :
  (migrate_key d).1 = false <-> (migrate_key d).2 = d.
Proof.
  split.
  - rewrite migrate_key_cases.
    by destruct (d !! "name"), (d !! "usage_timestamps").
  - intros H. rewrite migrate_key_fixed; [done|].
    rewrite <- H. apply migrate_key_complete.
Qed.

Lemma migrate_list_changed (l : list item) :
  existsb fst (migrate_key <$> l) = false <-> snd <$> (migrate_key <$> l) = l.
Proof.
  induction l as [|d l IH]; simpl; [done|].
  rewrite orb_false_iff, IH, migrate_key_changed. split.
  - intros [H1 H2]. by f_equal.
  - intros [= H1 H2]. done.
Qed.

Lemma migrate_list_complete (l : list item) :
  Forall complete (snd <$> (migrate_key <$> l)).
Proof.
  induction l as [|d l IH]; simpl; constructor; [apply migrate_key_complete | done].
Qed.

Lemma migrate_list_fixed (l : list item) :
  Forall complete l -> existsb fst (migrate_key <$> l) = false.
Proof.
  intros H. apply migrate_list_changed.
  induction H as [|d l Hd _ IH]; simpl; [done|].
  rewrite (migrate_key_fixed d Hd). simpl. by f_equal.
Qed.

Lemma migrate_list_incl (l : list item) :
  Forall2 (fun d d' => d ⊆ d') l (snd <$> (migrate_key <$> l)).
Proof.
  induction l as [|d l IH]; simpl; constructor; [apply migrate_key_incl | done].
Qed.

Lemma migrate_keys_unchanged (key : string) (ls : gmap string (list item)) :
  (migrate_keys key ls).1 = false <-> (migrate_keys key ls).2 = ls.
Proof.
  unfold migrate_keys. destruct (ls !! key) as [l|] eqn:E; simpl; [|done].
  rewrite migrate_list_changed. split.
  - intros ->. by apply insert_id.
  - intros H. apply (f_equal (fun x => x !! key)) in H.
    rewrite lookup_insert_eq, E in H. by injection H.
Qed.

Lemma migrate_keys_fixed (key : string) (ls : gmap string (list item)) :
  (forall l, ls !! key = Some l -> Forall complete l) ->
  migrate_keys key ls = (false, ls).
Proof.
  intros H.
  assert (E : (migrate_keys key ls).1 = false).
  { unfold migrate_keys. destruct (ls !! key) as [l|] eqn:El; simpl; [|done].
    apply migrate_list_fixed. by apply H. }
  pose proof E as E'. apply migrate_keys_unchanged in E'.
  destruct (migrate_keys key ls). simpl in *. by subst.
Qed.

Lemma migrate_keys_lookup (key k : string) (ls : gmap string (list item)) :
  (migrate_keys key ls).2 !! k
  = if decide (k = key) then (fun l => snd <$> (migrate_key <$> l)) <$> ls !! key
    else ls !! k.
Proof.
  unfold migrate_keys. destruct (decide (k = key)) as [->|Hne].
  - destruct (ls !! key) as [l|] eqn:E; simpl; [by rewrite lookup_insert_eq|done].
  - destruct (ls !! key) as [l|] eqn:E; simpl; [by rewrite lookup_insert_ne|done].
Qed.

Lemma union_absorb {A} (a b : gmap string A) :
  dom b ⊆ dom a -> a ∪ b = a.
Proof.
  intros H. apply map_eq. intros k. rewrite lookup_union.
  destruct (a !! k) as [x|] eqn:Ea; [by destruct (b !! k)|].
  destruct (b !! k) as [y|] eqn:Eb; [|done].
  exfalso. apply not_elem_of_dom in Ea. apply Ea, H. apply elem_of_dom. by eexists.
Qed.

Lemma migrate_keys_dom (key : string) (ls : gmap string (list item)) :
  dom (migrate_keys key ls).2 = dom ls.
Proof.
  apply set_eq. intros k. rewrite !elem_of_dom, migrate_keys_lookup.
  destruct (decide (k = key)) as [->|]; [|done].
  destruct (ls !! key); simpl; split; intros [? ?]; by eexists.
Qed.

Lemma migrated_lists_complete (ls : gmap string (list item)) (key : string) (l : list item) :
  key = "api_keys" \/ key = "openai_api_keys" ->
  (migrate_keys "openai_api_keys" (migrate_keys "api_keys" ls).2).2 !! key = Some l ->
  Forall complete l.
Proof.
  intros Hkey. rewrite !migrate_keys_lookup.
  destruct Hkey as [->| ->]; simpl.
  - destruct (ls !! "api_keys") as [l0|]; simpl; [|done].
    intros [= <-]. apply migrate_list_complete.
  - destruct (ls !! "openai_api_keys") as [l0|]; simpl; [|done].
    intros [= <-]. apply migrate_list_complete.
Qed.

(** What [_migrate_config] computes, by components. *)
Lemma migrate_config_unfold (defaults : Config) (s : stored) :
  _migrate_config defaults s =
  (negb (bool_decide (dom (lists defaults) ⊆ dom (stored_lists s)))
   || negb (bool_decide (dom (scalars defaults) ⊆ dom (stored_scalars s)))
   || negb (bool_decide (is_Some (stored_hotkeys s)))
   || (migrate_keys "api_keys" (stored_lists s ∪ lists defaults)).1
   || (migrate_keys "openai_api_keys"
         (migrate_keys "api_keys" (stored_lists s ∪ lists defaults)).2).1,
   MkConfig
     (migrate_keys "openai_api_keys"
        (migrate_keys "api_keys" (stored_lists s ∪ lists defaults)).2).2
     (stored_scalars s ∪ scalars defaults)
     (default (hotkeys defaults) (stored_hotkeys s))).
Proof.
  unfold _migrate_config.
  destruct (migrate_keys "api_keys" _) as [ch2 l2].
  by destruct (migrate_keys "openai_api_keys" _) as [ch3 l3].
Qed.

(** X20. [_migrate_config] is idempotent and reports changes exactly:
    migrating the configuration that a migration has produced changes
    nothing and returns [False], and a migration returns [False] exactly
    when the configuration it leaves is the one it was given. *)
Theorem migration_is_idempotent_and_reports_changes (defaults : Config) (s : stored) :
  _migrate_config defaults (to_stored (_migrate_config defaults s).2)
  = (false, (_migrate_config defaults s).2) /\
  ((_migrate_config defaults s).1 = false <->
   to_stored (_migrate_config defaults s).2 = s).
Proof.
  rewrite (migrate_config_unfold defaults s). cbn [fst snd].
  set (lists1 := stored_lists s ∪ lists defaults).
  set (lists2 := (migrate_keys "api_keys" lists1).2).
  set (lists3 := (migrate_keys "openai_api_keys" lists2).2).
  assert (Hdom3 : dom lists3 = dom lists1).
  { unfold lists3, lists2. by rewrite !migrate_keys_dom. }
  assert (Hcomplete : forall key l, key = "api_keys" \/ key = "openai_api_keys" ->
                        lists3 !! key = Some l -> Forall complete l).
  { intros key l. apply migrated_lists_complete. }
  split.
  - rewrite migrate_config_unfold. unfold to_stored. cbn [stored_lists stored_scalars
      stored_hotkeys lists scalars hotkeys from_option id].
    assert (Hl : lists3 ∪ lists defaults = lists3).
    { apply union_absorb. rewrite Hdom3. unfold lists1. rewrite dom_union.
      apply union_subseteq_r. }
    assert (Hs : stored_scalars s ∪ scalars defaults ∪ scalars defaults
                 = stored_scalars s ∪ scalars defaults).
    { apply union_absorb. rewrite dom_union. apply union_subseteq_r. }
    rewrite Hl, Hs.
    rewrite (migrate_keys_fixed "api_keys" lists3) by (intros l; apply Hcomplete; by left).
    cbn [fst snd].
    rewrite (migrate_keys_fixed "openai_api_keys" lists3)
      by (intros l; apply Hcomplete; by right).
    cbn [fst snd].
    rewrite !bool_decide_eq_true_2; [done|by eexists| |].
    + rewrite dom_union. apply union_subseteq_r.
    + rewrite Hdom3. unfold lists1. rewrite dom_union. apply union_subseteq_r.
  - rewrite !orb_false_iff, !negb_false_iff, !bool_decide_eq_true. split.
    + intros ((((Hdl & Hds) & Hhk) & H2) & H3).
      apply migrate_keys_unchanged in H2, H3.
      change (lists2 = lists1) in H2. change (lists3 = lists2) in H3.
      rewrite H3, H2. unfold lists1. rewrite !union_absorb by done.
      destruct s as [sl ss [hk|]]; simpl in *; [done|]. by destruct Hhk.
    + intros H. destruct s as [sl ss sh]. unfold to_stored in H.
      simpl in *. injection H as Hlists Hscalars Hhot.
      assert (Hds : dom (scalars defaults) ⊆ dom ss).
      { rewrite <- Hscalars. rewrite dom_union. apply union_subseteq_r. }
      assert (Hdl : dom (lists defaults) ⊆ dom sl).
      { rewrite <- Hlists. rewrite Hdom3. unfold lists1. rewrite dom_union.
        apply union_subseteq_r. }
      assert (H1 : lists1 = sl) by (unfold lists1; by apply union_absorb).
      assert (Hlook : forall k, lists3 !! k = lists1 !! k) by (by rewrite Hlists, H1).
      assert (H2 : (migrate_keys "api_keys" lists1).1 = false).
      { unfold migrate_keys. destruct (lists1 !! "api_keys") as [l|] eqn:E; simpl; [|done].
        apply migrate_list_changed.
        specialize (Hlook "api_keys"). unfold lists3, lists2 in Hlook.
        rewrite !migrate_keys_lookup in Hlook. simpl in Hlook.
        rewrite E in Hlook. simpl in Hlook. by injection Hlook. }
      pose proof H2 as H2'. apply migrate_keys_unchanged in H2'.
      assert (H3 : (migrate_keys "openai_api_keys" lists2).1 = false).
      { unfold lists2. rewrite H2'.
        unfold migrate_keys.
        destruct (lists1 !! "openai_api_keys") as [l|] eqn:E; simpl; [|done].
        apply migrate_list_changed.
        specialize (Hlook "openai_api_keys"). unfold lists3, lists2 in Hlook.
        rewrite H2' in Hlook. rewrite migrate_keys_lookup in Hlook. simpl in Hlook.
        rewrite E in Hlook. simpl in Hlook. by injection Hlook. }
      repeat split; first [done | rewrite <- Hhot; by eexists].
Qed.

Lemma migration_is_idempotent_and_reports_changes_witness :
  (_migrate_config sample_defaults old_file).1 = true /\
  (_migrate_config sample_defaults
     (to_stored (_migrate_config sample_defaults old_file).2)).1 = false.
Proof.
  destruct (migration_is_idempotent_and_reports_changes sample_defaults old_file)
    as [Hi _].
  split; [vm_compute; reflexivity|]. by rewrite Hi.
Defined.

(** X21. After [_migrate_config] every entry of [DEFAULT_CONFIG] is
    present and every key of the two key lists has a "name" and a
    "usage_timestamps" field; nothing that the file held is dropped or
    overwritten: its scalar entries and its hotkeys are kept as they are,
    its lists keep their length and their order, and every entry of a list
    keeps all its fields with their values. *)
Theorem migration_completes_and_keeps_the_file (defaults : Config) (s : stored) :
  (forall key, key = "api_keys" \/ key = "openai_api_keys" ->
     Forall complete (get_list (_migrate_config defaults s).2 key)) /\
  dom (lists defaults) ⊆ dom (lists (_migrate_config defaults s).2) /\
  dom (scalars defaults) ⊆ dom (scalars (_migrate_config defaults s).2) /\
  stored_scalars s ⊆ scalars (_migrate_config defaults s).2 /\
  (forall k l, stored_lists s !! k = Some l ->
     exists l', lists (_migrate_config defaults s).2 !! k = Some l' /\
                Forall2 (fun d d' => d ⊆ d') l l') /\
  (forall hk, stored_hotkeys s = Some hk ->
     hotkeys (_migrate_config defaults s).2 = hk).
Proof.
  rewrite (migrate_config_unfold defaults s). cbn [fst snd lists scalars hotkeys].
  set (lists1 := stored_lists s ∪ lists defaults).
  split; [|split; [|split; [|split; [|split]]]].
  - intros key Hkey. unfold get_list. cbn [lists].
    destruct (_ !! key) as [l|] eqn:E; simpl; [|constructor].
    by eapply migrated_lists_complete.
  - rewrite !migrate_keys_dom. unfold lists1. rewrite dom_union.
    apply union_subseteq_r.
  - rewrite dom_union. apply union_subseteq_r.
  - apply map_union_subseteq_l.
  - intros k l Hl.
    assert (H1 : lists1 !! k = Some l).
    { unfold lists1. by apply lookup_union_Some_l. }
    assert (Hrefl : Forall2 (fun d d' : item => d ⊆ d') l l).
    { apply Forall2_same_length_lookup. split; [done|].
      intros i d d' Hd Hd'. by simplify_eq. }
    rewrite !migrate_keys_lookup.
    destruct (decide (k = "openai_api_keys")) as [->|Hno].
    + rewrite decide_False by done. rewrite H1. simpl.
      eexists. split; [done|]. apply migrate_list_incl.
    + destruct (decide (k = "api_keys")) as [->|Hna].
      * rewrite H1. simpl. eexists. split; [done|]. apply migrate_list_incl.
      * by exists l.
  - by intros hk ->.
Qed.

Lemma migration_completes_and_keeps_the_file_witness :
  Forall complete (get_list (_migrate_config sample_defaults old_file).2 "api_keys") /\
  exists l', lists (_migrate_config sample_defaults old_file).2 !! "api_keys" = Some l' /\
             Forall2 (fun d d' => d ⊆ d')
               [<["key" := VStr "sk-old"]> (<["active" := VBool true]> ∅)] l'.
Proof.
  destruct (migration_completes_and_keeps_the_file sample_defaults old_file)
    as (Hc & _ & _ & _ & Hl & _).
  split; [apply Hc; by left|].
  apply Hl. reflexivity.
Defined.

(** ** The hotkey listener

    The properties hold whatever [str.lower] and [str.strip] are; the
    examples after them take the two functions on ASCII strings. *)

Section ListenerProperties.
Variables str_lower str_strip : string -> string.

Lemma elem_of_pressed_modifiers (st : HotkeyListener) (m : string) :
  m ∈ pressed_modifiers st <-> key_states st !! m = Some true.
Proof.
  unfold pressed_modifiers. rewrite elem_of_dom. split.
  - intros [b Hb]. apply map_lookup_filter_Some in Hb as [Hb Ht].
    simpl in Ht. by subst.
  - intros H. exists true. by apply map_lookup_filter_Some.
Qed.

Lemma pressed_modifiers_press (st : HotkeyListener) (m : string) :
  pressed_modifiers
    (MkListener (<[m := true]> (key_states st)) (is_pasting st) (queue st))
  = pressed_modifiers st ∪ {[m]}.
Proof.
  apply set_eq. intros x.
  rewrite elem_of_union, elem_of_singleton, !elem_of_pressed_modifiers. simpl.
  destruct (decide (x = m)) as [->|Hne].
  - rewrite lookup_insert_eq. split; [by right | done].
  - rewrite lookup_insert_ne by done. split; [by left | by intros [?|?]].
Qed.

Lemma pressed_modifiers_release (st : HotkeyListener) (m : string) :
  pressed_modifiers
    (MkListener (<[m := false]> (key_states st)) (is_pasting st) (queue st))
  = pressed_modifiers st ∖ {[m]}.
Proof.
  apply set_eq. intros x.
  rewrite elem_of_difference, elem_of_singleton, !elem_of_pressed_modifiers. simpl.
  destruct (decide (x = m)) as [->|Hne].
  - rewrite lookup_insert_eq. split; [done | by intros [_ ?]].
  - rewrite lookup_insert_ne by done. split; [done | by intros [? _]].
Qed.

Lemma tracking_insert (st : HotkeyListener) (m : string) (b : bool) :
  tracking st -> is_Some (key_states st !! m) ->
  tracking (MkListener (<[m := b]> (key_states st)) (is_pasting st) (queue st)).
Proof.
  unfold tracking. simpl. intros Ht Hm. rewrite dom_insert_L, Ht.
  apply elem_of_dom in Hm. rewrite Ht in Hm.
  apply set_eq. intros x. rewrite elem_of_union, elem_of_singleton.
  split; [by intros [->|?] | by right].
Qed.

Lemma tracking_deliver_one (c : Config) (e : key_event) (st : HotkeyListener) :
  tracking st -> tracking (deliver_one str_lower str_strip c e st).
Proof.
  intros Ht. destruct e as [k|k]; simpl.
  - unfold _on_press. repeat case_match; try done.
    apply tracking_insert; [done|]. by eapply bool_decide_eq_true_1.
  - unfold _on_release. repeat case_match; try done.
    apply tracking_insert; [done|]. by eapply bool_decide_eq_true_1.
Qed.

Lemma tracking_deliver (c : Config) (evs : list key_event) (st : HotkeyListener) :
  tracking st -> tracking (deliver str_lower str_strip c evs st).
Proof.
  revert st. induction evs as [|e evs IH]; intros st Ht; [done|].
  simpl. apply IH. by apply tracking_deliver_one.
Qed.

Lemma pressed_modifiers_tracked (st : HotkeyListener) :
  tracking st -> pressed_modifiers st ⊆ {["ctrl"; "alt"; "shift"; "meta"]}.
Proof.
  intros Ht x Hx. apply elem_of_pressed_modifiers in Hx.
  rewrite <- Ht. apply elem_of_dom. by eexists.
Qed.

Lemma deliver_app (c : Config) (evs evs' : list key_event) (st : HotkeyListener) :
  deliver str_lower str_strip c (evs ++ evs') st
  = deliver str_lower str_strip c evs' (deliver str_lower str_strip c evs st).
Proof. apply fold_left_app. Qed.

(** X22. Key events that reach the listener while the pasting flag is
    raised change nothing: neither the key states nor the queue, whatever
    the keys and however many.  So the keystrokes of [simulate_copy] and
    [simulate_paste], delivered between the two calls of [set_pasting],
    leave a listener that was not pasting as it was, even when a hotkey is
    bound to those keys. *)
Theorem keystrokes_while_pasting_are_ignored (c : Config) (evs : list key_event)
    (st : HotkeyListener) :
  deliver str_lower str_strip c evs (set_pasting true st) = set_pasting true st /\
  (is_pasting st = false -> simulate_keystrokes str_lower str_strip c evs st = st).
Proof.
  assert (H : deliver str_lower str_strip c evs (set_pasting true st)
              = set_pasting true st).
  { induction evs as [|e evs IH] using rev_ind; [done|].
    rewrite deliver_app, IH. by destruct e. }
  split; [exact H|].
  intros Hp. unfold simulate_keystrokes. rewrite H.
  destruct st; simpl in *. by subst.
Qed.

(** X23. A press of a key that is not one of the tracked modifiers, when
    the listener is not pasting, leaves the key states alone and puts at
    most one action on the queue: that of the first hotkey, in the order
    of the configuration, whose last part is the key and whose other
    parts are, as a set, exactly the modifiers held; with no such hotkey
    (one modifier too many or too few is enough) nothing is queued. *)
Theorem regular_key_dispatches_the_first_exact_match (c : Config) (k : key)
    (key_name : string) (st : HotkeyListener) :
  is_pasting st = false ->
  _get_key_name str_lower k = Some key_name -> key_name <> "" ->
  key_states st !! key_name = None ->
  key_states (_on_press str_lower str_strip c k st) = key_states st /\
  is_pasting (_on_press str_lower str_strip c k st) = false /\
  ((exists before h after,
      hotkeys c = (before ++ h :: after)%list /\
      main_key str_lower str_strip h = key_name /\
      required_modifiers str_lower str_strip h = pressed_modifiers st /\
      Forall (fun h' => ~ (main_key str_lower str_strip h' = key_name /\
                           required_modifiers str_lower str_strip h'
                           = pressed_modifiers st)) before /\
      queue (_on_press str_lower str_strip c k st) = (queue st ++ [hk_name h])%list) \/
   (Forall (fun h' => ~ (main_key str_lower str_strip h' = key_name /\
                         required_modifiers str_lower str_strip h'
                         = pressed_modifiers st)) (hotkeys c) /\
    queue (_on_press str_lower str_strip c k st) = queue st)).
Proof.
  intros Hp Hk Hne Hnone. unfold _on_press. rewrite Hp, Hk.
  replace (String.eqb key_name "") with false
    by (symmetry; by apply String.eqb_neq).
  rewrite bool_decide_eq_false_2 by (rewrite Hnone; by intros [? ?]).
  assert (Hact : forall h,
             activates str_lower str_strip key_name (pressed_modifiers st) h = true <->
             main_key str_lower str_strip h = key_name /\
             required_modifiers str_lower str_strip h = pressed_modifiers st).
  { intros h. unfold activates.
    rewrite andb_true_iff, String.eqb_eq, bool_decide_eq_true.
    split; intros [? ?]; by split. }
  induction (hotkeys c) as [|h l IH]; simpl.
  - split; [done|]. split; [done|]. right. by split.
  - destruct (activates str_lower str_strip key_name (pressed_modifiers st) h) eqn:E.
    + split; [done|]. split; [done|]. left.
      apply Hact in E as [E1 E2]. exists [], h, l. by repeat split.
    + assert (Hno : ~ (main_key str_lower str_strip h = key_name /\
                       required_modifiers str_lower str_strip h = pressed_modifiers st)).
      { intros H. apply Hact in H. congruence. }
      destruct IH as (Hs & Hq & [(before & h0 & after & -> & H1 & H2 & H3 & H4)
                                | [Hall Hqueue]]).
      * split; [done|]. split; [done|]. left.
        exists (h :: before), h0, after. repeat split; try done.
        by constructor.
      * split; [done|]. split; [done|]. right. split; [by constructor | done].
Qed.

(** X24. The listener tracks modifiers by their normalised name, not by
    the physical key.  When it is not pasting, a press of a key whose
    name is tracked adds that name to the modifiers held and a release
    removes it, whichever key of that name went down before; neither
    puts anything on the queue, and the set of tracked names stays the
    four of [__init__], so the modifiers held are always among them. *)
Theorem modifiers_are_tracked_by_name (c : Config) (k : key) (m : string)
    (st : HotkeyListener) :
  is_pasting st = false -> tracking st ->
  _get_key_name str_lower k = Some m -> is_Some (key_states st !! m) ->
  pressed_modifiers (_on_press str_lower str_strip c k st)
  = pressed_modifiers st ∪ {[m]} /\
  pressed_modifiers (_on_release str_lower k st) = pressed_modifiers st ∖ {[m]} /\
  queue (_on_press str_lower str_strip c k st) = queue st /\
  queue (_on_release str_lower k st) = queue st /\
  (forall evs, tracking (deliver str_lower str_strip c evs st) /\
               pressed_modifiers (deliver str_lower str_strip c evs st)
               ⊆ {["ctrl"; "alt"; "shift"; "meta"]}).
Proof.
  intros Hp Ht Hk Hm.
  assert (Hne : m <> "").
  { intros ->. apply elem_of_dom in Hm. rewrite Ht in Hm.
    rewrite !elem_of_union, !elem_of_singleton in Hm.
    by destruct Hm as [[[?|?]|?]|?]. }
  unfold _on_press, _on_release. rewrite Hp, Hk.
  replace (String.eqb m "") with false by (symmetry; by apply String.eqb_neq).
  rewrite (bool_decide_eq_true_2 _ Hm).
  split; [apply pressed_modifiers_press|].
  split; [apply pressed_modifiers_release|].
  split; [done|]. split; [done|].
  intros evs. split; [by apply tracking_deliver|].
  apply pressed_modifiers_tracked. by apply tracking_deliver.
Qed.

(** X25. A hotkey whose combination names, before its last part, anything
    but "ctrl", "alt", "shift" or "meta" (after lower-casing and
    stripping) can never be activated, whatever keys are pressed and
    released: the listener holds "meta" for the Windows key, so a
    combination written with "win" or "cmd" is among these. *)
Theorem hotkey_with_untracked_modifier_never_fires (c : Config) (h : hotkey)
    (m : string) (st : HotkeyListener) (evs : list key_event) (key_name : string) :
  tracking st ->
  m ∈ required_modifiers str_lower str_strip h ->
  m ∉ ({["ctrl"; "alt"; "shift"; "meta"]} : gset string) ->
  activates str_lower str_strip key_name
    (pressed_modifiers (deliver str_lower str_strip c evs st)) h = false.
Proof.
  intros Ht Hm Hout. unfold activates.
  apply andb_false_iff. right. apply bool_decide_eq_false. intros Heq.
  apply Hout.
  apply (pressed_modifiers_tracked (deliver str_lower str_strip c evs st));
    [by apply tracking_deliver|].
  by rewrite Heq.
Qed.

End ListenerProperties.

Lemma keystrokes_while_pasting_are_ignored_witness :
  simulate_keystrokes lower strip copy_bound
    [Press (Key "ctrl_l"); Press (KeyCode (Some "c"));
     Release (KeyCode (Some "c")); Release (Key "ctrl_l")] new_listener
  = new_listener /\
  queue (deliver lower strip copy_bound
           [Press (Key "ctrl_l"); Press (KeyCode (Some "c"));
            Release (KeyCode (Some "c")); Release (Key "ctrl_l")] new_listener)
  = ["Copy Action"].
Proof.
  split; [|vm_compute; reflexivity].
  apply (keystrokes_while_pasting_are_ignored lower strip copy_bound). reflexivity.
Defined.

Lemma regular_key_dispatches_the_first_exact_match_witness :
  key_states (_on_press lower strip copy_bound (Key "f1")
                (_on_press lower strip copy_bound (Key "ctrl_l") new_listener))
  = key_states (_on_press lower strip copy_bound (Key "ctrl_l") new_listener).
Proof.
  assert (Hp : is_pasting (_on_press lower strip copy_bound (Key "ctrl_l") new_listener)
               = false) by reflexivity.
  assert (Hk : _get_key_name lower (Key "f1") = Some "f1") by reflexivity.
  assert (Hne : "f1" <> "") by discriminate.
  assert (Hnone : key_states (_on_press lower strip copy_bound (Key "ctrl_l")
                                new_listener) !! "f1" = None)
    by (vm_compute; reflexivity).
  destruct (regular_key_dispatches_the_first_exact_match lower strip copy_bound
              (Key "f1") "f1" _ Hp Hk Hne Hnone) as (H & _).
  exact H.
Defined.

Lemma modifiers_are_tracked_by_name_witness :
  pressed_modifiers
    (_on_release lower (Key "ctrl_r")
       (deliver lower strip copy_bound [Press (Key "ctrl_l"); Press (Key "ctrl_r")]
          new_listener))
  = pressed_modifiers
      (deliver lower strip copy_bound [Press (Key "ctrl_l"); Press (Key "ctrl_r")]
         new_listener)
    ∖ {["ctrl"]}.
Proof.
  assert (Hp : is_pasting (deliver lower strip copy_bound
                             [Press (Key "ctrl_l"); Press (Key "ctrl_r")] new_listener)
               = false) by reflexivity.
  assert (Ht : tracking (deliver lower strip copy_bound
                           [Press (Key "ctrl_l"); Press (Key "ctrl_r")] new_listener))
    by (vm_compute; reflexivity).
  assert (Hk : _get_key_name lower (Key "ctrl_r") = Some "ctrl") by reflexivity.
  assert (Hm : is_Some (key_states (deliver lower strip copy_bound
                                      [Press (Key "ctrl_l"); Press (Key "ctrl_r")]
                                      new_listener) !! "ctrl"))
    by (vm_compute; eexists; reflexivity).
  destruct (modifiers_are_tracked_by_name lower strip copy_bound (Key "ctrl_r") "ctrl"
              _ Hp Ht Hk Hm) as (_ & H & _).
  exact H.
Defined.

Lemma hotkey_with_untracked_modifier_never_fires_witness :
  activates lower strip "v"
    (pressed_modifiers
       (deliver lower strip copy_bound [Press (Key "cmd"); Press (KeyCode (Some "v"))]
          new_listener))
    (Hotkey "Paste Plain" "Win+V" "#FFFFFF" false None None false) = false.
Proof.
  assert (Ht : tracking new_listener) by (vm_compute; reflexivity).
  assert (Hm : "win" ∈ required_modifiers lower strip
                         (Hotkey "Paste Plain" "Win+V" "#FFFFFF" false None None false))
    by (apply (bool_decide_unpack _); vm_compute; reflexivity).
  assert (Hout : "win" ∉ ({["ctrl"; "alt"; "shift"; "meta"]} : gset string))
    by (apply (bool_decide_unpack _); vm_compute; reflexivity).
  exact (hotkey_with_untracked_modifier_never_fires lower strip copy_bound _ "win"
           new_listener _ "v" Ht Hm Hout).
Defined.

(** * Cancellation, saving and recorded usage, on [process] itself *)

(** ** Recording usage: what each call does to the list *)







(** ** Where [process] saves *)

Lemma wait_worker_trace e ps tp :
  trace (wait_worker e ps tp).2
  = (trace tp ++ if (wait_worker e ps tp).1 then [Logger LCancelled] else [])%list.
Proof.
  revert tp. induction ps as [|press rest IH]; intros tp; simpl.
  - by rewrite app_nil_r.
  - assert (Ht : trace (if press then cancel_current tp else tp) = trace tp).
    { destruct press; [|done]. unfold cancel_current.
      by destruct (current_task_event tp). }
    destruct (is_set e _); simpl; [by rewrite Ht|]. by rewrite IH, Ht.
Qed.

Lemma count_save_fire reg e tp :
  is_save e = false ->
  count_event is_save (trace (fire reg e tp)) = count_event is_save (trace tp).
Proof.
  intros He. rewrite trace_fire, count_event_app.
  destruct (reg tp); unfold count_event; simpl; rewrite ?He; simpl; lia.
Qed.

Lemma switch_to_next_key_saves_nothing (p : provider) (c : Config) :
  count_event is_save (switch_to_next_key p c).2 = 0.
Proof.
  unfold switch_to_next_key. case_match; [done|]. simpl.
  case_match; [|done]. by destruct p.
Qed.

(** The retry loop never saves. *)
Lemma attempt_body_saves_nothing p mo e sc tp f tp' :
  attempt_body p mo e sc tp = (f, tp') ->
  count_event is_save (trace tp') = count_event is_save (trace tp).
Proof.
  unfold attempt_body. intros H.
  assert (Hlog : forall r t,
             count_event is_save (trace (fire on_error OnError (emit [Logger r] t)))
             = count_event is_save (trace t)).
  { intros r t. rewrite trace_fire.
    change (trace (emit [Logger r] t)) with (trace t ++ [Logger r])%list.
    rewrite !count_event_app.
    destruct (on_error _); unfold count_event; simpl; lia. }
  destruct (get_active_key p (config tp)) as [key_data|];
    [|injection H as _ <-; apply Hlog].
  destruct (negb (truthy (get key_data "key"))); [injection H as _ <-; apply Hlog|].
  destruct (your_key_in _) as [msg|[|]];
    [by injection H as _ <- | injection H as _ <-; apply Hlog |].
  pose proof (wait_worker_trace e (polls sc) (emit [Generate p mo] tp)) as Ht.
  pose proof (wait_worker_config e (polls sc) (emit [Generate p mo] tp)) as Hc.
  destruct (wait_worker e (polls sc) (emit [Generate p mo] tp)) as [cancelled tp2].
  simpl in Ht, Hc.
  assert (H2 : count_event is_save (trace tp2) = count_event is_save (trace tp)).
  { rewrite Ht, !count_event_app.
    destruct cancelled; unfold count_event; simpl; lia. }
  destruct cancelled; [by injection H as _ <-|].
  destruct (outcome sc) as [s|msg|]; try (by injection H as _ <-).
  destruct (is_quota msg && auto_switch_api_keys (config tp2));
    [|by injection H as _ <-].
  pose proof (switch_to_next_key_saves_nothing p (config tp2)) as Hs.
  destruct (switch_to_next_key p (config tp2)) as [[new_key_name c'] evs].
  simpl in Hs.
  assert (H3 : count_event is_save
                 (trace (emit (SwitchToNextKey :: evs) (with_config c' tp2)))
               = count_event is_save (trace tp)).
  { rewrite trace_emit, count_event_app, count_event_cons, Hs.
    change (trace (with_config c' tp2)) with (trace tp2). rewrite H2. simpl. lia. }
  destruct new_key_name as [n|]; [|by injection H as _ <-].
  destruct (truthy n); [|by injection H as _ <-].
  injection H as _ <-. by rewrite !count_save_fire.
Qed.

Lemma retry_loop_saves_nothing p mo e env n a tp f tp' :
  retry_loop p mo e env n a tp = (f, tp') ->
  count_event is_save (trace tp') = count_event is_save (trace tp).
Proof.
  revert a tp. induction n as [|n IH]; intros a tp; simpl.
  - by intros [= _ <-].
  - destruct (attempt_body p mo e (env (S a)) tp) as [f1 tp1] eqn:E.
    apply attempt_body_saves_nothing in E.
    destruct f1; intros H; try (injection H as _ <-; exact E).
    rewrite <- E. by eapply IH.
Qed.

(** A call of [process] that returns a result: the loop has saved
    nothing; the usage is recorded in the configuration the loop left,
    and the save follows as the last call. *)
Lemma process_result_is_saved env now action_name tp :
  (process env now action_name tp).1 <> "" ->
  exists before c',
    _update_key_timestamp (resolved_provider (config tp) action_name) now
      (config before) = inr c' /\
    config (process env now action_name tp).2 = c' /\
    trace (process env now action_name tp).2 = (trace before ++ [Save])%list /\
    count_event is_save (trace before) = count_event is_save (trace tp).
Proof.
  intros Hne.
  destruct (genai_lock tp) eqn:Hl.
  { exfalso. apply Hne. unfold process, process_begin. simpl. by rewrite Hl. }
  revert Hne. rewrite (process_idle env now action_name tp Hl). cbv zeta.
  set (p := resolved_provider (config tp) action_name).
  set (started := with_lock true
                    (with_task_event (Some (events_created tp)) (new_event tp).2)).
  unfold process_try, on_exception.
  destruct (retry_loop _ _ _ _ _ _ _) as [f tp2] eqn:E.
  pose proof E as Hret.
  apply retry_loop_saves_nothing in E.
  rewrite trace_emit, count_event_app in E.
  change (trace started) with (trace tp) in E.
  destruct f as [s|msg|success_result last_error|]; cbn [fst snd]; try done.
  - intros Hne. exfalso. apply Hne. by apply retry_loop_return in Hret.
  - destruct success_result as [[|a s]|]; try (by destruct last_error).
    destruct (_update_key_timestamp p now (config tp2)) as [msg|c'] eqn:Eu;
      cbn [fst snd]; [done|].
    intros _. exists tp2, c'. split; [done|]. split; [done|]. split; [done|].
    rewrite E. unfold count_event. simpl. lia.
Qed.

(** C7 (as amended). Every call of [add], and every call of [delete] and
    [set_active] with an index in range, calls the save callback and then
    the refresh callback before returning; [update_field] with an index
    in range calls the save callback only; and a [process] call that
    returns a result has recorded the usage and then called save: the
    retry loop has saved nothing, the configuration that the call leaves
    is the one that [_update_key_timestamp] made of the configuration at
    the end of the loop, with the current time among the timestamps of
    the active key, and the save is the last call made. *)
Theorem list_mutations_call_save (m : ConfigListManager) (c : Config)
    (it : option item) (index : Z) (field : string) (v : value)
    (env : nat -> attempt_script) (now : Q) (action_name : string)
    (tp : TextProcessor) :
  (add m it c).2 = [Save; Refresh] /\
  (in_range index (items m c) = true ->
   ((delete m index c).1.1 = true /\ (delete m index c).2 = [Save; Refresh]) /\
   ((set_active m index c).1.1 = true /\
    (set_active m index c).2 = [Save; Refresh]) /\
   ((update_field m index field v c).1.1 = true /\
    (update_field m index field v c).2 = [Save])) /\
  ((process env now action_name tp).1 <> "" ->
   exists before c',
     _update_key_timestamp (resolved_provider (config tp) action_name) now
       (config before) = inr c' /\
     config (process env now action_name tp).2 = c' /\
     trace (process env now action_name tp).2 = (trace before ++ [Save])%list /\
     count_event is_save (trace before) = count_event is_save (trace tp) /\
     (is_Some (get_active_key (resolved_provider (config tp) action_name)
                 (config before)) ->
      In now (active_usage (resolved_provider (config tp) action_name)
                (config (process env now action_name tp).2)))).
Proof.
  split; [apply add_events|]. split.
  - intros Hr.
    split; [by apply delete_in_range|].
    split; [by apply set_active_in_range|].
    by apply update_field_in_range.
  - intros Hne.
    destruct (process_result_is_saved env now action_name tp Hne)
      as (before & c' & Hu & Hc & Ht & Hs).
    exists before, c'. repeat split; try done.
    intros [d Hd]. rewrite Hc.
    destruct (update_key_timestamp_active _ now _ c' d Hd Hu) as (l & Hl & Ha).
    unfold active_usage. rewrite Ha, lookup_insert_eq.
    apply List.filter_In. split; [apply in_or_app; right; by left|].
    apply younger_spec. unfold Qminus. rewrite Qplus_opp_r. reflexivity.
Qed.

Lemma list_mutations_call_save_witness :
  (add key_manager None (sample_config [])).2 = [Save; Refresh] /\
  (delete key_manager 1 two_keys).2 = [Save; Refresh] /\
  (update_field key_manager 1 "name" (VStr "Renamed") two_keys).2 = [Save] /\
  exists before,
    trace (process always_ok 1000 "F1 Text Correction" (idle_processor two_keys)).2
    = (trace before ++ [Save])%list /\
    count_event is_save (trace before) = 0.
Proof.
  assert (Hr : in_range 1 (items key_manager two_keys) = true)
    by (vm_compute; reflexivity).
  assert (Hne : (process always_ok 1000 "F1 Text Correction"
                   (idle_processor two_keys)).1 <> "")
    by (vm_compute; discriminate).
  destruct (list_mutations_call_save key_manager (sample_config []) None 0 "name"
              (VStr "Renamed") always_ok 1000 "F1 Text Correction"
              (idle_processor two_keys)) as (Ha & _ & _).
  destruct (list_mutations_call_save key_manager two_keys None 1 "name"
              (VStr "Renamed") always_ok 1000 "F1 Text Correction"
              (idle_processor two_keys)) as (_ & Hin & Hp).
  destruct (Hin Hr) as ((_ & Hd) & _ & (_ & Hu)).
  destruct (Hp Hne) as (before & c' & _ & _ & Ht & Hs & _).
  split; [exact Ha|]. split; [exact Hd|]. split; [exact Hu|].
  exists before. split; [exact Ht | exact Hs].
Defined.

(** ** Cancellation, seen from [process] *)












